(** * Canandmessage: schema resolution, bit codec and CAN addressing

    A shallow embedding of the Python runtime codec
    ([pycanandmessage/model.py], [pycanandmessage/device.py]) and of the
    spec loader ([canandmessage_parser/__init__.py], [model_impl.py]),
    followed by the properties of the bit layout, the bounds checks, the
    arbitration identifier and the synthesised [SETTING] enums. *)

From Stdlib Require Import ZArith List Bool Lia String Ascii.
From Stdlib Require Import Floats.SpecFloat.
From Stdlib Require Init.Byte.
From stdpp Require Import base decidable numbers strings.
Import ListNotations.

Local Open Scope Z_scope.
Set Warnings "-register-all".

(* ===================================================================== *)
(** * Part I -- the embedding *)
(* ===================================================================== *)

(** ** Python runtime: exceptions, integers, bytes, floats *)

Module Py.

(** The exceptions the modelled code can raise.  The first four are all
    [ValueError] in the source and are told apart by the [raise] site. *)
Inductive error : Type :=
| OutOfRange      (* ValueError: "... out of bounds ..." / "less than minimum" / "greater than maximum" *)
| NonFinite       (* ValueError: "... is non-finite!" *)
| BufferTooLong   (* ValueError: "... buffer len ... > max len ..." *)
| InvalidWidth    (* ValueError: "Float(w) invalid size!!!" *)
| NegativeShift   (* ValueError: negative shift count *)
| ValueError      (* any other ValueError of the interpreter *)
| OverflowError
| TypeError
| AttributeError
| StructError     (* struct.error *)
| InvalidEnumDefault  (* ValueError: "invalid enum default value ..." *)
| LoadError.      (* a spec file that cannot be opened or deserialised *)

Inductive result (A : Type) : Type :=
| Ok (a : A)
| Raise (e : error).
Arguments Ok {A} a.
Arguments Raise {A} e.

Definition bind {A B : Type} (m : result A) (k : A -> result B) : result B :=
  match m with
  | Ok a => k a
  | Raise e => Raise e
  end.

Notation "'let!' x := m 'in' k" := (bind m (fun x => k))
  (at level 10, x name, m at level 100, k at level 200,
   format "'[v' 'let!'  x  :=  m  'in' '/' k ']'").

(** Python floats are IEEE-754 binary64 values. *)
Definition float : Type := spec_float.

Definition prec64 : Z := 53.
Definition emax64 : Z := 1024.
Definition prec32 : Z := 24.
Definition emax32 : Z := 128.

(** Dynamically typed values held by record fields. *)
Inductive Value : Type :=
| VNone
| VBool (b : bool)
| VInt (z : Z)
| VFloat (f : float)
| VBytes (l : list Byte.byte)
| VObj (fields : list (string * Value)).

Definition is_None (v : Value) : bool :=
  match v with VNone => true | _ => false end.

(** [a << n] and [a >> n]: a negative count raises [ValueError]. *)
Definition lshift (a n : Z) : result Z :=
  if n <? 0 then Raise NegativeShift else Ok (Z.shiftl a n).

Definition rshift (a n : Z) : result Z :=
  if n <? 0 then Raise NegativeShift else Ok (Z.shiftr a n).

(** [int(value)]. *)
Definition int (v : Value) : result Z :=
  match v with
  | VInt z => Ok z
  | VBool b => Ok (Z.b2z b)
  | VFloat (S754_zero _) => Ok 0
  | VFloat (S754_finite s m e) =>
      let a := match e with
               | Zneg p => Z.shiftr (Zpos m) (Zpos p)
               | _ => Z.shiftl (Zpos m) e
               end in
      Ok (if s then - a else a)
  | VFloat (S754_infinity _) => Raise OverflowError
  | VFloat S754_nan => Raise ValueError
  | _ => Raise TypeError
  end.

(** The double nearest to an integer (ties to even). *)
Definition float_of_Z (z : Z) : float :=
  binary_normalize prec64 emax64 z 0 false.

(** [float(value)]. *)
Definition to_float (v : Value) : result float :=
  match v with
  | VFloat f => Ok f
  | VInt z =>
      match float_of_Z z with
      | S754_infinity _ => Raise OverflowError
      | r => Ok r
      end
  | VBool b => Ok (float_of_Z (Z.b2z b))
  | _ => Raise TypeError
  end.

(** [bool(value)]: truthiness. *)
Definition truthy (v : Value) : bool :=
  match v with
  | VNone => false
  | VBool b => b
  | VInt z => negb (z =? 0)
  | VFloat (S754_zero _) => false
  | VFloat _ => true
  | VBytes l => match l with [] => false | _ => true end
  | VObj _ => true
  end.

(** A value used directly as the left operand of [<<]. *)
Definition as_int_operand (v : Value) : result Z :=
  match v with
  | VInt z => Ok z
  | VBool b => Ok (Z.b2z b)
  | _ => Raise TypeError
  end.

(** [len(value)]. *)
Definition len (v : Value) : result Z :=
  match v with
  | VBytes l => Ok (Z.of_nat (length l))
  | _ => Raise TypeError
  end.

(** [getattr(obj, name)]. *)
Fixpoint lookup_field (name : string) (fields : list (string * Value)) : result Value :=
  match fields with
  | [] => Raise AttributeError
  | (n, v) :: rest => if String.eqb n name then Ok v else lookup_field name rest
  end.

Definition getattr (obj : Value) (name : string) : result Value :=
  match obj with
  | VObj fields => lookup_field name fields
  | _ => Raise AttributeError
  end.

(** [math.isfinite]. *)
Definition isfinite (x : float) : bool :=
  match x with
  | S754_zero _ | S754_finite _ _ _ => true
  | _ => false
  end.

Definition flt (x y : float) : bool := SFltb x y.
Definition fgt (x y : float) : bool := SFltb y x.

(** *** Bytes *)

Definition byte_of_Z (z : Z) : Byte.byte :=
  match Byte.of_N (Z.to_N (z mod 256)) with
  | Some b => b
  | None => Byte.x00
  end.

Definition Z_of_byte (b : Byte.byte) : Z := Z.of_N (Byte.to_N b).

(** [int.from_bytes(l, 'little')]. *)
Fixpoint le_int (l : list Byte.byte) : Z :=
  match l with
  | [] => 0
  | b :: rest => Z_of_byte b + 256 * le_int rest
  end.

Definition int_from_bytes (v : Value) : result Z :=
  match v with
  | VBytes l => Ok (le_int l)
  | _ => Raise TypeError
  end.

Fixpoint le_bytes (n : nat) (z : Z) : list Byte.byte :=
  match n with
  | O => []
  | S k => byte_of_Z z :: le_bytes k (z / 256)
  end.

(** [z.to_bytes(n, 'little')]: negative lengths are a [ValueError],
    negative or too large integers an [OverflowError]. *)
Definition to_bytes (z n : Z) : result (list Byte.byte) :=
  if n <? 0 then Raise ValueError
  else if z <? 0 then Raise OverflowError
  else if 2 ^ (8 * n) <=? z then Raise OverflowError
  else Ok (le_bytes (Z.to_nat n) z).

(** *** IEEE-754 interchange formats ([struct.pack] / [struct.unpack])

    [spec_float] has a single NaN: NaN payloads and signs are not
    distinguished. *)

Definition bits_of_single (x : spec_float) : Z :=
  match x with
  | S754_zero s => Z.shiftl (Z.b2z s) 31
  | S754_infinity s => Z.lor (Z.shiftl (Z.b2z s) 31) 0x7f800000
  | S754_nan => 0x7fc00000
  | S754_finite s m e =>
      if Zpos (digits2_pos m) =? prec32
      then Z.lor (Z.shiftl (Z.b2z s) 31)
                 (Z.lor (Z.shiftl (e + 150) 23) (Zpos m - 2 ^ 23))
      else Z.lor (Z.shiftl (Z.b2z s) 31) (Zpos m)
  end.

Definition bits_of_double (x : spec_float) : Z :=
  match x with
  | S754_zero s => Z.shiftl (Z.b2z s) 63
  | S754_infinity s => Z.lor (Z.shiftl (Z.b2z s) 63) 0x7ff0000000000000
  | S754_nan => 0x7ff8000000000000
  | S754_finite s m e =>
      if Zpos (digits2_pos m) =? prec64
      then Z.lor (Z.shiftl (Z.b2z s) 63)
                 (Z.lor (Z.shiftl (e + 1075) 52) (Zpos m - 2 ^ 52))
      else Z.lor (Z.shiftl (Z.b2z s) 63) (Zpos m)
  end.

Definition single_of_bits (b : Z) : float :=
  let s := Z.testbit b 31 in
  let E := Z.land (Z.shiftr b 23) 0xff in
  let M := Z.land b 0x7fffff in
  if E =? 255 then (if M =? 0 then S754_infinity s else S754_nan)
  else if E =? 0 then binary_normalize prec64 emax64 (cond_Zopp s M) (-149) s
  else binary_normalize prec64 emax64 (cond_Zopp s (M + 2 ^ 23)) (E - 150) s.

Definition double_of_bits (b : Z) : float :=
  let s := Z.testbit b 63 in
  let E := Z.land (Z.shiftr b 52) 0x7ff in
  let M := Z.land b 0xfffffffffffff in
  if E =? 2047 then (if M =? 0 then S754_infinity s else S754_nan)
  else if E =? 0 then binary_normalize prec64 emax64 (cond_Zopp s M) (-1074) s
  else binary_normalize prec64 emax64 (cond_Zopp s (M + 2 ^ 52)) (E - 1075) s.

(** The C cast [(float)x]: round to nearest-even in binary32. *)
Definition round_to_single (x : float) : spec_float :=
  match x with
  | S754_finite s m e => binary_round prec32 emax32 s m e
  | _ => x
  end.

(** [struct.pack("<f", x)]: a finite double that rounds to an infinity is
    "float too large to pack with f format". *)
Definition pack_f (x : float) : result (list Byte.byte) :=
  match x, round_to_single x with
  | S754_finite _ _ _, S754_infinity _ => Raise OverflowError
  | _, r => Ok (le_bytes 4 (bits_of_single r))
  end.

(** [struct.pack("<d", x)]. *)
Definition pack_d (x : float) : result (list Byte.byte) :=
  Ok (le_bytes 8 (bits_of_double x)).

(** [struct.unpack("<f", b)[0]] and [struct.unpack("<d", b)[0]]. *)
Definition unpack_f (b : list Byte.byte) : result float :=
  if Nat.eqb (length b) 4 then Ok (single_of_bits (le_int b)) else Raise StructError.

Definition unpack_d (b : list Byte.byte) : result float :=
  if Nat.eqb (length b) 8 then Ok (double_of_bits (le_int b)) else Raise StructError.

(** *** Dictionaries

    A Python [dict] keeps its keys unique and in insertion order; assigning
    to an existing key keeps the key's position. *)

Section Dict.
Context {K V : Type} `{EqDecision K}.

Fixpoint dict_get (k : K) (d : list (K * V)) : option V :=
  match d with
  | [] => None
  | (k', v) :: rest => if decide (k' = k) then Some v else dict_get k rest
  end.

(** [d[k] = v]. *)
Fixpoint dict_set (k : K) (v : V) (d : list (K * V)) : list (K * V) :=
  match d with
  | [] => [(k, v)]
  | (k', v') :: rest =>
      if decide (k' = k) then (k', v) :: rest else (k', v') :: dict_set k v rest
  end.

(** [d.update(other)]. *)
Definition dict_update (d other : list (K * V)) : list (K * V) :=
  fold_left (fun acc kv => dict_set (fst kv) (snd kv) acc) other d.

End Dict.

End Py.

(** ** [pycanandmessage/utils.py] *)

Module Utils.
Import Py.

(** Modelled from the spec: [pycanandmessage/utils.py], which [model.py]
    imports as [utils], is not among the sources.  [mask] is the
    [(1 << w) - 1] of section 4.3, as in the generator's helper of the same
    name in [python.py]. *)
Definition mask (s : Z) : result Z :=
  let! p := lshift 1 s in Ok (p - 1).

(** Modelled from the spec: missing with [pycanandmessage/utils.py]; the
    value when present and the default otherwise, as its namesake in
    [canandmessage_parser/utils.py]. *)
Definition unwrap_or {A : Type} (v : option A) (d : A) : A :=
  match v with
  | None => d
  | Some x => x
  end.

(** Modelled from the spec: missing with [pycanandmessage/utils.py];
    section 3.1, implicit max of [UInt] = [2^width - 1]. *)
Definition default_uint_max (width : Z) : result Z :=
  let! p := lshift 1 width in Ok (p - 1).

(** Modelled from the spec: missing with [pycanandmessage/utils.py];
    section 3.1, implicit min of [SInt] = [-2^(width-1)]. *)
Definition default_sint_min (width : Z) : result Z :=
  let! p := lshift 1 (width - 1) in Ok (- p).

(** Modelled from the spec: missing with [pycanandmessage/utils.py];
    section 3.1, implicit max of [SInt] = [2^(width-1) - 1]. *)
Definition default_sint_max (width : Z) : result Z :=
  let! p := lshift 1 (width - 1) in Ok (p - 1).

End Utils.

(** ** [pycanandmessage/model.py] *)

Module Model.
Import Py Utils.

(** The signal metadata classes.  [Bitset] and [Enum] carry a [dtype]
    class object that neither [encode] nor [decode] reads; [Struct] carries
    the annotated fields of its dataclass, in declaration order.  The
    default of a [Buffer] is declared [int] and given as [bytes] by the
    generated schemas. *)
Inductive Meta : Type :=
| UInt (width : Z) (min max : option Z) (default_value : Z)
       (factor_num factor_den offset : Z)
| SInt (width : Z) (min max : option Z) (default_value : Z)
       (factor_num factor_den offset : Z)
| Float (width : Z) (min max : option float) (default_value : float)
        (allow_nan_inf : bool) (factor_num factor_den : Z) (offset : float)
| Buffer (width : Z) (default_value : Value)
| Boolean (default_value : bool)
| Bitset (width : Z) (default_value : Z)
| Enum (width : Z) (default_value : Z)
| Struct (dtype : list (string * Signal))
with Signal : Type :=
| mkSignal (offset : Z) (meta : Meta) (optional : bool).

Definition sig_offset (s : Signal) : Z :=
  match s with mkSignal o _ _ => o end.
Definition sig_meta (s : Signal) : Meta :=
  match s with mkSignal _ m _ => m end.
Definition sig_optional (s : Signal) : bool :=
  match s with mkSignal _ _ o => o end.

Record MessageMeta : Type := mkMessageMeta {
  device_type : Z;
  id : Z;
  min_length : Z;
  max_length : Z
}.

Record MessageWrapper : Type := mkMessageWrapper {
  data : Z;
  dlc : Z;
  arb_id : Z;
  timestamp : Z
}.

(** A message class: its [__meta__] and, in declaration order, the type
    hints that are [Annotated] with a [Signal] (the loops over
    [get_type_hints] skip every other hint). *)
Record MessageClass : Type := mkMessageClass {
  meta__ : MessageMeta;
  hints : list (string * Signal)
}.

(** [Signal.encode]. *)
Fixpoint encode (sig : Signal) (name : string) (value : Value) {struct sig} : result Z :=
  match sig with
  | mkSignal offset meta optional =>
    if optional && is_None value then Ok 0 else
    let! ivalue :=
      match meta with
      | UInt width min max _ _ _ _ =>
          let! value := int value in
          let min_bound := unwrap_or min 0 in
          let! dflt := default_uint_max width in
          let max_bound := unwrap_or max dflt in
          if negb ((min_bound <=? value) && (value <=? max_bound))
          then Raise OutOfRange
          else let! m := mask width in Ok (Z.land value m)
      | SInt width min max _ _ _ _ =>
          let! value := int value in
          let! dmin := default_sint_min width in
          let min_bound := unwrap_or min dmin in
          let! dmax := default_sint_max width in
          let max_bound := unwrap_or max dmax in
          if negb ((min_bound <=? value) && (value <=? max_bound))
          then Raise OutOfRange
          else let! m := mask width in Ok (Z.land value m)
      | Boolean _ => Ok (Z.b2z (truthy value))
      | Float width min max _ allow_nan_inf _ _ _ =>
          let! value := to_float value in
          if negb (allow_nan_inf || isfinite value) then Raise NonFinite else
          let! _ := match min with
                    | Some lo => if flt value lo then Raise OutOfRange else Ok tt
                    | None => Ok tt
                    end in
          let! _ := match max with
                    | Some _ =>
                        match min with
                        | Some lo => if fgt value lo then Raise OutOfRange else Ok tt
                        | None => Raise TypeError
                        end
                    | None => Ok tt
                    end in
          if width =? 24 then
            let! b := pack_f value in Ok (Z.shiftr (le_int b) 8)
          else if width =? 32 then
            let! b := pack_f value in Ok (le_int b)
          else if width =? 64 then
            let! b := pack_d value in Ok (le_int b)
          else Raise InvalidWidth
      | Buffer width _ =>
          let max_len := (width + 7) / 8 in
          let! n := len value in
          if max_len <? n then Raise BufferTooLong
          else int_from_bytes value
      | Bitset _ _ => as_int_operand value
      | Enum _ _ => as_int_operand value
      | Struct dtype =>
          (fix fields (ivalue : Z) (l : list (string * Signal)) {struct l} : result Z :=
             match l with
             | [] => Ok ivalue
             | (subsig_name, subsig) :: rest =>
                 let! subsig_value := getattr value subsig_name in
                 let! e := encode subsig (name +:+ "." +:+ subsig_name) subsig_value in
                 fields (Z.lor ivalue e) rest
             end) 0 dtype
      end in
    lshift ivalue offset
  end.

(** [Signal.decode]. *)
Fixpoint decode (sig : Signal) (data max_idx : Z) {struct sig} : result Value :=
  match sig with
  | mkSignal offset meta _ =>
    if max_idx <? offset then Ok VNone else
    let! data := rshift data offset in
    match meta with
    | UInt width _ _ _ _ _ _ =>
        let! m := mask width in Ok (VInt (Z.land data m))
    | SInt width _ _ _ _ _ _ =>
        let! m := mask width in
        let value := Z.land data m in
        let! half := lshift 1 (width - 1) in
        if half <=? value
        then let! full := lshift 1 width in Ok (VInt (value - full))
        else Ok (VInt value)
    | Boolean _ => Ok (VBool (negb (Z.land data 1 =? 0)))
    | Float width _ _ _ _ _ _ _ =>
        let! m := mask width in
        let data := Z.land data m in
        if width =? 24 then
          let data := Z.shiftl (Z.land data 0xffffff) 8 in
          let! b := to_bytes (Z.shiftl data 8) 4 in
          let! f := unpack_f b in Ok (VFloat f)
        else if width =? 32 then
          let! b := to_bytes data 4 in
          let! f := unpack_f b in Ok (VFloat f)
        else if width =? 64 then
          let! b := to_bytes data 8 in
          let! f := unpack_d b in Ok (VFloat f)
        else Raise InvalidWidth
    | Buffer width _ =>
        let! m := mask width in
        let data := Z.land data m in
        let! b := to_bytes data ((width + 7) / 8) in Ok (VBytes b)
    | Bitset width _ =>
        let! m := mask width in Ok (VInt (Z.land data m))
    | Enum width _ =>
        let! m := mask width in Ok (VInt (Z.land data m))
    | Struct dtype =>
        let max_idx := max_idx - offset in
        let! subsig_data :=
          (fix fields (l : list (string * Signal)) {struct l}
             : result (list (string * Value)) :=
             match l with
             | [] => Ok []
             | (subsig_name, subsig) :: rest =>
                 let! v := decode subsig data max_idx in
                 let! more := fields rest in
                 Ok ((subsig_name, v) :: more)
             end) dtype in
        Ok (VObj subsig_data)
    end
  end.

(** The loop of [BaseMessage.to_wrapper] over the annotated fields. *)
Fixpoint to_wrapper_fields (self : Value) (max_len : Z)
    (l : list (string * Signal)) (dlc data : Z) : result (Z * Z) :=
  match l with
  | [] => Ok (dlc, data)
  | (name, sig) :: rest =>
      let! value := getattr self name in
      if sig_optional sig && is_None value
      then to_wrapper_fields self max_len rest dlc data
      else
        let dlc := if sig_optional sig then max_len else dlc in
        let! e := encode sig name value in
        to_wrapper_fields self max_len rest dlc (Z.lor data e)
  end.

(** [BaseMessage.to_wrapper]. *)
Definition to_wrapper (cls : MessageClass) (self : Value) (dev_id : Z)
    (dev_type : option Z) : result MessageWrapper :=
  let device_type := unwrap_or dev_type (device_type (meta__ cls)) in
  let! r := to_wrapper_fields self (max_length (meta__ cls)) (hints cls)
              (min_length (meta__ cls)) 0 in
  Ok (mkMessageWrapper (snd r) (fst r)
        (Z.lor (Z.lor (Z.lor (Z.shiftl device_type 24) (Z.shiftl 0xe 16))
                      (Z.shiftl (id (meta__ cls)) 6)) dev_id)
        0).

(** How [to_wrapper] classifies a field of the record [self]: an optional
    signal holding a value, and an optional signal holding [None]. *)
Definition populated_optional (self : Value) (f : string * Signal) : bool :=
  match getattr self (fst f) with
  | Ok v => sig_optional (snd f) && negb (is_None v)
  | Raise _ => false
  end.

Definition null_optional (self : Value) (f : string * Signal) : bool :=
  match getattr self (fst f) with
  | Ok v => sig_optional (snd f) && is_None v
  | Raise _ => false
  end.

Fixpoint from_wrapper_fields (l : list (string * Signal)) (data max_idx : Z)
    : result (list (string * Value)) :=
  match l with
  | [] => Ok []
  | (subsig_name, subsig) :: rest =>
      let! v := decode subsig data max_idx in
      let! more := from_wrapper_fields rest data max_idx in
      Ok ((subsig_name, v) :: more)
  end.

(** [BaseMessage.from_wrapper]. *)
Definition from_wrapper (cls : MessageClass) (msg : MessageWrapper) : result Value :=
  let max_idx := dlc msg * 8 in
  let! subsig_data := from_wrapper_fields (hints cls) (data msg) max_idx in
  Ok (VObj subsig_data).

(** [BaseDevice.decode_msg_generic]; [VNone] is the [None] result. *)
Definition decode_msg_generic (dev_type : Z) (messages : list (Z * MessageClass))
    (msg : MessageWrapper) : result Value :=
  if negb (Z.land (arb_id msg) 0x1fff0000
           =? Z.lor (Z.shiftl dev_type 24) (Z.shiftl 0xe 16))
  then Ok VNone
  else
    let msg_id := Z.land (Z.shiftr (arb_id msg) 6) 0xff in
    match dict_get msg_id messages with
    | None => Ok VNone
    | Some cls => from_wrapper cls msg
    end.

End Model.

(** ** [pycanandmessage/device.py] *)

Module Device.

Definition REDUX_CAN_VENDOR_ID : Z := 0xE.

(** Mask for matching can id + everything that's not apiIndex. *)
Definition CAN_MESSAGE_MASK : Z := 0x1fff003f.

(** [CANDevice.addr]: the full 29-bit address with the given api index. *)
Definition addr (device_type dev_id api_index : Z) : Z :=
  Z.lor (Z.lor (Z.lor (Z.shiftl (Z.land device_type 0x1F) 24)
                      (Z.shiftl (Z.land REDUX_CAN_VENDOR_ID 0xFF) 16))
               (Z.shiftl (Z.land api_index 0xFF) 6))
        (Z.land dev_id 0x3F).

End Device.

(** ** [canandmessage_parser]: the spec loader *)

Module Parser.
Import Py Utils.

(** [serde.Anything]: an untyped TOML scalar. *)
Inductive Anything : Type :=
| TInt (z : Z)
| TFloat (f : float)
| TStr (s : string)
| TBool (b : bool).

(** *** [toml_defs.py]

    Field names are those of the source, prefixed by the class they
    belong to. *)

Record VendordepSpec : Type := mkVendordepSpec {
  vd_java_package : string;
  vd_cpp_namespace : string
}.

Record MessageSignalSpec : Type := mkMessageSignalSpec {
  sgnl_name : string;
  sgnl_comment : string;
  sgnl_dtype : string;
  sgnl_optional : bool;
  sgnl_default_value : option Anything;
  sgnl_mux : bool;
  sgnl_muxed_by : option string;
  sgnl_muxed_match : option Anything
}.

Record DeviceMessageSpec : Type := mkDeviceMessageSpec {
  dm_id : Z;
  dm_min_length : option Z;
  dm_max_length : option Z;
  dm_length : option Z;
  dm_frame_period_setting : option string;
  dm_source : string;
  dm_is_public : bool;
  dm_vendordep : bool;
  dm_comment : string;
  dm_signals : list MessageSignalSpec
}.

Record DeviceSettingSpec : Type := mkDeviceSettingSpec {
  stg_id : Z;
  stg_comment : string;
  stg_dtype : string;
  stg_default_value : option Anything;
  stg_is_public : bool;
  stg_vendordep : bool;
  stg_vdep_setting : bool;
  stg_readable : bool;
  stg_writable : bool;
  stg_reset_on_default : bool;
  stg_special_flags : list string
}.

Record BitsetFlagSpec : Type := mkBitsetFlagSpec {
  bf_name : string;
  bf_comment : string
}.

Record TypeSpec : Type := mkTypeSpec {
  ty_btype : string;
  ty_comment : string;
  ty_unit : string;
  ty_utype : string;
  ty_bits : Z;
  ty_min : option Anything;
  ty_max : option Anything;
  ty_allow_nan_inf : bool;
  ty_default_value : option Anything;
  ty_factor : list Z;
  ty_offset : option Anything;
  ty_signals : list MessageSignalSpec;
  ty_bit_flags : list BitsetFlagSpec
}.

Record SettingCommandSpec : Type := mkSettingCommandSpec {
  cmd_id : Z;
  cmd_vendordep : bool;
  cmd_comment : string
}.

Record EnumEntrySpec : Type := mkEnumEntrySpec {
  ees_id : Z;
  ees_comment : string
}.

Record EnumSpec : Type := mkEnumSpec {
  es_comment : string;
  es_btype : string;
  es_bits : Z;
  es_is_public : bool;
  es_default_value : string;
  es_values : list (string * EnumEntrySpec)
}.

Record DeviceSpec : Type := mkDeviceSpec {
  name : string;
  base : list string;
  arch : string;
  is_public : bool;
  dev_type : Z;
  dev_class : Z;
  msg : list (string * DeviceMessageSpec);
  settings : list (string * DeviceSettingSpec);
  types : list (string * TypeSpec);
  enums : list (string * EnumSpec);
  setting_commands : list (string * SettingCommandSpec);
  vendordep : option VendordepSpec
}.

(** *** The IR classes of [__init__.py] used by enum lowering *)

Record EnumEntry : Type := mkEnumEntry {
  ee_name : string;
  ee_comment : string;
  ee_index : Z
}.

Record EnumMeta : Type := mkEnumMeta {
  em_name : string;
  em_width : Z;
  em_default_value : string;
  em_default_value_idx : Z;
  em_is_public : bool;
  em_values : list (Z * EnumEntry)
}.

(** [str.lower] on ASCII letters. *)
Definition lower_ascii (c : ascii) : ascii :=
  let n := nat_of_ascii c in
  if (Nat.leb 65 n && Nat.leb n 90)%bool then ascii_of_nat (n + 32) else c.

Fixpoint lower (s : string) : string :=
  match s with
  | EmptyString => EmptyString
  | String c rest => String (lower_ascii c) (lower rest)
  end.

(** The loop [for base_dev_name in upper_dev.base: if base_dev_name not in
    base_spec.base: base_spec.base.append(base_dev_name)]. *)
Definition extend_base (base_spec_base upper_base : list string) : list string :=
  fold_left (fun acc n => if existsb (String.eqb n) acc then acc else acc ++ [n])
            upper_base base_spec_base.

(** One iteration of the [for base in dev_spec.base] loop: the freshly
    loaded [base_spec] after its in-place updates from [upper_dev]. *)
Definition merge_into_base (base_spec upper_dev : DeviceSpec) : DeviceSpec :=
  {| name := name upper_dev;
     base := extend_base (base base_spec) (base upper_dev);
     arch := arch upper_dev;
     is_public := is_public base_spec;
     dev_type := dev_type upper_dev;
     dev_class := dev_class upper_dev;
     msg := dict_update (msg base_spec) (msg upper_dev);
     settings := dict_update (settings base_spec) (settings upper_dev);
     types := dict_update (types base_spec) (types upper_dev);
     enums := dict_update (enums base_spec) (enums upper_dev);
     setting_commands :=
       dict_update (setting_commands base_spec) (setting_commands upper_dev);
     vendordep := vendordep upper_dev |}.

(** [fs file] is the outcome of opening [spec_path.parent / file] and
    deserialising it with [DeviceSpec.from_dict]. *)
Fixpoint resolve_bases (fs : string -> result DeviceSpec) (bases : list string)
    (upper_dev : DeviceSpec) : result DeviceSpec :=
  match bases with
  | [] => Ok upper_dev
  | b :: rest =>
      let! base_spec := fs (lower b +:+ ".toml") in
      resolve_bases fs rest (merge_into_base base_spec upper_dev)
  end.

(** The [EnumSpec.from_dict] literal built for the two implicit enums. *)
Definition implicit_enum (values : list (string * EnumEntrySpec)) : EnumSpec :=
  {| es_comment := EmptyString;
     es_btype := "uint";
     es_bits := 8;
     es_is_public := true;
     es_default_value := EmptyString;
     es_values := values |}.

Definition setting_values (dev : DeviceSpec) : list (string * EnumEntrySpec) :=
  map (fun kv => (fst kv, mkEnumEntrySpec (stg_id (snd kv)) (stg_comment (snd kv))))
      (settings dev).

Definition setting_command_values (dev : DeviceSpec) : list (string * EnumEntrySpec) :=
  map (fun kv => (fst kv, mkEnumEntrySpec (cmd_id (snd kv)) (cmd_comment (snd kv))))
      (setting_commands dev).

Definition with_enums (dev : DeviceSpec) (e : list (string * EnumSpec)) : DeviceSpec :=
  {| name := name dev; base := base dev; arch := arch dev;
     is_public := is_public dev; dev_type := dev_type dev;
     dev_class := dev_class dev; msg := msg dev; settings := settings dev;
     types := types dev; enums := e;
     setting_commands := setting_commands dev; vendordep := vendordep dev |}.

(** [parse_spec], from the deserialised root spec on. *)
Definition parse_spec (fs : string -> result DeviceSpec) (dev_spec : DeviceSpec)
    : result DeviceSpec :=
  let! dev := resolve_bases fs (base dev_spec) dev_spec in
  let e1 := dict_set "SETTING"%string (implicit_enum (setting_values dev)) (enums dev) in
  let e2 := dict_set "SETTING_COMMAND"%string
              (implicit_enum (setting_command_values dev)) e1 in
  Ok (with_enums dev e2).

(** [model_impl.impl_EnumMeta_from]. *)
Definition impl_EnumMeta_from (name : string) (entry : EnumSpec)
    (default_value : option string) : result EnumMeta :=
  let default_value :=
    match default_value with
    | Some (String c r) => String c r
    | _ => es_default_value entry
    end in
  let values :=
    fold_left (fun acc kv =>
                 dict_set (ees_id (snd kv))
                          (mkEnumEntry (fst kv) (ees_comment (snd kv)) (ees_id (snd kv)))
                          acc)
              (es_values entry) [] in
  match dict_get default_value (es_values entry) with
  | None =>
      if (String.eqb name "SETTING" || String.eqb name "SETTING_COMMAND")%bool
      then Ok (mkEnumMeta name (es_bits entry) EmptyString 0 (es_is_public entry) values)
      else Raise InvalidEnumDefault
  | Some ent =>
      Ok (mkEnumMeta name (es_bits entry) default_value (ees_id ent)
                     (es_is_public entry) values)
  end.

End Parser.

(** ** Schemas taken from the sources *)

Module Schemas.
Import Py Model.

(** [canandmag/message.py]: [SettingCommand]. *)
Definition SettingCommand : MessageClass :=
  mkMessageClass (mkMessageMeta 7 2 1 8)
    [ ("control_flag"%string, mkSignal 0 (Enum 8 0) false);
      ("setting_index"%string, mkSignal 8 (Enum 8 0) true) ].

(** [model.py]: [TestSettingFlags], [TestSetSetting] and [gen_test]. *)
Definition TestSettingFlags : list (string * Signal) :=
  [ ("ephemeral"%string, mkSignal 0 (Boolean false) false);
    ("synch_hold"%string, mkSignal 1 (Boolean false) false);
    ("synch_msg_count"%string, mkSignal 4 (UInt 4 None None 0 1 1 0) false) ].

Definition TestSetSetting : MessageClass :=
  mkMessageClass (mkMessageMeta 0x4 3 7 8)
    [ ("address"%string, mkSignal 0 (UInt 8 (Some 0) (Some 255) 0 1 1 0) false);
      ("data"%string, mkSignal 8 (Buffer 48 (VInt 0)) false);
      ("flags"%string, mkSignal 56 (Struct TestSettingFlags) true) ].

Definition gen_test : Value :=
  VObj [ ("address"%string, VInt 0xe);
         ("data"%string,
          VBytes [Byte.x01; Byte.x02; Byte.x03; Byte.x04; Byte.x05; Byte.x06]);
         ("flags"%string,
          VObj [ ("ephemeral"%string, VBool false);
                 ("synch_hold"%string, VBool true);
                 ("synch_msg_count"%string, VInt 3) ]) ].

(** Spec files after the shape of the devices in the package: a base
    device with the common settings, and a derived device that inherits
    them. *)
Definition setting_spec (id : Z) (comment : string) : Parser.DeviceSettingSpec :=
  Parser.mkDeviceSettingSpec id comment "uint:8" None true true true true true true [].

Definition cananddevice_spec : Parser.DeviceSpec :=
  Parser.mkDeviceSpec "CanandDevice" [] "common" true 0 0 []
    [ ("CAN_ID"%string, setting_spec 0x0 "CAN Device ID");
      ("NAME_0"%string, setting_spec 0x1 "device_name[0:5]");
      ("STATUS_FRAME_PERIOD"%string, setting_spec 0x4 "Status frame period (ms)") ]
    []
    [ ("SETTING"%string,
       Parser.mkEnumSpec "hand-written" "uint" 4 false "LEGACY"
         [ ("LEGACY"%string, Parser.mkEnumEntrySpec 9 "stale entry") ]) ]
    [ ("FETCH_SETTINGS"%string, Parser.mkSettingCommandSpec 0x0 true "Fetch all settings");
      ("RESET_FACTORY_DEFAULT"%string,
       Parser.mkSettingCommandSpec 0x1 true "Reset to factory default") ]
    None.

Definition canandmag_spec : Parser.DeviceSpec :=
  Parser.mkDeviceSpec "Canandmag" ["CanandDevice"%string] "stm32" true 7 0 []
    [ ("ZERO_OFFSET"%string, setting_spec 0xff "Encoder zero offset");
      ("STATUS_FRAME_PERIOD"%string, setting_spec 0x4 "Status frame period override") ]
    [] [] [] None.

Definition spec_files (file : string) : Py.result Parser.DeviceSpec :=
  if String.eqb file "cananddevice.toml" then Py.Ok cananddevice_spec
  else Py.Raise Py.LoadError.

(** A stand-alone spec one of whose settings is keyed by the empty string. *)
Definition empty_name_spec : Parser.DeviceSpec :=
  Parser.mkDeviceSpec "Odd" [] "stm32" true 9 0 []
    [ ("CAN_ID"%string, setting_spec 0x0 "CAN Device ID");
      (EmptyString, setting_spec 0x5 "unnamed") ]
    [] [] [] None.

End Schemas.


(** ** [model.py]: frames to and from the bus, settings *)

Module Wire.
Import Py Utils Model.

(** The attributes of a python-can [can.Message] that the code sets or
    reads.  Time stamps are only copied, never computed with, and are kept
    as integers. *)
Record CanMessage : Type := mkCanMessage {
  can_timestamp : Z;
  can_arbitration_id : Z;
  can_dlc : Z;
  can_data : list Byte.byte
}.

(** [MessageWrapper.as_bytes]. *)
Definition as_bytes (self : MessageWrapper) : result (list Byte.byte) :=
  let! b := to_bytes (data self) (dlc self) in
  Ok (firstn (Z.to_nat (dlc self)) b).

(** [MessageWrapper.from_can]. *)
Definition from_can (msg : CanMessage) : MessageWrapper :=
  mkMessageWrapper (le_int (can_data msg)) (can_dlc msg)
                   (can_arbitration_id msg) (can_timestamp msg).

(** [MessageWrapper.to_can]: no [dlc] is passed, and [can.Message] then
    takes the length of the data. *)
Definition to_can (self : MessageWrapper) : result CanMessage :=
  let! b := as_bytes self in
  Ok (mkCanMessage (if timestamp self =? 0 then 0 else timestamp self)
                   (arb_id self) (Z.of_nat (length b)) b).

(** The payload integer of [rio_hb]. *)
Definition rio_hb_data
    (match_time_seconds match_number replay_number : Z)
    (red_alliance enabled autonomous test_mode system_watchdog : bool)
    (tournament_type time_of_day_yr time_of_day_month time_of_day_day
     time_of_day_sec time_of_day_min time_of_day_hr : Z) : Z :=
  Z.lor (Z.lor (Z.lor (Z.lor (Z.lor (Z.lor (Z.lor (Z.lor (Z.lor (Z.lor
  (Z.lor (Z.lor (Z.lor (Z.lor
    (Z.land match_time_seconds 0xff)
    (Z.shiftl (Z.land match_number 0x3ff) 8))
    (Z.shiftl (Z.land replay_number 0x3f) 18))
    (Z.shiftl (Z.b2z red_alliance) 24))
    (Z.shiftl (Z.b2z enabled) 25))
    (Z.shiftl (Z.b2z autonomous) 26))
    (Z.shiftl (Z.b2z test_mode) 27))
    (Z.shiftl (Z.b2z system_watchdog) 28))
    (Z.shiftl (Z.land tournament_type 0x7) 29))
    (Z.shiftl (Z.land time_of_day_yr 0x3f) 32))
    (Z.shiftl (Z.land time_of_day_month 0xf) 38))
    (Z.shiftl (Z.land time_of_day_day 0x1f) 42))
    (Z.shiftl (Z.land time_of_day_sec 0x3f) 47))
    (Z.shiftl (Z.land time_of_day_min 0x3f) 53))
    (Z.shiftl (Z.land time_of_day_hr 0x1f) 59).

(** [rio_hb]. *)
Definition rio_hb
    (match_time_seconds match_number replay_number : Z)
    (red_alliance enabled autonomous test_mode system_watchdog : bool)
    (tournament_type time_of_day_yr time_of_day_month time_of_day_day
     time_of_day_sec time_of_day_min time_of_day_hr : Z) : result CanMessage :=
  let data :=
    rio_hb_data match_time_seconds match_number replay_number
                red_alliance enabled autonomous test_mode system_watchdog
                tournament_type time_of_day_yr time_of_day_month time_of_day_day
                time_of_day_sec time_of_day_min time_of_day_hr in
  let! b := to_bytes data 8 in
  Ok (mkCanMessage 0 0x01011840 8 b).

(** The loop of [BaseSetting.encode]: every annotated field is encoded. *)
Fixpoint setting_encode_fields (self : Value) (l : list (string * Signal))
    (data : Z) : result Z :=
  match l with
  | [] => Ok data
  | (name, sig) :: rest =>
      let! value := getattr self name in
      let! e := encode sig name value in
      setting_encode_fields self rest (Z.lor data e)
  end.

(** [BaseSetting.encode], for a setting class with the annotated fields
    [hints]. *)
Definition setting_encode (hints : list (string * Signal)) (self : Value)
    : result (list Byte.byte) :=
  let! data := setting_encode_fields self hints 0 in
  to_bytes data 6.

(** [BaseSetting.decode]; its loop is the loop of [from_wrapper] with the
    limit 48. *)
Definition setting_decode (hints : list (string * Signal)) (data : list Byte.byte)
    : result Value :=
  let data := le_int (firstn 6 data) in
  let! sig_data := from_wrapper_fields hints data 48 in
  Ok (VObj sig_data).

End Wire.

(** ** [device.py]: the bus-free helpers of [CANDevice] *)

Module Bus.
Import Py Utils Model Wire.

(** A generated device class: the class attributes of a [BaseDevice]. *)
Record BaseDevice : Type := mkBaseDevice {
  bd_device_type : Z;
  bd_name : string;
  bd_messages : list (Z * MessageClass)
}.

(** The inner loop of [CANDevice.parse_msgs]: the first class that decodes
    the frame to something other than [None]. *)
Fixpoint first_decoded (devclasses : list BaseDevice) (msg : CanMessage)
    : result Value :=
  match devclasses with
  | [] => Ok VNone
  | cls :: rest =>
      let! decoded :=
        decode_msg_generic (bd_device_type cls) (bd_messages cls) (from_can msg) in
      if negb (is_None decoded) then Ok decoded
      else first_decoded rest msg
  end.

(** [CANDevice.parse_msgs]. *)
Fixpoint parse_msgs (devclasses : list BaseDevice) (msgs : list CanMessage)
    : result (list (CanMessage * Value)) :=
  match msgs with
  | [] => Ok []
  | msg :: rest =>
      let! result := first_decoded devclasses msg in
      let! parsed := parse_msgs devclasses rest in
      Ok ((msg, result) :: parsed)
  end.

(** The loop of [CANDevice.count_matching]. *)
Fixpoint count_matching_from (msgs : list CanMessage) (msg_type : MessageClass)
    (cnt : Z) : result Z :=
  match msgs with
  | [] => Ok cnt
  | msg :: rest =>
      let! decoded := from_wrapper msg_type (from_can msg) in
      count_matching_from rest msg_type (cnt + Z.b2z (negb (is_None decoded)))
  end.

(** [CANDevice.count_matching]. *)
Definition count_matching (msgs : list CanMessage) (msg_type : MessageClass)
    : result Z :=
  count_matching_from msgs msg_type 0.

End Bus.

(** ** Vocabulary for layout statements *)

Module Layout.
Import Py Utils Model.

(** The width of a scalar field; floats and structs are not scalar here. *)
Definition field_width (m : Meta) : option Z :=
  match m with
  | UInt w _ _ _ _ _ _ => Some w
  | SInt w _ _ _ _ _ _ => Some w
  | Boolean _ => Some 1
  | Buffer w _ => Some w
  | Bitset w _ => Some w
  | Enum w _ => Some w
  | Float _ _ _ _ _ _ _ _ => None
  | Struct _ => None
  end.

(** A value the field can hold without loss: an integer inside bounds
    that fit the width, a [bool], an index below [2^w], a byte string of
    exactly [w / 8] bytes. *)
Definition fits (m : Meta) (v : Value) : bool :=
  match m, v with
  | UInt w mn mx _ _ _ _, VInt z =>
      (0 <=? w) && (0 <=? unwrap_or mn 0) && (unwrap_or mx (2 ^ w - 1) <=? 2 ^ w - 1)
      && (unwrap_or mn 0 <=? z) && (z <=? unwrap_or mx (2 ^ w - 1))
  | SInt w mn mx _ _ _ _, VInt z =>
      (1 <=? w) && (- 2 ^ (w - 1) <=? unwrap_or mn (- 2 ^ (w - 1)))
      && (unwrap_or mx (2 ^ (w - 1) - 1) <=? 2 ^ (w - 1) - 1)
      && (unwrap_or mn (- 2 ^ (w - 1)) <=? z) && (z <=? unwrap_or mx (2 ^ (w - 1) - 1))
  | Boolean _, VBool _ => true
  | Buffer w _, VBytes b => 8 * Z.of_nat (length b) =? w
  | Bitset w _, VInt z => (0 <=? z) && (z <? 2 ^ w)
  | Enum w _, VInt z => (0 <=? z) && (z <? 2 ^ w)
  | _, _ => false
  end.

(** The bits a fitting value occupies, before the shift to the offset. *)
Definition raw (m : Meta) (v : Value) : Z :=
  match m, v with
  | SInt w _ _ _ _ _ _, VInt z => z mod 2 ^ w
  | _, VInt z => z
  | _, VBool b => Z.b2z b
  | _, VBytes b => le_int b
  | _, _ => 0
  end.

(** Fields laid out in increasing, non-overlapping bit windows starting
    at or after [base], as the generator places them. *)
Fixpoint monotone (base : Z) (l : list (string * Signal)) : bool :=
  match l with
  | [] => true
  | (_, mkSignal o m _) :: rest =>
      match field_width m with
      | Some w => (base <=? o) && (0 <=? w) && monotone (o + w) rest
      | None => false
      end
  end.

(** The first bit after the last window. *)
Fixpoint layout_end (base : Z) (l : list (string * Signal)) : Z :=
  match l with
  | [] => base
  | (_, mkSignal o m _) :: rest =>
      match field_width m with
      | Some w => layout_end (o + w) rest
      | None => base
      end
  end.

(** The payload of a list of fields holding the values [vs]. *)
Fixpoint packed (l : list (string * Signal)) (vs : list Value) : Z :=
  match l, vs with
  | (_, mkSignal o m _) :: rest, v :: vr => raw m v * 2 ^ o + packed rest vr
  | _, _ => 0
  end.

End Layout.

(** ** [canandmessage_parser]: bitset defaults *)

Module IR.
Import Py Utils.

Record BitsetFlag : Type := mkBitsetFlag {
  bit_idx : Z;
  flag_default_value : bool;
  flag_name : string;
  flag_comment : string
}.

Record BitsetMeta : Type := mkBitsetMeta {
  bs_name : string;
  bs_width : Z;
  bs_flags : list BitsetFlag
}.

(** The loop of [BitsetMeta.default_u64]. *)
Fixpoint default_u64_from (flags : list BitsetFlag) (v : Z) : result Z :=
  match flags with
  | [] => Ok v
  | ent :: rest =>
      let! b := lshift (Z.b2z (flag_default_value ent)) (bit_idx ent) in
      default_u64_from rest (Z.lor v b)
  end.

(** [BitsetMeta.default_u64]. *)
Definition default_u64 (self : BitsetMeta) : result Z :=
  default_u64_from (bs_flags self) 0.

End IR.

(** ** More schemas taken from the sources *)

Module Schemas2.
Import Py Model.

(** [canandmag/message.py]: [PositionOutput] and [Status]. *)
Definition PositionOutput : MessageClass :=
  mkMessageClass (mkMessageMeta 7 31 6 6)
    [ ("relative_position"%string,
       mkSignal 0 (SInt 32 (Some (-2147483648)) (Some 2147483647) 0 1 16384 0) false);
      ("magnet_status"%string,
       mkSignal 32 (UInt 2 (Some 0) (Some 3) 0 1 1 0) false);
      ("absolute_position"%string,
       mkSignal 34 (UInt 14 (Some 0) (Some 16383) 0 1 16384 0) false) ].

Definition Status : MessageClass :=
  mkMessageClass (mkMessageMeta 7 6 8 8)
    [ ("faults"%string, mkSignal 0 (Bitset 8 0) false);
      ("sticky_faults"%string, mkSignal 8 (Bitset 8 0) false);
      ("temperature"%string,
       mkSignal 16 (SInt 8 (Some (-128)) (Some 127) 0 1 1 0) false) ].

(** [canandmag/setting.py]: the fields of [CanId] and [Name0]. *)
Definition CanId : list (string * Signal) :=
  [ ("value"%string, mkSignal 0 (UInt 8 (Some 0) (Some 63) 0 1 1 0) false) ].

Definition Name0 : list (string * Signal) :=
  [ ("value"%string,
     mkSignal 0 (Buffer 48 (VBytes [Byte.x43; Byte.x61; Byte.x6e; Byte.x61;
                                    Byte.x6e; Byte.x64])) false) ].

(** [canandmag/types.py]: [SettingFlags]. *)
Definition SettingFlags : list (string * Signal) :=
  [ ("ephemeral"%string, mkSignal 0 (Boolean false) false);
    ("synch_hold"%string, mkSignal 1 (Boolean false) false);
    ("synch_msg_count"%string, mkSignal 4 (UInt 4 (Some 0) (Some 15) 0 1 1 0) false) ].

(** [canandmag/__init__.py]: part of the [Canandmag] device class. *)
Definition Canandmag : Bus.BaseDevice :=
  Bus.mkBaseDevice 7 "Canandmag"
    [ (2, Schemas.SettingCommand); (6, Status); (31, PositionOutput) ].

End Schemas2.


(** ** Vocabulary for statements about inheritance *)

Module Inheritance.
Import Py Utils Parser.

(** The file [parse_spec] opens for the base named [b]. *)
Definition base_file (b : string) : string := lower b +:+ ".toml".

(** The tables of a deserialised spec are dicts: no key occurs twice. *)
Definition keys_unique (s : DeviceSpec) : Prop :=
  List.NoDup (map fst (msg s)) /\ List.NoDup (map fst (settings s))
  /\ List.NoDup (map fst (types s)) /\ List.NoDup (map fst (setting_commands s)).

(** The entry of [k] in the first spec of [specs] whose table has one. *)
Fixpoint first_defined {V : Type} (table : DeviceSpec -> list (string * V))
    (k : string) (specs : list DeviceSpec) : option V :=
  match specs with
  | [] => None
  | s :: rest =>
      match dict_get k (table s) with
      | Some v => Some v
      | None => first_defined table k rest
      end
  end.

(** The last value of an enum spec whose id is [i]. *)
Definition last_with_id (i : Z) (values : list (string * EnumEntrySpec))
    : option (string * EnumEntrySpec) :=
  List.find (fun kv => ees_id (snd kv) =? i) (rev values).

(** A second base file, next to those of [Schemas.spec_files]. *)
Definition legacy_spec : DeviceSpec :=
  mkDeviceSpec "Legacy" ["Ancient"%string] "avr" false 1 2 []
    [ ("CAN_ID"%string, Schemas.setting_spec 0x10 "legacy id");
      ("LEGACY_MODE"%string, Schemas.setting_spec 0x20 "legacy mode") ]
    [] [] [] None.

Definition two_base_spec : DeviceSpec :=
  mkDeviceSpec "Canandmag" ["CanandDevice"%string; "Legacy"%string] "stm32" true 7 0 []
    [ ("ZERO_OFFSET"%string, Schemas.setting_spec 0xff "Encoder zero offset");
      ("STATUS_FRAME_PERIOD"%string,
       Schemas.setting_spec 0x4 "Status frame period override") ]
    [] [] [] None.

Definition two_base_files (file : string) : result DeviceSpec :=
  if String.eqb file "cananddevice.toml" then Ok Schemas.cananddevice_spec
  else if String.eqb file "legacy.toml" then Ok legacy_spec
  else Raise LoadError.

End Inheritance.
(* ===================================================================== *)
(** * Part II -- properties *)
(* ===================================================================== *)

(** ** Bit-level facts *)

Module BitFacts.
Import Py Utils.

(** Closed arithmetic side conditions of concrete instances. *)
Ltac closed_arith :=
  first [ lia | vm_compute; first [ reflexivity | discriminate | lia ] ].

(** Linear arithmetic with division and remainder by constants. *)
Ltac divmod_lia := Z.div_mod_to_equations; lia.

Lemma pow2_pos (w : Z) : 0 <= w -> 0 < 2 ^ w.
Proof. intros. apply Z.pow_pos_nonneg; lia. Qed.

Lemma pow2_double (w : Z) : 1 <= w -> 2 ^ w = 2 * 2 ^ (w - 1).
Proof.
  intros. replace w with (Z.succ (w - 1)) at 1 by lia.
  apply Z.pow_succ_r. lia.
Qed.

Lemma lshift_ok (a n : Z) : 0 <= n -> lshift a n = Ok (Z.shiftl a n).
Proof.
  intros. unfold lshift. destruct (Z.ltb_spec n 0); [lia | reflexivity].
Qed.

Lemma rshift_ok (a n : Z) : 0 <= n -> rshift a n = Ok (Z.shiftr a n).
Proof.
  intros. unfold rshift. destruct (Z.ltb_spec n 0); [lia | reflexivity].
Qed.

Lemma lshift_one (w : Z) : 0 <= w -> lshift 1 w = Ok (2 ^ w).
Proof. intros. rewrite lshift_ok by lia. now rewrite Z.shiftl_1_l. Qed.

Lemma mask_ok (w : Z) : 0 <= w -> mask w = Ok (2 ^ w - 1).
Proof. intros. unfold mask. now rewrite lshift_one. Qed.

Lemma default_uint_max_ok (w : Z) : 0 <= w -> default_uint_max w = Ok (2 ^ w - 1).
Proof. intros. unfold default_uint_max. now rewrite lshift_one. Qed.

Lemma default_sint_min_ok (w : Z) :
  1 <= w -> default_sint_min w = Ok (- 2 ^ (w - 1)).
Proof. intros. unfold default_sint_min. now rewrite lshift_one by lia. Qed.

Lemma default_sint_max_ok (w : Z) :
  1 <= w -> default_sint_max w = Ok (2 ^ (w - 1) - 1).
Proof. intros. unfold default_sint_max. now rewrite lshift_one by lia. Qed.

Lemma land_mask_mod (x w : Z) : 0 <= w -> Z.land x (2 ^ w - 1) = x mod 2 ^ w.
Proof.
  intros. rewrite <- Z.land_ones by lia.
  now rewrite Z.ones_equiv, <- Z.sub_1_r.
Qed.

Lemma shiftr_shiftl_same (x o : Z) : 0 <= o -> Z.shiftr (Z.shiftl x o) o = x.
Proof.
  intros. rewrite Z.shiftr_shiftl_l by lia.
  now rewrite Z.sub_diag, Z.shiftl_0_r.
Qed.

(** A non-negative integer below [2 ^ w] has no bit at or above [w]. *)
Lemma testbit_above (v w i : Z) : 0 <= v < 2 ^ w -> w <= i -> Z.testbit v i = false.
Proof.
  intros [Hlo Hhi] Hi.
  destruct (Z.eq_dec v 0) as [-> | Hne]; [apply Z.bits_0 |].
  apply Z.bits_above_log2; [lia |].
  assert (0 <= w) by (destruct (Z.le_gt_cases 0 w); [lia | rewrite Z.pow_neg_r in Hhi; lia]).
  assert (Z.log2 v < w) by (apply Z.log2_lt_pow2; lia).
  lia.
Qed.

(** A field shifted to bit [k] shares no bit with a value below [2 ^ k]. *)
Lemma land_shiftl_low (hi lo k : Z) :
  0 <= k -> 0 <= lo < 2 ^ k -> Z.land (Z.shiftl hi k) lo = 0.
Proof.
  intros Hk Hlo. apply Z.bits_inj'. intros n Hn.
  rewrite Z.land_spec, Z.bits_0.
  destruct (Z.lt_ge_cases n k).
  - now rewrite Z.shiftl_spec_low.
  - rewrite (testbit_above lo k n) by assumption. apply andb_false_r.
Qed.

(** ... so OR-ing them is adding them. *)
Lemma lor_shiftl_add (hi lo k : Z) :
  0 <= k -> 0 <= lo < 2 ^ k -> Z.lor (Z.shiftl hi k) lo = hi * 2 ^ k + lo.
Proof.
  intros Hk Hlo. pose proof (land_shiftl_low hi lo k Hk Hlo) as Hd.
  rewrite <- Z.lxor_lor by assumption.
  rewrite <- Z.add_nocarry_lxor by assumption.
  now rewrite Z.shiftl_mul_pow2.
Qed.

(** Masking with a shifted mask is masking the shifted-down value. *)
Lemma land_shiftl_mask (a m k : Z) :
  0 <= k -> Z.land a (Z.shiftl m k) = Z.shiftl (Z.land (Z.shiftr a k) m) k.
Proof.
  intros Hk. apply Z.bits_inj'. intros n Hn.
  rewrite Z.land_spec.
  destruct (Z.lt_ge_cases n k).
  - rewrite !Z.shiftl_spec_low by assumption. apply andb_false_r.
  - rewrite !Z.shiftl_spec by assumption.
    rewrite Z.land_spec, Z.shiftr_spec by lia.
    now replace (n - k + k) with n by lia.
Qed.

End BitFacts.

(** ** Integer signals: bounds enforcement and sign extension *)

Module IntSignals.
Import Py Utils Model BitFacts.

(** [encode] on an unsigned field, in closed form. *)
Lemma encode_UInt (w : Z) (mn mx : option Z) (d fn fd off o : Z) (opt : bool)
    (name : string) (v : Z) :
  0 <= w -> 0 <= o ->
  encode (mkSignal o (UInt w mn mx d fn fd off) opt) name (VInt v)
  = if (unwrap_or mn 0 <=? v) && (v <=? unwrap_or mx (2 ^ w - 1))
    then Ok (Z.shiftl (Z.land v (2 ^ w - 1)) o)
    else Raise OutOfRange.
Proof.
  intros Hw Ho. cbn. rewrite andb_false_r. cbn.
  rewrite (default_uint_max_ok w Hw). cbn.
  destruct ((unwrap_or mn 0 <=? v) && (v <=? unwrap_or mx (2 ^ w - 1))); cbn.
  - rewrite (mask_ok w Hw). cbn. now rewrite lshift_ok.
  - reflexivity.
Qed.

(** [encode] on a signed field, in closed form. *)
Lemma encode_SInt (w : Z) (mn mx : option Z) (d fn fd off o : Z) (opt : bool)
    (name : string) (v : Z) :
  1 <= w -> 0 <= o ->
  encode (mkSignal o (SInt w mn mx d fn fd off) opt) name (VInt v)
  = if (unwrap_or mn (- 2 ^ (w - 1)) <=? v) && (v <=? unwrap_or mx (2 ^ (w - 1) - 1))
    then Ok (Z.shiftl (Z.land v (2 ^ w - 1)) o)
    else Raise OutOfRange.
Proof.
  intros Hw Ho. cbn. rewrite andb_false_r. cbn.
  rewrite (default_sint_min_ok w Hw). cbn.
  rewrite (default_sint_max_ok w Hw). cbn.
  destruct ((unwrap_or mn (- 2 ^ (w - 1)) <=? v)
            && (v <=? unwrap_or mx (2 ^ (w - 1) - 1))); cbn.
  - rewrite mask_ok by lia. cbn. now rewrite lshift_ok.
  - reflexivity.
Qed.

Lemma in_range_spec (lo hi v : Z) :
  ((lo <=? v) && (v <=? hi) = true) <-> lo <= v <= hi.
Proof. rewrite andb_true_iff, !Z.leb_le. tauto. Qed.

(** [decode] on a signed field, in closed form. *)
Lemma decode_SInt (w : Z) (mn mx : option Z) (d fn fd off o : Z) (opt : bool)
    (data max_idx : Z) :
  1 <= w -> 0 <= o -> o <= max_idx ->
  decode (mkSignal o (SInt w mn mx d fn fd off) opt) data max_idx
  = let value := Z.land (Z.shiftr data o) (2 ^ w - 1) in
    Ok (VInt (if 2 ^ (w - 1) <=? value then value - 2 ^ w else value)).
Proof.
  intros Hw Ho Hm. cbn.
  destruct (Z.ltb_spec max_idx o); [lia |].
  rewrite rshift_ok by lia. cbn.
  rewrite mask_ok by lia. cbn.
  rewrite lshift_one by lia. cbn.
  destruct (2 ^ (w - 1) <=? Z.land (Z.shiftr data o) (2 ^ w - 1)); cbn.
  - now rewrite lshift_one by lia.
  - reflexivity.
Qed.

(** Two's-complement truncation followed by sign extension is the identity
    on the range a [w]-bit signed field can hold. *)
Lemma sign_extend_mod (w v : Z) :
  1 <= w -> - 2 ^ (w - 1) <= v <= 2 ^ (w - 1) - 1 ->
  (if 2 ^ (w - 1) <=? v mod 2 ^ w then v mod 2 ^ w - 2 ^ w else v mod 2 ^ w) = v.
Proof.
  intros Hw Hv.
  pose proof (pow2_double w Hw) as Hd.
  pose proof (pow2_pos (w - 1) ltac:(lia)) as Hp.
  destruct (Z.le_gt_cases 0 v) as [Hnn | Hneg].
  - rewrite Z.mod_small by lia.
    destruct (Z.leb_spec (2 ^ (w - 1)) v); lia.
  - replace (v mod 2 ^ w) with (v + 2 ^ w).
    + destruct (Z.leb_spec (2 ^ (w - 1)) (v + 2 ^ w)); lia.
    + apply Z.mod_unique with (q := -1); lia.
Qed.

(** Within bounds that fit the width, masking an unsigned value loses
    nothing. *)
Lemma uint_fit_no_truncation (w v : Z) :
  0 <= w -> 0 <= v <= 2 ^ w - 1 -> Z.land v (2 ^ w - 1) = v.
Proof. intros. rewrite land_mask_mod by lia. apply Z.mod_small. lia. Qed.

(** [decode] on an unsigned field, in closed form. *)
Lemma decode_UInt (w : Z) (mn mx : option Z) (d fn fd off o : Z) (opt : bool)
    (data max_idx : Z) :
  0 <= w -> 0 <= o -> o <= max_idx ->
  decode (mkSignal o (UInt w mn mx d fn fd off) opt) data max_idx
  = Ok (VInt (Z.land (Z.shiftr data o) (2 ^ w - 1))).
Proof.
  intros Hw Ho Hm. cbn.
  destruct (Z.ltb_spec max_idx o); [lia |].
  rewrite rshift_ok by lia. cbn.
  now rewrite mask_ok by lia.
Qed.

(** C4, as stated, fails: "never silently truncated" does not hold.  An
    8-bit unsigned field declared with the bounds [0, 1000] accepts the
    in-range value 300 without error and emits 44, the very payload it
    emits for 44; decoding gives 44. *)
Lemma C4_counterexample :
  0 <= 300 <= 1000
  /\ encode (mkSignal 0 (UInt 8 (Some 0) (Some 1000) 0 1 1 0) false) "x" (VInt 300)
     = Ok 44
  /\ encode (mkSignal 0 (UInt 8 (Some 0) (Some 1000) 0 1 1 0) false) "x" (VInt 44)
     = Ok 44
  /\ decode (mkSignal 0 (UInt 8 (Some 0) (Some 1000) 0 1 1 0) false) 44 64
     = Ok (VInt 44)
  /\ Z.land 300 (2 ^ 8 - 1) <> 300.
Proof.
  split; [lia |].
  split; [reflexivity |]. split; [reflexivity |]. split; [reflexivity |].
  discriminate.
Qed.

(** C4 (amended): for a [UInt] signal of width [w >= 0] or an [SInt]
    signal of width [w >= 1], at an offset that is not negative and with
    explicit bounds [mn] and [mx], [encode] of an integer [v] raises the
    out-of-bounds [ValueError] exactly when [v] lies outside [mn, mx];
    every in-range value is emitted as [v & (2^w - 1)] shifted to the
    signal's offset.  Nothing is lost of an in-range value when the
    declared bounds lie within what the width can hold ([0, 2^w - 1] for
    [UInt], [-2^(w-1), 2^(w-1) - 1] for [SInt]): [decode] of the emitted
    payload, with the signal inside the frame limit, then returns [v]. *)
Theorem C4_int_bounds_enforced
    (signed : bool) (w mn mx d fn fd off o : Z) (opt : bool) (name : string)
    (v max_idx : Z) :
  (if signed then 1 <= w else 0 <= w) -> 0 <= o ->
  (encode (mkSignal o (if signed then SInt w (Some mn) (Some mx) d fn fd off
                       else UInt w (Some mn) (Some mx) d fn fd off) opt)
          name (VInt v) = Raise OutOfRange
   <-> ~ (mn <= v <= mx))
  /\ (mn <= v <= mx ->
      encode (mkSignal o (if signed then SInt w (Some mn) (Some mx) d fn fd off
                          else UInt w (Some mn) (Some mx) d fn fd off) opt)
             name (VInt v)
      = Ok (Z.shiftl (Z.land v (2 ^ w - 1)) o))
  /\ (mn <= v <= mx ->
      (if signed then - 2 ^ (w - 1) <= mn /\ mx <= 2 ^ (w - 1) - 1
       else 0 <= mn /\ mx <= 2 ^ w - 1) ->
      o <= max_idx ->
      exists p,
        encode (mkSignal o (if signed then SInt w (Some mn) (Some mx) d fn fd off
                            else UInt w (Some mn) (Some mx) d fn fd off) opt)
               name (VInt v) = Ok p
        /\ decode (mkSignal o (if signed then SInt w (Some mn) (Some mx) d fn fd off
                               else UInt w (Some mn) (Some mx) d fn fd off) opt)
                  p max_idx = Ok (VInt v)).
Proof.
  intros Hw Ho.
  assert (E : encode (mkSignal o (if signed then SInt w (Some mn) (Some mx) d fn fd off
                                  else UInt w (Some mn) (Some mx) d fn fd off) opt)
                     name (VInt v)
              = if (mn <=? v) && (v <=? mx)
                then Ok (Z.shiftl (Z.land v (2 ^ w - 1)) o)
                else Raise OutOfRange).
  { destruct signed; [rewrite encode_SInt | rewrite encode_UInt]; auto. }
  rewrite E. pose proof (in_range_spec mn mx v) as R.
  split; [| split].
  - destruct ((mn <=? v) && (v <=? mx)).
    + split; [discriminate | intros H; exfalso; apply H, R; reflexivity].
    + split; [intros _ H; apply R in H; discriminate | reflexivity].
  - intros H. apply R in H. now rewrite H.
  - intros Hv Hfit Hm. exists (Z.shiftl (Z.land v (2 ^ w - 1)) o).
    split; [apply R in Hv; now rewrite Hv |].
    destruct signed.
    + rewrite decode_SInt by assumption. cbv zeta.
      rewrite shiftr_shiftl_same by assumption.
      rewrite !land_mask_mod by lia.
      rewrite Z.mod_mod by (pose proof (pow2_pos w); lia).
      now rewrite sign_extend_mod by lia.
    + rewrite decode_UInt by assumption.
      rewrite shiftr_shiftl_same by assumption.
      rewrite (uint_fit_no_truncation w v) by lia.
      now rewrite (uint_fit_no_truncation w v) by lia.
Qed.

(** A 16-bit signed field of [canandmag]: [-5] is in range, is emitted in
    two's complement and decodes to [-5]. *)
Lemma C4_int_bounds_enforced_witness :
  exists p,
    encode (mkSignal 16 (SInt 16 (Some (-32767)) (Some 32767) 0 1 1 0) false)
           "temperature" (VInt (-5)) = Ok p
    /\ decode (mkSignal 16 (SInt 16 (Some (-32767)) (Some 32767) 0 1 1 0) false)
              p 64 = Ok (VInt (-5)).
Proof.
  refine (proj2 (proj2 (C4_int_bounds_enforced true 16 (-32767) 32767 0 1 1 0 16 false
                          "temperature" (-5) 64 _ _)) _ _ _);
    cbn; lia.
Defined.

(** C8, as stated, fails: an 8-bit signed field declared with the range
    [-1000, 1000] accepts 200, which comes back as -56. *)
Lemma C8_counterexample :
  -1000 <= 200 <= 1000
  /\ (let! p := encode (mkSignal 0 (SInt 8 (Some (-1000)) (Some 1000) 0 1 1 0) false)
                       "x" (VInt 200) in
      decode (mkSignal 0 (SInt 8 (Some (-1000)) (Some 1000) 0 1 1 0) false) p 64)
     = Ok (VInt (-56))
  /\ (let! p := encode (mkSignal 0 (SInt 8 (Some (-1000)) (Some 1000) 0 1 1 0) false)
                       "x" (VInt 200) in
      decode (mkSignal 0 (SInt 8 (Some (-1000)) (Some 1000) 0 1 1 0) false) p 64)
     <> Ok (VInt 200).
Proof. split; [lia | split; [reflexivity | discriminate]]. Qed.

(** C8 (amended): for an [SInt] signal of width [w >= 1] whose effective
    range (declared, or the implicit default) lies within the two's
    complement range of [w] bits, every [v] in that range is accepted by
    [encode], and [decode] of the emitted payload (with the signal inside
    the frame, [offset <= max_idx]) returns exactly [v]. *)
Theorem C8_sint_roundtrip
    (w : Z) (mn mx : option Z) (d fn fd off o : Z) (opt : bool) (name : string)
    (v max_idx : Z) :
  1 <= w -> 0 <= o -> o <= max_idx ->
  - 2 ^ (w - 1) <= unwrap_or mn (- 2 ^ (w - 1)) ->
  unwrap_or mx (2 ^ (w - 1) - 1) <= 2 ^ (w - 1) - 1 ->
  unwrap_or mn (- 2 ^ (w - 1)) <= v <= unwrap_or mx (2 ^ (w - 1) - 1) ->
  exists p,
    encode (mkSignal o (SInt w mn mx d fn fd off) opt) name (VInt v) = Ok p
    /\ decode (mkSignal o (SInt w mn mx d fn fd off) opt) p max_idx = Ok (VInt v).
Proof.
  intros Hw Ho Hm Hlo Hhi Hv.
  exists (Z.shiftl (Z.land v (2 ^ w - 1)) o). split.
  - rewrite encode_SInt by assumption.
    now rewrite (proj2 (in_range_spec _ _ v) Hv).
  - rewrite decode_SInt by assumption. cbv zeta.
    rewrite shiftr_shiftl_same by assumption.
    rewrite !land_mask_mod by lia.
    rewrite Z.mod_mod by (pose proof (pow2_pos w); lia).
    now rewrite sign_extend_mod by lia.
Qed.

(** The [relative_position] field of [PositionOutput] (scenario S2):
    [-1] round-trips. *)
Lemma C8_sint_roundtrip_witness :
  exists p,
    encode (mkSignal 0 (SInt 32 (Some (-2147483648)) (Some 2147483647) 0 1 1 0) false)
           "relative_position" (VInt (-1)) = Ok p
    /\ decode (mkSignal 0 (SInt 32 (Some (-2147483648)) (Some 2147483647) 0 1 1 0) false)
              p 48 = Ok (VInt (-1)).
Proof.
  apply (C8_sint_roundtrip 32 (Some (-2147483648)) (Some 2147483647) 0 1 1 0 0 false
           "relative_position" (-1) 48); cbn; lia.
Defined.

End IntSignals.

(** ** Byte buffers *)

Module BufSignals.
Import Py Utils Model BitFacts.

Lemma Z_of_byte_range (b : Byte.byte) : 0 <= Z_of_byte b < 256.
Proof.
  unfold Z_of_byte. pose proof (Byte.to_N_bounded b). lia.
Qed.

Lemma byte_of_Z_cons (b : Byte.byte) (r : Z) : byte_of_Z (Z_of_byte b + 256 * r) = b.
Proof.
  unfold byte_of_Z.
  replace ((Z_of_byte b + 256 * r) mod 256) with (Z_of_byte b).
  - unfold Z_of_byte. now rewrite N2Z.id, Byte.of_to_N.
  - pose proof (Z_of_byte_range b).
    apply Z.mod_unique with (q := r); lia.
Qed.

Lemma div_cons (b : Byte.byte) (r : Z) : (Z_of_byte b + 256 * r) / 256 = r.
Proof.
  pose proof (Z_of_byte_range b). symmetry.
  apply Z.div_unique with (r := Z_of_byte b); lia.
Qed.

Lemma le_bytes_zero (n : nat) : le_bytes n 0 = repeat Byte.x00 n.
Proof.
  induction n as [| n IH]; [reflexivity |].
  cbn [le_bytes repeat]. change (0 / 256) with 0. rewrite IH.
  f_equal.
Qed.

Lemma length_le_bytes (n : nat) (z : Z) : length (le_bytes n z) = n.
Proof. revert z. induction n as [| n IH]; intros z; cbn; [| rewrite IH]; reflexivity. Qed.

(** Writing the integer of [b] on [n >= len b] bytes gives [b] followed
    by zero bytes. *)
Lemma le_bytes_le_int (b : list Byte.byte) (n : nat) :
  (length b <= n)%nat ->
  le_bytes n (le_int b) = b ++ repeat Byte.x00 (n - length b).
Proof.
  revert n. induction b as [| a b IH]; intros n Hn.
  - cbn. rewrite Nat.sub_0_r. apply le_bytes_zero.
  - destruct n as [| n]; [cbn in Hn; lia |].
    cbn [le_int le_bytes length]. rewrite byte_of_Z_cons, div_cons.
    cbn. rewrite IH by (cbn in Hn; lia). reflexivity.
Qed.

Lemma le_int_bound (b : list Byte.byte) :
  0 <= le_int b < 2 ^ (8 * Z.of_nat (length b)).
Proof.
  induction b as [| a b IH].
  - cbn. lia.
  - cbn [le_int length]. pose proof (Z_of_byte_range a).
    replace (8 * Z.of_nat (S (length b))) with (8 + 8 * Z.of_nat (length b)) by lia.
    rewrite Z.pow_add_r by lia. change (2 ^ 8) with 256. lia.
Qed.

Lemma ceil8_nonneg (w : Z) : 0 <= w -> 0 <= (w + 7) / 8.
Proof. intros. apply Z.div_pos; lia. Qed.

Lemma ceil8_covers (w : Z) : 0 <= w -> w <= 8 * ((w + 7) / 8).
Proof.
  intros. pose proof (Z.div_mod (w + 7) 8 ltac:(lia)).
  pose proof (Z.mod_pos_bound (w + 7) 8 ltac:(lia)). lia.
Qed.

Lemma ceil8_tight (w : Z) : 8 * ((w + 7) / 8) < w + 8.
Proof.
  pose proof (Z.div_mod (w + 7) 8 ltac:(lia)).
  pose proof (Z.mod_pos_bound (w + 7) 8 ltac:(lia)). lia.
Qed.

(** [encode] on a buffer field, in closed form. *)
Lemma encode_Buffer (w : Z) (d : Value) (o : Z) (opt : bool)
    (name : string) (b : list Byte.byte) :
  0 <= o ->
  encode (mkSignal o (Buffer w d) opt) name (VBytes b)
  = if (w + 7) / 8 <? Z.of_nat (length b)
    then Raise BufferTooLong
    else Ok (Z.shiftl (le_int b) o).
Proof.
  intros Ho. cbn. rewrite andb_false_r. cbn.
  destruct ((w + 7) / 8 <? Z.of_nat (length b)); cbn; [reflexivity |].
  now rewrite lshift_ok.
Qed.

(** [decode] on a buffer field, in closed form. *)
Lemma decode_Buffer (w : Z) (d : Value) (o : Z) (opt : bool)
    (data max_idx : Z) :
  0 <= w -> 0 <= o -> o <= max_idx ->
  decode (mkSignal o (Buffer w d) opt) data max_idx
  = Ok (VBytes (le_bytes (Z.to_nat ((w + 7) / 8))
                         (Z.land (Z.shiftr data o) (2 ^ w - 1)))).
Proof.
  intros Hw Ho Hm. cbn.
  destruct (Z.ltb_spec max_idx o); [lia |].
  rewrite rshift_ok by lia. cbn.
  rewrite mask_ok by lia. cbn.
  unfold to_bytes.
  pose proof (ceil8_nonneg w Hw). pose proof (ceil8_covers w Hw).
  pose proof (pow2_pos w Hw).
  assert (0 <= Z.land (Z.shiftr data o) (2 ^ w - 1) < 2 ^ w).
  { rewrite land_mask_mod by lia. apply Z.mod_pos_bound. lia. }
  assert (2 ^ w <= 2 ^ (8 * ((w + 7) / 8))) by (apply Z.pow_le_mono_r; lia).
  destruct (Z.ltb_spec ((w + 7) / 8) 0); [lia |].
  destruct (Z.ltb_spec (Z.land (Z.shiftr data o) (2 ^ w - 1)) 0); [lia |].
  destruct (Z.leb_spec (2 ^ (8 * ((w + 7) / 8))) (Z.land (Z.shiftr data o) (2 ^ w - 1)));
    [lia | reflexivity].
Qed.

(** C6, as stated, fails: a 48-bit buffer refuses a 7-byte string although
    [7 <= ceil((48 + 1) / 8)]. *)
Lemma C6_counterexample :
  Z.of_nat (length [Byte.x01; Byte.x02; Byte.x03; Byte.x04; Byte.x05; Byte.x06; Byte.x07])
    <= (48 + 1 + 7) / 8
  /\ encode (mkSignal 8 (Buffer 48 (VInt 0)) false) "data"
            (VBytes [Byte.x01; Byte.x02; Byte.x03; Byte.x04; Byte.x05; Byte.x06; Byte.x07])
     = Raise BufferTooLong.
Proof. split; [vm_compute; discriminate | reflexivity]. Qed.

(** C6 (amended): for a [Buffer] signal of width [w], [encode] accepts a
    byte string exactly when its length is at most [ceil(w / 8)], that is
    [(w + 7) // 8]; a longer one raises the buffer-length [ValueError], and
    an accepted one is emitted as its little-endian integer at the
    signal's offset. *)
Theorem C6_buffer_length_bound
    (w : Z) (d : Value) (o : Z) (opt : bool) (name : string)
    (b : list Byte.byte) :
  0 <= o ->
  ((exists p, encode (mkSignal o (Buffer w d) opt) name (VBytes b) = Ok p)
   <-> Z.of_nat (length b) <= (w + 7) / 8)
  /\ (Z.of_nat (length b) <= (w + 7) / 8 ->
      encode (mkSignal o (Buffer w d) opt) name (VBytes b) = Ok (Z.shiftl (le_int b) o))
  /\ ((w + 7) / 8 < Z.of_nat (length b) ->
      encode (mkSignal o (Buffer w d) opt) name (VBytes b) = Raise BufferTooLong).
Proof.
  intros Ho. rewrite encode_Buffer by assumption.
  destruct (Z.ltb_spec ((w + 7) / 8) (Z.of_nat (length b))); repeat split;
    intros; try reflexivity; try lia.
  - destruct H0 as [p Hp]. discriminate.
  - eexists; reflexivity.
Qed.

(** The [data] field of [TestSetSetting] takes the six bytes of [gen_test]. *)
Lemma C6_buffer_length_bound_witness :
  encode (mkSignal 8 (Buffer 48 (VInt 0)) false) "data"
         (VBytes [Byte.x01; Byte.x02; Byte.x03; Byte.x04; Byte.x05; Byte.x06])
  = Ok (Z.shiftl (le_int [Byte.x01; Byte.x02; Byte.x03; Byte.x04; Byte.x05; Byte.x06]) 8).
Proof.
  refine (proj1 (proj2 (C6_buffer_length_bound 48 (VInt 0) 8 false "data"
                   [Byte.x01; Byte.x02; Byte.x03; Byte.x04; Byte.x05; Byte.x06] _)) _);
    closed_arith.
Defined.

(** C10, as stated, fails: on a frame too short to reach the field,
    [decode] returns [None] and not a byte sequence. *)
Lemma C10_counterexample :
  decode (mkSignal 8 (Buffer 48 (VInt 0)) false) 0 0 = Ok VNone.
Proof. reflexivity. Qed.

(** C10 (amended): for a [Buffer] signal of width [w], [decode] returns
    [None] when the signal's offset is beyond the frame limit [max_idx],
    and otherwise a byte sequence of exactly [ceil(w / 8)] bytes;
    consequently a byte string [b] shorter than [ceil(w / 8)] bytes, once
    encoded and decoded within the limit, comes back zero-extended to
    [ceil(w / 8)] bytes. *)
Theorem C10_buffer_decode_length
    (w : Z) (d : Value) (o : Z) (opt : bool) (max_idx : Z) :
  0 <= w -> 0 <= o ->
  (max_idx < o -> forall data,
     decode (mkSignal o (Buffer w d) opt) data max_idx = Ok VNone)
  /\ (o <= max_idx -> forall data, exists bs,
        decode (mkSignal o (Buffer w d) opt) data max_idx = Ok (VBytes bs)
        /\ Z.of_nat (length bs) = (w + 7) / 8)
  /\ (o <= max_idx -> forall name b,
        Z.of_nat (length b) < (w + 7) / 8 ->
        exists p,
          encode (mkSignal o (Buffer w d) opt) name (VBytes b) = Ok p
          /\ decode (mkSignal o (Buffer w d) opt) p max_idx
             = Ok (VBytes (b ++ repeat Byte.x00
                                  (Z.to_nat ((w + 7) / 8) - length b)))).
Proof.
  intros Hw Ho. pose proof (ceil8_nonneg w Hw) as Hc. split; [| split].
  - intros Hm data. cbn. destruct (Z.ltb_spec max_idx o); [reflexivity | lia].
  - intros Hm data. rewrite decode_Buffer by assumption.
    eexists. split; [reflexivity |]. rewrite length_le_bytes. lia.
  - intros Hm name b Hb.
    exists (Z.shiftl (le_int b) o). split.
    + rewrite encode_Buffer by assumption.
      destruct (Z.ltb_spec ((w + 7) / 8) (Z.of_nat (length b))); [lia | reflexivity].
    + rewrite decode_Buffer by assumption.
      rewrite shiftr_shiftl_same by assumption.
      rewrite land_mask_mod by assumption.
      pose proof (le_int_bound b) as Hb'. pose proof (ceil8_tight w) as Ht.
      assert (2 ^ (8 * Z.of_nat (length b)) <= 2 ^ w) by (apply Z.pow_le_mono_r; lia).
      rewrite Z.mod_small by lia.
      rewrite le_bytes_le_int by lia. reflexivity.
Qed.

(** A two-byte string in the 48-bit [data] field of [TestSetSetting]. *)
Lemma C10_buffer_decode_length_witness :
  exists p,
    encode (mkSignal 8 (Buffer 48 (VInt 0)) false) "data" (VBytes [Byte.x01; Byte.x02]) = Ok p
    /\ decode (mkSignal 8 (Buffer 48 (VInt 0)) false) p 64
       = Ok (VBytes ([Byte.x01; Byte.x02]
                     ++ repeat Byte.x00 (Z.to_nat ((48 + 7) / 8) - 2))).
Proof.
  refine (proj2 (proj2 (C10_buffer_decode_length 48 (VInt 0) 8 false 64 _ _)) _
                "data"%string [Byte.x01; Byte.x02] _); closed_arith.
Defined.

End BufSignals.

(** ** Bitsets *)

Module BitsetSignals.
Import Py Utils Model BitFacts.

(** [encode] on a bitset field, in closed form: no check of the value. *)
Lemma encode_Bitset (w d o : Z) (opt : bool) (name : string) (v : Z) :
  0 <= o ->
  encode (mkSignal o (Bitset w d) opt) name (VInt v) = Ok (Z.shiftl v o).
Proof.
  intros Ho. cbn. rewrite andb_false_r. cbn. now rewrite lshift_ok.
Qed.

(** C7, as stated, fails: an 8-bit bitset at offset 0 accepts 256, which
    is outside [0, 2^8), and the payload bit 8, outside the field, is set. *)
Lemma C7_counterexample :
  ~ (0 <= 256 < 2 ^ 8)
  /\ encode (mkSignal 0 (Bitset 8 0) false) "faults" (VInt 256) = Ok 256
  /\ Z.testbit (Z.lor 0 256) 8 = true
  /\ Z.testbit 0 8 = false.
Proof. repeat split; try reflexivity. change (2 ^ 8) with 256. lia. Qed.

(** C7 (amended): for a [Bitset] signal of width [w], [encode] performs no
    range check: every integer [v] is emitted as [v << offset].  Bit
    [offset + j] of the contribution is bit [j] of [v]; and when
    [0 <= v < 2^w] the contribution, OR-ed into a payload, leaves every
    payload bit outside [offset, offset + w) unchanged. *)
Theorem C7_bitset_emit (w d o : Z) (opt : bool) (name : string) (v : Z) :
  0 <= o ->
  encode (mkSignal o (Bitset w d) opt) name (VInt v) = Ok (Z.shiftl v o)
  /\ (forall i, o <= i -> Z.testbit (Z.shiftl v o) i = Z.testbit v (i - o))
  /\ (0 <= v < 2 ^ w ->
      forall payload i, ~ (o <= i < o + w) ->
        Z.testbit (Z.lor payload (Z.shiftl v o)) i = Z.testbit payload i).
Proof.
  intros Ho. split; [now apply encode_Bitset |]. split.
  - intros i Hi. apply Z.shiftl_spec. lia.
  - intros Hv payload i Hi.
    destruct (Z.lt_ge_cases i 0) as [Hneg | Hnn].
    { now rewrite !Z.testbit_neg_r by assumption. }
    rewrite Z.lor_spec.
    destruct (Z.lt_ge_cases i o).
    + rewrite Z.shiftl_spec_low by assumption. apply orb_false_r.
    + rewrite Z.shiftl_spec by assumption.
      rewrite (testbit_above v w (i - o)) by (try assumption; lia).
      apply orb_false_r.
Qed.

(** Scenario S1: [faults = 0x05] in the first byte of [Status] leaves
    bit 8 of a payload alone. *)
Lemma C7_bitset_emit_witness :
  Z.testbit (Z.lor 0x0200 (Z.shiftl 0x05 0)) 8 = Z.testbit 0x0200 8.
Proof.
  refine (proj2 (proj2 (C7_bitset_emit 8 0 0 false "faults" 0x05 _)) _ 0x0200 8 _);
    closed_arith.
Defined.

End BitsetSignals.

(** ** The arbitration identifier *)

Module Addressing.
Import Py Model BitFacts.

(** [CANDevice.addr] as a sum of its fields. *)
Lemma addr_sum (dt id api : Z) :
  0 <= dt <= 31 -> 0 <= id <= 63 -> 0 <= api <= 255 ->
  Device.addr dt id api = dt * 16777216 + 917504 + api * 64 + id.
Proof.
  intros Hdt Hid Hapi. unfold Device.addr, Device.REDUX_CAN_VENDOR_ID.
  remember (dt * 16777216 + 917504 + api * 64 + id) as total eqn:Htotal.
  change 0x1F with (2 ^ 5 - 1). change 0xFF with (2 ^ 8 - 1).
  change 0x3F with (2 ^ 6 - 1).
  rewrite !land_mask_mod by lia.
  change (2 ^ 5) with 32. change (2 ^ 8) with 256. change (2 ^ 6) with 64.
  rewrite (Z.mod_small dt), (Z.mod_small api), (Z.mod_small id) by lia.
  change (0xE mod 256) with 14.
  rewrite (lor_shiftl_add dt (Z.shiftl 14 16) 24) by (vm_compute; intuition discriminate).
  change (Z.shiftl 14 16) with 917504. change (2 ^ 24) with 16777216.
  replace (dt * 16777216 + 917504) with (Z.shiftl (dt * 256 + 14) 16)
    by (rewrite Z.shiftl_mul_pow2 by lia; change (2 ^ 16) with 65536; lia).
  rewrite (Z.shiftl_mul_pow2 api 6) by lia. change (2 ^ 6) with 64.
  rewrite (lor_shiftl_add (dt * 256 + 14) (api * 64) 16)
    by (change (2 ^ 16) with 65536; lia).
  change (2 ^ 16) with 65536.
  replace ((dt * 256 + 14) * 65536 + api * 64)
    with (Z.shiftl (dt * 262144 + 14336 + api) 6)
    by (rewrite Z.shiftl_mul_pow2 by lia; change (2 ^ 6) with 64; lia).
  rewrite lor_shiftl_add by (change (2 ^ 6) with 64; lia).
  change (2 ^ 6) with 64. lia.
Qed.

(** The id written by [to_wrapper] is [addr] when the fields are in range. *)
Lemma to_wrapper_id_sum (dt id mid : Z) :
  0 <= dt <= 31 -> 0 <= id <= 63 -> 0 <= mid <= 255 ->
  Z.lor (Z.lor (Z.lor (Z.shiftl dt 24) (Z.shiftl 0xe 16)) (Z.shiftl mid 6)) id
  = Device.addr dt id mid.
Proof.
  intros Hdt Hid Hmid. unfold Device.addr, Device.REDUX_CAN_VENDOR_ID.
  change 0x1F with (2 ^ 5 - 1). change 0xFF with (2 ^ 8 - 1).
  change 0x3F with (2 ^ 6 - 1).
  rewrite !land_mask_mod by lia.
  change (2 ^ 5) with 32. change (2 ^ 8) with 256. change (2 ^ 6) with 64.
  rewrite (Z.mod_small dt), (Z.mod_small mid), (Z.mod_small id) by lia.
  reflexivity.
Qed.

(** The sub-fields of an identifier built by [CANDevice.addr]. *)
Lemma addr_fields (dt id mid : Z) :
  0 <= dt <= 31 -> 0 <= id <= 63 -> 0 <= mid <= 31 ->
  0 <= Device.addr dt id mid < 2 ^ 29
  /\ Z.land (Z.shiftr (Device.addr dt id mid) 24) 0x1F = dt
  /\ Z.land (Z.shiftr (Device.addr dt id mid) 16) 0xFF = 0x0E
  /\ Z.land (Z.shiftr (Device.addr dt id mid) 6) 0xff = mid
  /\ Z.land (Z.shiftr (Device.addr dt id mid) 6) 0x1f = mid
  /\ Z.land (Device.addr dt id mid) 0x3F = id
  /\ Z.land (Device.addr dt id mid) 0x1fff0000
     = Z.lor (Z.shiftl dt 24) (Z.shiftl 0xe 16)
  /\ Z.land (Device.addr dt id mid) Device.CAN_MESSAGE_MASK = Device.addr dt id 0
  /\ Z.lor (Z.lor (Z.lor (Z.shiftl dt 24) (Z.shiftl 0xe 16)) (Z.shiftl mid 6)) id
     = Device.addr dt id mid
  /\ Device.addr 7 3 31 = 0x070E07C3.
Proof.
  intros Hdt Hid Hmid.
  assert (Hhigh : Z.lor (Z.shiftl dt 24) (Z.shiftl 0xe 16) = dt * 16777216 + 917504).
  { rewrite (lor_shiftl_add dt (Z.shiftl 0xe 16) 24) by (vm_compute; intuition discriminate).
    reflexivity. }
  rewrite to_wrapper_id_sum by lia.
  rewrite Hhigh, (addr_sum dt id 0), (addr_sum dt id mid) by lia.
  assert (Hmask : Z.land (dt * 16777216 + 917504 + mid * 64 + id) Device.CAN_MESSAGE_MASK
                  = dt * 16777216 + 917504 + 0 * 64 + id).
  { change Device.CAN_MESSAGE_MASK with (Z.lor (Z.shiftl (2 ^ 13 - 1) 16) (2 ^ 6 - 1)).
    rewrite Z.land_lor_distr_r, land_shiftl_mask, !land_mask_mod by lia.
    rewrite Z.shiftr_div_pow2 by lia.
    change (2 ^ 16) with 65536. change (2 ^ 13) with 8192. change (2 ^ 6) with 64.
    replace (((dt * 16777216 + 917504 + mid * 64 + id) / 65536) mod 8192)
      with (dt * 256 + 14) by divmod_lia.
    replace ((dt * 16777216 + 917504 + mid * 64 + id) mod 64) with id by divmod_lia.
    replace (Z.shiftl (dt * 256 + 14) 16) with (Z.shiftl (dt * 262144 + 14336) 6)
      by (rewrite !Z.shiftl_mul_pow2 by lia;
          change (2 ^ 16) with 65536; change (2 ^ 6) with 64; lia).
    rewrite lor_shiftl_add by (change (2 ^ 6) with 64; lia).
    change (2 ^ 6) with 64. lia. }
  rewrite Hmask. clear Hmask.
  change 0x1F with (2 ^ 5 - 1). change 0xFF with (2 ^ 8 - 1).
  change 0xff with (2 ^ 8 - 1). change 0x1f with (2 ^ 5 - 1).
  change 0x3F with (2 ^ 6 - 1).
  change 0x1fff0000 with (Z.shiftl (2 ^ 13 - 1) 16).
  rewrite !land_mask_mod by lia.
  rewrite land_shiftl_mask by lia. rewrite land_mask_mod by lia.
  rewrite !Z.shiftr_div_pow2 by lia. rewrite Z.shiftl_mul_pow2 by lia.
  change (2 ^ 29) with 536870912. change (2 ^ 24) with 16777216.
  change (2 ^ 16) with 65536. change (2 ^ 13) with 8192.
  change (2 ^ 8) with 256. change (2 ^ 6) with 64. change (2 ^ 5) with 32.
  change 0x0E with 14.
  repeat split; try lia; try divmod_lia.
Qed.

(** The frame of a known message is routed by [decode_msg_generic] to the
    class registered under its message id. *)
Lemma decode_msg_generic_routes (dt id mid : Z) (messages : list (Z * MessageClass))
    (payload len ts : Z) :
  0 <= dt <= 31 -> 0 <= id <= 63 -> 0 <= mid <= 31 ->
  decode_msg_generic dt messages
    (mkMessageWrapper payload len (Device.addr dt id mid) ts)
  = match dict_get mid messages with
    | None => Ok VNone
    | Some cls => from_wrapper cls (mkMessageWrapper payload len (Device.addr dt id mid) ts)
    end.
Proof.
  intros Hdt Hid Hmid.
  destruct (addr_fields dt id mid Hdt Hid Hmid)
    as (_ & _ & _ & Hm & _ & _ & Hown & _).
  unfold decode_msg_generic. cbn [arb_id].
  rewrite Hown, Z.eqb_refl. cbn [negb]. now rewrite Hm.
Qed.

(** C2: for [device_type] in 0..31, [device_id] in 0..63 and [message_id]
    in 0..31, the identifier built by [CANDevice.addr] is a 29-bit value
    whose sub-fields, read back with the field masks (device type in bits
    28..24, vendor 0x0E in bits 23..16, message id from bit 6, device id
    in bits 5..0), are the same triple; it passes the ownership test of
    [decode_msg_generic], which extracts the same message id, and equals
    the id written by [to_wrapper]; and [addr 7 3 31 = 0x070E07C3]. *)
Theorem C2_address_partition (dt id mid : Z) :
  0 <= dt <= 31 -> 0 <= id <= 63 -> 0 <= mid <= 31 ->
  (0 <= Device.addr dt id mid < 2 ^ 29
   /\ Z.land (Z.shiftr (Device.addr dt id mid) 24) 0x1F = dt
   /\ Z.land (Z.shiftr (Device.addr dt id mid) 16) 0xFF = 0x0E
   /\ Z.land (Z.shiftr (Device.addr dt id mid) 6) 0xff = mid
   /\ Z.land (Z.shiftr (Device.addr dt id mid) 6) 0x1f = mid
   /\ Z.land (Device.addr dt id mid) 0x3F = id
   /\ Z.land (Device.addr dt id mid) 0x1fff0000
      = Z.lor (Z.shiftl dt 24) (Z.shiftl 0xe 16)
   /\ Z.land (Device.addr dt id mid) Device.CAN_MESSAGE_MASK = Device.addr dt id 0
   /\ Z.lor (Z.lor (Z.lor (Z.shiftl dt 24) (Z.shiftl 0xe 16)) (Z.shiftl mid 6)) id
      = Device.addr dt id mid
   /\ Device.addr 7 3 31 = 0x070E07C3)
  /\ (forall messages payload len ts,
        decode_msg_generic dt messages
          (mkMessageWrapper payload len (Device.addr dt id mid) ts)
        = match dict_get mid messages with
          | None => Ok VNone
          | Some cls =>
              from_wrapper cls (mkMessageWrapper payload len (Device.addr dt id mid) ts)
          end).
Proof.
  intros Hdt Hid Hmid. split.
  - now apply addr_fields.
  - intros. now apply decode_msg_generic_routes.
Qed.

(** Scenario S6. *)
Lemma C2_address_partition_witness :
  Z.land (Z.shiftr (Device.addr 7 3 31) 6) 0xff = 31
  /\ Z.land (Device.addr 7 3 31) 0x3F = 3
  /\ Z.land (Z.shiftr (Device.addr 7 3 31) 24) 0x1F = 7.
Proof.
  pose proof (proj1 (C2_address_partition 7 3 31 ltac:(lia) ltac:(lia) ltac:(lia))) as H.
  repeat split; apply H.
Defined.

End Addressing.

(** ** Frames: the DLC rule of [to_wrapper] *)

Module Frames.
Import Py Utils Model BitFacts.

(** The DLC leaving the field loop. *)
Lemma to_wrapper_fields_dlc (self : Value) (max_len : Z) (l : list (string * Signal)) :
  forall dlc0 data0 r,
    to_wrapper_fields self max_len l dlc0 data0 = Ok r ->
    fst r = if existsb (populated_optional self) l then max_len else dlc0.
Proof.
  induction l as [| [name sig] rest IH]; intros dlc0 data0 r H.
  - cbn in H. injection H as <-. reflexivity.
  - cbn [to_wrapper_fields] in H. cbn [existsb].
    change (populated_optional self (name, sig))
      with (match getattr self name with
            | Ok v => sig_optional sig && negb (is_None v)
            | Raise _ => false
            end).
    destruct (getattr self name) as [value | e]; [| discriminate].
    cbn [bind] in H.
    destruct (sig_optional sig) eqn:Hopt; destruct (is_None value) eqn:Hnone;
      cbn [andb negb orb] in *.
    + now apply IH in H.
    + destruct (encode sig name value) as [e |]; [| discriminate].
      cbn [bind] in H. apply IH in H. rewrite H.
      now destruct (existsb (populated_optional self) rest).
    + destruct (encode sig name value) as [e |]; [| discriminate].
      cbn [bind] in H. now apply IH in H.
    + destruct (encode sig name value) as [e |]; [| discriminate].
      cbn [bind] in H. now apply IH in H.
Qed.

(** Fields that are optional and [None] can be dropped from the class
    without changing what the loop computes. *)
Lemma to_wrapper_fields_skip_null (self : Value) (max_len : Z)
    (l : list (string * Signal)) :
  forall dlc0 data0,
    to_wrapper_fields self max_len l dlc0 data0
    = to_wrapper_fields self max_len
        (List.filter (fun f => negb (null_optional self f)) l) dlc0 data0.
Proof.
  induction l as [| [name sig] rest IH]; intros dlc0 data0; [reflexivity |].
  cbn [List.filter].
  change (null_optional self (name, sig))
    with (match getattr self name with
          | Ok v => sig_optional sig && is_None v
          | Raise _ => false
          end).
  destruct (getattr self name) as [value | e] eqn:Hget.
  - destruct (sig_optional sig && is_None value) eqn:Hskip; cbn [negb].
    + cbn [to_wrapper_fields]. rewrite Hget. cbn [bind]. rewrite Hskip. apply IH.
    + cbn [to_wrapper_fields]. rewrite Hget. cbn [bind]. rewrite Hskip.
      destruct (encode sig name value); cbn [bind]; [apply IH | reflexivity].
  - cbn [negb to_wrapper_fields]. now rewrite Hget.
Qed.

(** The loop returns whenever every field can be read and every field
    that is not skipped encodes. *)
Lemma to_wrapper_fields_total (self : Value) (max_len : Z)
    (l : list (string * Signal)) :
  Forall (fun f => exists v, getattr self (fst f) = Ok v
                    /\ (sig_optional (snd f) && is_None v = true
                        \/ exists e, encode (snd f) (fst f) v = Ok e)) l ->
  forall dlc0 data0, exists r, to_wrapper_fields self max_len l dlc0 data0 = Ok r.
Proof.
  induction 1 as [| [name sig] rest (v & Hget & Hv) _ IH]; intros dlc0 data0.
  - eexists; reflexivity.
  - cbn [fst snd] in *. cbn [to_wrapper_fields]. rewrite Hget. cbn [bind].
    destruct (sig_optional sig && is_None v) eqn:Hskip; [apply IH |].
    destruct Hv as [Hv | (e & He)]; [discriminate |].
    rewrite He. cbn [bind]. apply IH.
Qed.

(** C3: whenever [to_wrapper] produces a frame for a record, the frame's
    DLC is the message's [max_length] if some optional signal of the
    message holds a non-null value and its [min_length] otherwise (all
    optional signals null); and the frame is the one obtained from the
    message class with the null optional signals removed, so such a signal
    contributes no bit to the payload. *)
Theorem C3_dlc_rule (cls : MessageClass) (self : Value) (dev_id : Z)
    (dev_type : option Z) (w : MessageWrapper) :
  to_wrapper cls self dev_id dev_type = Ok w ->
  dlc w = (if existsb (populated_optional self) (hints cls)
           then max_length (meta__ cls) else min_length (meta__ cls))
  /\ to_wrapper
       (mkMessageClass (meta__ cls)
          (List.filter (fun f => negb (null_optional self f)) (hints cls)))
       self dev_id dev_type = Ok w.
Proof.
  intros H. split.
  - unfold to_wrapper in H.
    destruct (to_wrapper_fields self (max_length (meta__ cls)) (hints cls)
                (min_length (meta__ cls)) 0) as [r |] eqn:Hr; [| discriminate].
    cbn [bind] in H. injection H as <-. cbn [dlc].
    now apply to_wrapper_fields_dlc in Hr.
  - unfold to_wrapper in *. cbn [meta__ hints].
    now rewrite <- to_wrapper_fields_skip_null.
Qed.

(** Scenario S3: [SettingCommand] with [control_flag = 0x02]; with
    [setting_index = 0x06] the frame has bytes [02 06] and DLC 8, without
    it byte [02] and DLC 1. *)
Lemma C3_dlc_rule_witness :
  (to_wrapper Schemas.SettingCommand
     (VObj [("control_flag"%string, VInt 0x02); ("setting_index"%string, VInt 0x06)])
     3 None = Ok (mkMessageWrapper 0x0602 8 0x070E0083 0)
   /\ dlc (mkMessageWrapper 0x0602 8 0x070E0083 0) = 8)
  /\ (to_wrapper Schemas.SettingCommand
        (VObj [("control_flag"%string, VInt 0x02); ("setting_index"%string, VNone)])
        3 None = Ok (mkMessageWrapper 0x02 1 0x070E0083 0)
      /\ dlc (mkMessageWrapper 0x02 1 0x070E0083 0) = 1).
Proof.
  split; (split; [reflexivity |]).
  - exact (proj1 (C3_dlc_rule Schemas.SettingCommand
             (VObj [("control_flag"%string, VInt 0x02); ("setting_index"%string, VInt 0x06)])
             3 None _ eq_refl)).
  - exact (proj1 (C3_dlc_rule Schemas.SettingCommand
             (VObj [("control_flag"%string, VInt 0x02); ("setting_index"%string, VNone)])
             3 None _ eq_refl)).
Defined.

(** [gen_test] of [model.py]: the optional [flags] struct is populated, so
    the frame takes [max_length]. *)
Example gen_test_frame :
  to_wrapper Schemas.TestSetSetting Schemas.gen_test 1 None
  = Ok (mkMessageWrapper 0x320605040302010e 8 0x040E00C1 0).
Proof. reflexivity. Qed.

End Frames.

(** ** Floating-point signals *)

Module FloatSignals.
Import Py Utils Model BitFacts BufSignals.

Lemma Z_of_byte_of_Z (z : Z) : Z_of_byte (byte_of_Z z) = z mod 256.
Proof.
  unfold byte_of_Z, Z_of_byte.
  pose proof (Z.mod_pos_bound z 256 ltac:(lia)) as Hb.
  destruct (Byte.of_N (Z.to_N (z mod 256))) as [b |] eqn:Hof.
  - apply Byte.to_of_N in Hof. rewrite Hof. lia.
  - apply Byte.of_N_None_iff in Hof. lia.
Qed.

(** Reading back the [n] little-endian bytes of [z]. *)
Lemma le_int_le_bytes (n : nat) (z : Z) :
  le_int (le_bytes n z) = z mod 2 ^ (8 * Z.of_nat n).
Proof.
  revert z. induction n as [| n IH]; intros z.
  - cbn. now rewrite Z.mod_1_r.
  - cbn [le_bytes le_int]. rewrite Z_of_byte_of_Z, IH.
    replace (8 * Z.of_nat (S n)) with (8 + 8 * Z.of_nat n) by lia.
    rewrite Z.pow_add_r by lia. change (2 ^ 8) with 256.
    rewrite Z.rem_mul_r by (pose proof (pow2_pos (8 * Z.of_nat n)); lia).
    reflexivity.
Qed.

(** [decode] on a 24-bit float field, in closed form: the 24 extracted
    bits are shifted left twice by 8 before [to_bytes(4)], which only
    accepts them when they stay below [2^16]. *)
Lemma decode_Float24 (mn mx : option float) (dv : float) (nan : bool)
    (fn fd : Z) (off : float) (o : Z) (opt : bool) (data max_idx : Z) :
  0 <= o -> o <= max_idx ->
  decode (mkSignal o (Float 24 mn mx dv nan fn fd off) opt) data max_idx
  = if 2 ^ 16 <=? Z.land (Z.shiftr data o) (2 ^ 24 - 1)
    then Raise OverflowError
    else Ok (VFloat (single_of_bits
                       (Z.shiftl (Z.land (Z.shiftr data o) (2 ^ 24 - 1)) 16))).
Proof.
  intros Ho Hm. cbn.
  destruct (Z.ltb_spec max_idx o); [lia |].
  rewrite rshift_ok by lia. cbn.
  change (Z.pos 16777215) with (2 ^ 24 - 1).
  rewrite <- Z.land_assoc, Z.land_diag.
  set (raw := Z.land (Z.shiftr data o) (2 ^ 24 - 1)).
  assert (Hraw : 0 <= raw < 2 ^ 24).
  { unfold raw. rewrite land_mask_mod by lia. apply Z.mod_pos_bound. lia. }
  clearbody raw.
  rewrite Z.shiftl_shiftl by lia. change (8 + 8) with 16.
  assert (Hsh : Z.shiftl raw 16 = raw * 65536)
    by (rewrite Z.shiftl_mul_pow2 by lia; reflexivity).
  change (2 ^ 24) with 16777216 in Hraw. change (2 ^ 16) with 65536.
  unfold to_bytes. change (2 ^ (8 * 4)) with 4294967296.
  destruct (Z.ltb_spec 4 0); [lia |].
  destruct (Z.ltb_spec (Z.shiftl raw 16) 0); [lia |].
  destruct (Z.leb_spec 65536 raw);
    destruct (Z.leb_spec 4294967296 (Z.shiftl raw 16)); try lia; cbn [bind].
  - reflexivity.
  - unfold unpack_f. rewrite length_le_bytes. cbn [Nat.eqb bind].
    rewrite le_int_le_bytes.
    rewrite Z.mod_small; [reflexivity |].
    change (2 ^ (8 * Z.of_nat (Z.to_nat 4))) with 4294967296. lia.
Qed.

(** C1 on the code: encoding 1.0 in a 24-bit float field emits the upper
    24 bits [0x3F8000] of its binary32 pattern; decoding that payload
    shifts them left by 16, not 8, and [to_bytes(4)] raises
    [OverflowError].  Reinterpreting the bits shifted by exactly 8 would
    have given 1.0 back. *)
Theorem C1_float24_decode_shifts_twice :
  encode (mkSignal 0 (Float 24 None None (float_of_Z 0) true 1 1 (float_of_Z 0)) false)
         "yaw" (VFloat (float_of_Z 1)) = Ok 0x3F8000
  /\ decode (mkSignal 0 (Float 24 None None (float_of_Z 0) true 1 1 (float_of_Z 0)) false)
            0x3F8000 64 = Raise OverflowError
  /\ unpack_f (le_bytes 4 (Z.shiftl 0x3F8000 8)) = Ok (float_of_Z 1).
Proof. repeat split; reflexivity. Qed.

(** When the 24-bit decode does return, it returns the double-shifted
    pattern: the smallest positive payload decodes to [2^-133], not to
    the [2^-141] that was encoded. *)
Example float24_small_payload :
  encode (mkSignal 0 (Float 24 None None (float_of_Z 0) true 1 1 (float_of_Z 0)) false)
         "yaw" (VFloat (S754_finite false (2 ^ 52) (-193))) = Ok 1
  /\ decode (mkSignal 0 (Float 24 None None (float_of_Z 0) true 1 1 (float_of_Z 0)) false)
            1 64 = Ok (VFloat (S754_finite false (2 ^ 52) (-185))).
Proof. split; reflexivity. Qed.

(** The maximum check of [encode] compares against [min]: with both
    bounds declared, every value above the minimum is refused, whatever
    the maximum. *)
Lemma encode_Float_above_min (w : Z) (lo hi dv : float) (nan : bool)
    (fn fd : Z) (off : float) (o : Z) (opt : bool) (name : string) (v : float) :
  nan || isfinite v = true -> flt lo v = true ->
  encode (mkSignal o (Float w (Some lo) (Some hi) dv nan fn fd off) opt)
         name (VFloat v) = Raise OutOfRange.
Proof.
  intros Hfin Hgt. cbn. rewrite andb_false_r. cbn.
  rewrite Hfin. cbn.
  unfold fgt, flt in *. rewrite Hgt.
  now destruct (SFltb v lo).
Qed.

(** C5 on the code: a 32-bit float field declared with [min = 0.0] and
    [max = 10.0] refuses the finite in-range value 5.0 with the
    out-of-range [ValueError]; only the minimum itself is accepted. *)
Theorem C5_float_max_compares_min :
  isfinite (float_of_Z 5) = true
  /\ SFleb (float_of_Z 0) (float_of_Z 5) = true
  /\ SFleb (float_of_Z 5) (float_of_Z 10) = true
  /\ encode (mkSignal 0 (Float 32 (Some (float_of_Z 0)) (Some (float_of_Z 10))
                                  (float_of_Z 0) false 1 1 (float_of_Z 0)) false)
            "value" (VFloat (float_of_Z 5)) = Raise OutOfRange
  /\ encode (mkSignal 0 (Float 32 (Some (float_of_Z 0)) (Some (float_of_Z 10))
                                  (float_of_Z 0) false 1 1 (float_of_Z 0)) false)
            "value" (VFloat (float_of_Z 0)) = Ok 0.
Proof. repeat split; reflexivity. Qed.

End FloatSignals.

(** ** The spec loader: implicit [SETTING] and [SETTING_COMMAND] enums *)

Module Loader.
Import Py Utils Parser.

Section DictFacts.
Context {K V : Type} `{EqDecision K}.

Lemma dict_get_set_eq (k : K) (v : V) (d : list (K * V)) :
  dict_get k (dict_set k v d) = Some v.
Proof.
  induction d as [| [k' v'] d IH]; cbn.
  - now rewrite decide_True.
  - destruct (decide (k' = k)) as [-> | Hne]; cbn.
    + now rewrite decide_True.
    + now rewrite decide_False.
Qed.

Lemma dict_get_set_ne (k k' : K) (v : V) (d : list (K * V)) :
  k <> k' -> dict_get k' (dict_set k v d) = dict_get k' d.
Proof.
  intros Hne. induction d as [| [k0 v0] d IH]; cbn.
  - now rewrite decide_False.
  - destruct (decide (k0 = k)) as [-> | Hne0]; cbn.
    + now rewrite !decide_False.
    + now rewrite IH.
Qed.

End DictFacts.

(** Looking a key up in a dict comprehension over the items of [d]. *)
Lemma dict_get_map {A B : Type} (f : A -> B) (k : string) (d : list (string * A)) :
  dict_get k (map (fun kv => (fst kv, f (snd kv))) d)
  = match dict_get k d with
    | Some a => Some (f a)
    | None => None
    end.
Proof.
  induction d as [| [k0 a] d IH]; cbn; [reflexivity |].
  now destruct (decide (k0 = k)).
Qed.

(** What [parse_spec] returns: the resolved chain with the two implicit
    enums assigned last. *)
Lemma parse_spec_inv (fs : string -> result DeviceSpec) (dev_spec dev : DeviceSpec) :
  parse_spec fs dev_spec = Ok dev ->
  exists r,
    resolve_bases fs (base dev_spec) dev_spec = Ok r
    /\ dev = with_enums r
               (dict_set "SETTING_COMMAND"%string
                  (implicit_enum (setting_command_values r))
                  (dict_set "SETTING"%string (implicit_enum (setting_values r))
                     (enums r))).
Proof.
  unfold parse_spec. intros H.
  destruct (resolve_bases fs (base dev_spec) dev_spec) as [r |]; [| discriminate].
  cbn [bind] in H. injection H as <-. now exists r.
Qed.

(** Lowering an implicit enum: the empty default name selects the entry
    keyed by the empty string when there is one, and index 0 otherwise. *)
Lemma impl_EnumMeta_from_implicit (name : string)
    (values : list (string * EnumEntrySpec)) :
  name = "SETTING"%string \/ name = "SETTING_COMMAND"%string ->
  exists m,
    impl_EnumMeta_from name (implicit_enum values) None = Ok m
    /\ em_name m = name /\ em_width m = 8 /\ em_is_public m = true
    /\ em_default_value m = EmptyString
    /\ em_default_value_idx m
       = match dict_get EmptyString values with
         | Some ent => ees_id ent
         | None => 0
         end.
Proof.
  intros Hname. unfold impl_EnumMeta_from. cbn [implicit_enum es_default_value es_values
    es_bits es_is_public].
  destruct (dict_get EmptyString values) as [ent |].
  - eexists. split; [reflexivity |]. cbn. auto.
  - destruct Hname as [-> | ->]; cbn; eexists; (split; [reflexivity |]); cbn; auto.
Qed.

(** A default name that names no entry is accepted for the two implicit
    enums only. *)
Lemma impl_EnumMeta_from_missing_default (name : string) (entry : EnumSpec) :
  dict_get (es_default_value entry) (es_values entry) = None ->
  (exists m, impl_EnumMeta_from name entry None = Ok m)
  <-> (name = "SETTING"%string \/ name = "SETTING_COMMAND"%string).
Proof.
  intros Hnone. unfold impl_EnumMeta_from. rewrite Hnone.
  destruct (String.eqb_spec name "SETTING") as [-> | Hn1].
  - cbn. split; [auto | intros _; eexists; reflexivity].
  - destruct (String.eqb_spec name "SETTING_COMMAND") as [-> | Hn2]; cbn.
    + split; [auto | intros _; eexists; reflexivity].
    + split; [intros [m Hm]; discriminate | intros [? | ?]; contradiction].
Qed.

(** C9, as stated, fails: in a spec with a setting keyed by the empty
    string, the empty default name of the synthesised [SETTING] enum names
    that entry, and lowering gives its id, 5, as default index. *)
Lemma C9_counterexample :
  exists dev e m,
    parse_spec (fun _ => Raise LoadError) Schemas.empty_name_spec = Ok dev
    /\ dict_get "SETTING"%string (enums dev) = Some e
    /\ es_default_value e = EmptyString
    /\ impl_EnumMeta_from "SETTING" e None = Ok m
    /\ em_default_value_idx m = 5
    /\ em_default_value_idx m <> 0.
Proof.
  do 3 eexists. repeat split; try reflexivity. cbn. lia.
Qed.

(** C9 (amended): for every root spec and every set of base spec files,
    when [parse_spec] returns, the resolved spec's enum map binds
    [SETTING] and [SETTING_COMMAND] to 8-bit public [uint] enums with
    empty default name whose entries are exactly the (name, id, comment)
    of every resolved setting, respectively setting command -- whatever
    enums the specs of the chain declared.  Lowering either enum succeeds
    with default index 0, unless an entry is itself keyed by the empty
    string, in which case the default index is that entry's id; and a
    default name that names no entry is accepted for these two enum
    names only. *)
Theorem C9_implicit_setting_enums
    (fs : string -> result DeviceSpec) (dev_spec dev : DeviceSpec) :
  parse_spec fs dev_spec = Ok dev ->
  (exists r, resolve_bases fs (base dev_spec) dev_spec = Ok r
             /\ settings dev = settings r
             /\ setting_commands dev = setting_commands r)
  /\ dict_get "SETTING"%string (enums dev)
     = Some (mkEnumSpec EmptyString "uint" 8 true EmptyString
               (map (fun kv => (fst kv, mkEnumEntrySpec (stg_id (snd kv))
                                                        (stg_comment (snd kv))))
                    (settings dev)))
  /\ dict_get "SETTING_COMMAND"%string (enums dev)
     = Some (mkEnumSpec EmptyString "uint" 8 true EmptyString
               (map (fun kv => (fst kv, mkEnumEntrySpec (cmd_id (snd kv))
                                                        (cmd_comment (snd kv))))
                    (setting_commands dev)))
  /\ (exists m, impl_EnumMeta_from "SETTING" (implicit_enum (setting_values dev)) None
                = Ok m
                /\ em_width m = 8 /\ em_is_public m = true
                /\ em_default_value m = EmptyString
                /\ em_default_value_idx m
                   = match dict_get EmptyString (settings dev) with
                     | Some s => stg_id s
                     | None => 0
                     end)
  /\ (exists m, impl_EnumMeta_from "SETTING_COMMAND"
                  (implicit_enum (setting_command_values dev)) None = Ok m
                /\ em_width m = 8 /\ em_is_public m = true
                /\ em_default_value m = EmptyString
                /\ em_default_value_idx m
                   = match dict_get EmptyString (setting_commands dev) with
                     | Some c => cmd_id c
                     | None => 0
                     end)
  /\ (forall name entry,
        dict_get (es_default_value entry) (es_values entry) = None ->
        (exists m, impl_EnumMeta_from name entry None = Ok m)
        <-> (name = "SETTING"%string \/ name = "SETTING_COMMAND"%string)).
Proof.
  intros H. apply parse_spec_inv in H as (r & Hr & ->).
  cbn [with_enums settings setting_commands enums].
  split; [now exists r |].
  split; [| split].
  - rewrite dict_get_set_ne by discriminate. apply dict_get_set_eq.
  - apply dict_get_set_eq.
  - split; [| split].
    + destruct (impl_EnumMeta_from_implicit "SETTING" (setting_values r))
        as (m & Hm & _ & Hw & Hp & Hd & Hi); [now left |].
      exists m. repeat split; try assumption.
      rewrite Hi. unfold setting_values.
      rewrite (dict_get_map (fun s => mkEnumEntrySpec (stg_id s) (stg_comment s))).
      now destruct (dict_get EmptyString (settings r)).
    + destruct (impl_EnumMeta_from_implicit "SETTING_COMMAND" (setting_command_values r))
        as (m & Hm & _ & Hw & Hp & Hd & Hi); [now right |].
      exists m. repeat split; try assumption.
      rewrite Hi. unfold setting_command_values.
      rewrite (dict_get_map (fun c => mkEnumEntrySpec (cmd_id c) (cmd_comment c))).
      now destruct (dict_get EmptyString (setting_commands r)).
    + intros name entry. apply impl_EnumMeta_from_missing_default.
Qed.

(** Scenario S5: [Canandmag] inherits [CAN_ID] from [CanandDevice], whose
    own hand-written [SETTING] enum is replaced by the synthesised one. *)
Lemma C9_implicit_setting_enums_witness :
  exists dev,
    parse_spec Schemas.spec_files Schemas.canandmag_spec = Ok dev
    /\ dict_get "SETTING"%string (enums dev)
       = Some (mkEnumSpec EmptyString "uint" 8 true EmptyString
                 (map (fun kv => (fst kv, mkEnumEntrySpec (stg_id (snd kv))
                                                          (stg_comment (snd kv))))
                      (settings dev))).
Proof.
  eexists. split; [reflexivity |].
  exact (proj1 (proj2 (C9_implicit_setting_enums Schemas.spec_files
                         Schemas.canandmag_spec _ eq_refl))).
Defined.

Example S5_can_id_in_setting_enum :
  exists dev e,
    parse_spec Schemas.spec_files Schemas.canandmag_spec = Ok dev
    /\ dict_get "SETTING"%string (enums dev) = Some e
    /\ dict_get "CAN_ID"%string (es_values e) = Some (mkEnumEntrySpec 0 "CAN Device ID")
    /\ dict_get "LEGACY"%string (es_values e) = None
    /\ dict_get "STATUS_FRAME_PERIOD"%string (es_values e)
       = Some (mkEnumEntrySpec 4 "Status frame period override").
Proof. do 2 eexists. repeat split; reflexivity. Qed.

End Loader.

(** ** Scalar fields: windows and round trips *)

Module ScalarFields.
Import Py Utils Model Layout BitFacts IntSignals BufSignals.

Lemma fits_not_None (m : Meta) (v : Value) : fits m v = true -> is_None v = false.
Proof. destruct v; [destruct m; discriminate | reflexivity ..]. Qed.

Lemma fits_scalar (m : Meta) (v : Value) :
  fits m v = true -> exists w, field_width m = Some w.
Proof. destruct m; cbn; eauto; destruct v; discriminate. Qed.

(** A window of negative width holds nothing. *)
Lemma pow2_bound_width (z w : Z) : 0 <= z < 2 ^ w -> 0 <= w.
Proof.
  intros H. destruct (Z.le_gt_cases 0 w); [assumption |].
  rewrite Z.pow_neg_r in H; lia.
Qed.

(** What [encode] emits for a fitting value. *)
Lemma encode_fits (o : Z) (m : Meta) (opt : bool) (name : string) (v : Value) (w : Z) :
  field_width m = Some w -> fits m v = true -> 0 <= o ->
  encode (mkSignal o m opt) name v = Ok (Z.shiftl (raw m v) o)
  /\ 0 <= raw m v < 2 ^ w.
Proof.
  intros Hw Hf Ho.
  destruct m; cbn in Hw; try discriminate; injection Hw as <-;
    destruct v; try discriminate; cbn [fits raw] in *.
  - (* UInt *)
    rewrite !andb_true_iff, !Z.leb_le in Hf.
    destruct Hf as ((((Hw & Hlo) & Hhi) & Hz1) & Hz2).
    rewrite encode_UInt by assumption.
    rewrite (proj2 (in_range_spec _ _ z)) by lia.
    rewrite uint_fit_no_truncation by lia. split; [reflexivity | lia].
  - (* SInt *)
    rewrite !andb_true_iff, !Z.leb_le in Hf.
    destruct Hf as ((((Hw & Hlo) & Hhi) & Hz1) & Hz2).
    rewrite encode_SInt by assumption.
    rewrite (proj2 (in_range_spec _ _ z)) by lia.
    rewrite land_mask_mod by lia. split; [reflexivity |].
    apply Z.mod_pos_bound, pow2_pos. lia.
  - (* Buffer *)
    apply Z.eqb_eq in Hf. rewrite encode_Buffer by assumption.
    destruct (Z.ltb_spec ((width + 7) / 8) (Z.of_nat (length l))) as [Hlt | _].
    + exfalso. subst width.
      assert ((8 * Z.of_nat (length l) + 7) / 8 = Z.of_nat (length l))
        by (symmetry; apply Z.div_unique with (r := 7); lia).
      lia.
    + split; [reflexivity |]. subst width. apply le_int_bound.
  - (* Boolean *)
    cbn. rewrite andb_false_r. cbn. rewrite lshift_ok by assumption.
    split; [reflexivity |]. destruct b; cbn; lia.
  - (* Bitset *)
    rewrite andb_true_iff, Z.leb_le, Z.ltb_lt in Hf.
    cbn. rewrite andb_false_r. cbn. rewrite lshift_ok by assumption.
    split; [reflexivity | lia].
  - (* Enum *)
    rewrite andb_true_iff, Z.leb_le, Z.ltb_lt in Hf.
    cbn. rewrite andb_false_r. cbn. rewrite lshift_ok by assumption.
    split; [reflexivity | lia].
Qed.

(** What [decode] returns when the window holds the bits of a fitting
    value. *)
Lemma decode_fits (o : Z) (m : Meta) (opt : bool) (v : Value) (w D max_idx : Z) :
  field_width m = Some w -> fits m v = true -> 0 <= o -> o <= max_idx ->
  Z.land (Z.shiftr D o) (2 ^ w - 1) = raw m v ->
  decode (mkSignal o m opt) D max_idx = Ok v.
Proof.
  intros Hw Hf Ho Hm Hraw.
  destruct m; cbn in Hw; try discriminate; injection Hw as <-;
    destruct v; try discriminate; cbn [fits raw] in *.
  - (* UInt *)
    rewrite !andb_true_iff, !Z.leb_le in Hf.
    destruct Hf as ((((Hw & Hlo) & Hhi) & Hz1) & Hz2).
    cbn. destruct (Z.ltb_spec max_idx o); [lia |].
    rewrite rshift_ok by lia. cbn. rewrite mask_ok by lia. cbn.
    now rewrite Hraw.
  - (* SInt *)
    rewrite !andb_true_iff, !Z.leb_le in Hf.
    destruct Hf as ((((Hw & Hlo) & Hhi) & Hz1) & Hz2).
    rewrite decode_SInt by assumption. cbv zeta. rewrite Hraw.
    now rewrite sign_extend_mod by lia.
  - (* Buffer *)
    apply Z.eqb_eq in Hf.
    rewrite decode_Buffer by lia. rewrite Hraw. subst width.
    replace ((8 * Z.of_nat (length l) + 7) / 8) with (Z.of_nat (length l))
      by (apply Z.div_unique with (r := 7); lia).
    rewrite Nat2Z.id, le_bytes_le_int by lia.
    now rewrite Nat.sub_diag, app_nil_r.
  - (* Boolean *)
    cbn. destruct (Z.ltb_spec max_idx o); [lia |].
    rewrite rshift_ok by lia. cbn.
    change (2 ^ 1 - 1) with 1 in Hraw. rewrite Hraw. now destruct b.
  - (* Bitset *)
    rewrite andb_true_iff, Z.leb_le, Z.ltb_lt in Hf.
    pose proof (pow2_bound_width z width Hf).
    cbn. destruct (Z.ltb_spec max_idx o); [lia |].
    rewrite rshift_ok by lia. cbn. rewrite mask_ok by lia. cbn.
    now rewrite Hraw.
  - (* Enum *)
    rewrite andb_true_iff, Z.leb_le, Z.ltb_lt in Hf.
    pose proof (pow2_bound_width z width Hf).
    cbn. destruct (Z.ltb_spec max_idx o); [lia |].
    rewrite rshift_ok by lia. cbn. rewrite mask_ok by lia. cbn.
    now rewrite Hraw.
Qed.

(** Reading the window [o, o + w) of [low + x * 2^o + 2^(o+w) * q]. *)
Lemma extract_window (low x q o w : Z) :
  0 <= o -> 0 <= w -> 0 <= low < 2 ^ o -> 0 <= x < 2 ^ w ->
  Z.land (Z.shiftr (low + x * 2 ^ o + 2 ^ (o + w) * q) o) (2 ^ w - 1) = x.
Proof.
  intros Ho Hw Hlow Hx.
  rewrite Z.shiftr_div_pow2, land_mask_mod by assumption.
  rewrite Z.pow_add_r by assumption.
  replace (low + x * 2 ^ o + 2 ^ o * 2 ^ w * q)
    with ((x + q * 2 ^ w) * 2 ^ o + low) by ring.
  rewrite Z.div_add_l by lia.
  rewrite Z.div_small by assumption. rewrite Z.add_0_r.
  rewrite Z.mod_add by lia. now apply Z.mod_small.
Qed.

(** The payload of fields at or above [base] is a multiple of [2^base]. *)
Lemma packed_multiple (l : list (string * Signal)) :
  forall vs base,
    0 <= base -> monotone base l = true ->
    Forall2 (fun f v => fits (sig_meta (snd f)) v = true) l vs ->
    exists q, 0 <= q /\ packed l vs = 2 ^ base * q.
Proof.
  induction l as [| [name [o m opt]] rest IH]; intros vs base Hb Hmono Hfit.
  - exists 0. cbn. split; lia.
  - inversion Hfit as [| ? v ? vr Hv Hrest]; subst. cbn [snd sig_meta] in Hv.
    cbn [monotone] in Hmono.
    destruct (field_width m) as [w |] eqn:Hw; [| discriminate].
    rewrite !andb_true_iff, !Z.leb_le in Hmono. destruct Hmono as ((Hbo & Hw0) & Hmono).
    destruct (IH vr (o + w) ltac:(lia) Hmono Hrest) as (q & Hq & Hp).
    destruct (encode_fits o m opt name v w Hw Hv ltac:(lia)) as (_ & Hraw).
    cbn [packed]. rewrite Hp.
    exists (raw m v * 2 ^ (o - base) + 2 ^ (o + w - base) * q).
    pose proof (pow2_pos (o - base) ltac:(lia)).
    pose proof (pow2_pos (o + w - base) ltac:(lia)).
    split; [nia |].
    replace o with (base + (o - base)) at 1 by lia.
    replace (o + w) with (base + (o + w - base)) at 1 by lia.
    rewrite !Z.pow_add_r by lia. ring.
Qed.

(** The loop of [to_wrapper] on fitting values: the payload is the sum of
    the shifted windows, and stays below the end of the layout. *)
Lemma to_wrapper_fields_packed (self : Value) (max_len : Z)
    (l : list (string * Signal)) :
  forall vs base dlc0 acc,
    0 <= base -> 0 <= acc < 2 ^ base -> monotone base l = true ->
    Forall2 (fun f v => getattr self (fst f) = Ok v) l vs ->
    Forall2 (fun f v => fits (sig_meta (snd f)) v = true) l vs ->
    exists dlc1,
      to_wrapper_fields self max_len l dlc0 acc = Ok (dlc1, acc + packed l vs)
      /\ 0 <= acc + packed l vs < 2 ^ layout_end base l
      /\ base <= layout_end base l.
Proof.
  induction l as [| [name [o m opt]] rest IH]; intros vs base dlc0 acc Hb Hacc Hmono Hget Hfit.
  - inversion Hget; subst. cbn. exists dlc0. rewrite Z.add_0_r. repeat split; lia.
  - inversion Hget as [| ? v ? vr Hg Hgrest]; subst.
    inversion Hfit as [| ? ? ? ? Hv Hfrest]; subst.
    cbn [fst snd sig_meta] in *.
    cbn [monotone] in Hmono. cbn [layout_end].
    destruct (field_width m) as [w |] eqn:Hw; [| discriminate].
    rewrite !andb_true_iff, !Z.leb_le in Hmono. destruct Hmono as ((Hbo & Hw0) & Hmono).
    destruct (encode_fits o m opt name v w Hw Hv ltac:(lia)) as (Henc & Hraw).
    assert (Hacc' : 0 <= acc < 2 ^ o).
    { split; [lia |]. apply Z.lt_le_trans with (2 ^ base); [lia |].
      apply Z.pow_le_mono_r; lia. }
    assert (Hnext : 0 <= acc + raw m v * 2 ^ o < 2 ^ (o + w)).
    { rewrite Z.pow_add_r by lia. pose proof (pow2_pos o ltac:(lia)). nia. }
    cbn [to_wrapper_fields]. rewrite Hg. cbn [bind sig_optional].
    rewrite (fits_not_None m v Hv), andb_false_r.
    rewrite Henc. cbn [bind].
    rewrite Z.lor_comm, lor_shiftl_add by lia.
    replace (raw m v * 2 ^ o + acc) with (acc + raw m v * 2 ^ o) by ring.
    destruct (IH vr (o + w) (if opt then max_len else dlc0) (acc + raw m v * 2 ^ o)
                ltac:(lia) Hnext Hmono Hgrest Hfrest) as (dlc1 & Hrun & Hbound & Hend).
    exists dlc1. cbn [packed]. rewrite Z.add_assoc. repeat split; (assumption || lia).
Qed.

(** The loop of [from_wrapper] on such a payload, with every field inside
    the frame limit, returns the values. *)
Lemma from_wrapper_fields_packed (max_idx : Z) (l : list (string * Signal)) :
  forall vs base low,
    0 <= base -> 0 <= low < 2 ^ base -> monotone base l = true ->
    Forall2 (fun f v => fits (sig_meta (snd f)) v = true) l vs ->
    Forall (fun f => sig_offset (snd f) <= max_idx) l ->
    from_wrapper_fields l (low + packed l vs) max_idx
    = Ok (combine (map fst l) vs).
Proof.
  induction l as [| [name [o m opt]] rest IH]; intros vs base low Hb Hlow Hmono Hfit Hin.
  - reflexivity.
  - inversion Hfit as [| ? v ? vr Hv Hfrest]; subst.
    inversion Hin as [| ? ? Ho Hinrest]; subst.
    cbn [fst snd sig_meta sig_offset] in *.
    cbn [monotone] in Hmono.
    destruct (field_width m) as [w |] eqn:Hw; [| discriminate].
    rewrite !andb_true_iff, !Z.leb_le in Hmono. destruct Hmono as ((Hbo & Hw0) & Hmono).
    destruct (encode_fits o m opt name v w Hw Hv ltac:(lia)) as (_ & Hraw).
    destruct (packed_multiple rest vr (o + w) ltac:(lia) Hmono Hfrest) as (q & Hq & Hp).
    assert (Hlow' : 0 <= low < 2 ^ o).
    { split; [lia |]. apply Z.lt_le_trans with (2 ^ base); [lia |].
      apply Z.pow_le_mono_r; lia. }
    assert (Hnext : 0 <= low + raw m v * 2 ^ o < 2 ^ (o + w)).
    { rewrite Z.pow_add_r by lia. pose proof (pow2_pos o ltac:(lia)). nia. }
    cbn [from_wrapper_fields packed map combine].
    rewrite (decode_fits o m opt v w _ max_idx Hw Hv) by
      (try lia; rewrite Hp, Z.add_assoc; apply extract_window; (assumption || lia)).
    cbn [bind]. rewrite Z.add_assoc.
    rewrite (IH vr (o + w) (low + raw m v * 2 ^ o)) by (assumption || lia).
    reflexivity.
Qed.

(** Reading the attributes of a record back in order. *)
Lemma getattr_fields (vals : list (string * Value)) :
  List.NoDup (map fst vals) ->
  Forall (fun nv => getattr (VObj vals) (fst nv) = Ok (snd nv)) vals.
Proof.
  cbn [getattr]. induction vals as [| [n v] vals IH]; intros Hnd; constructor.
  - cbn. now rewrite String.eqb_refl.
  - inversion Hnd as [| ? ? Hnotin Hnd']; subst.
    specialize (IH Hnd'). rewrite List.Forall_forall in IH |- *.
    intros [n' v'] Hin. cbn.
    destruct (String.eqb_spec n n') as [-> | _].
    + exfalso. apply Hnotin. apply List.in_map_iff. now exists (n', v').
    + exact (IH (n', v') Hin).
Qed.

(** A record that holds one fitting value per field of the class, in
    the order of the fields. *)
Lemma record_fields (l : list (string * Signal)) (vals : list (string * Value)) :
  map fst vals = map fst l -> List.NoDup (map fst vals) ->
  Forall2 (fun f v => getattr (VObj vals) (fst f) = Ok v) l (map snd vals)
  /\ combine (map fst l) (map snd vals) = vals.
Proof.
  intros Hnames Hnd. pose proof (getattr_fields vals Hnd) as Hget.
  remember (VObj vals) as self eqn:Hself. clear Hself Hnd.
  revert l Hnames. induction vals as [| [n v] vals IH]; intros l Hnames.
  - destruct l; [| discriminate]. split; [constructor | reflexivity].
  - destruct l as [| [n' s] l]; [discriminate |].
    cbn in Hnames. injection Hnames as -> Hnames.
    inversion Hget as [| ? ? Hh Ht]; subst.
    destruct (IH Ht l Hnames) as (IH1 & IH2).
    split; [constructor; assumption | cbn; now rewrite IH2].
Qed.

End ScalarFields.

(** ** Round trips of records through frames and setting payloads *)

Module RoundTrips.
Import Py Utils Model Wire Layout BitFacts IntSignals BufSignals ScalarFields.

Lemma Forall2_snd (l : list (string * Signal)) (vals : list (string * Value)) :
  Forall2 (fun f nv => fits (sig_meta (snd f)) (snd nv) = true) l vals ->
  Forall2 (fun f v => fits (sig_meta (snd f)) v = true) l (map snd vals).
Proof. induction 1; cbn; constructor; assumption. Qed.

Lemma layout_end_ge (l : list (string * Signal)) :
  forall base, monotone base l = true -> base <= layout_end base l.
Proof.
  induction l as [| [name [o m opt]] rest IH]; intros base Hmono; cbn in *; [lia |].
  destruct (field_width m) as [w |]; [| discriminate].
  rewrite !andb_true_iff, !Z.leb_le in Hmono. destruct Hmono as ((Hbo & Hw0) & Hmono).
  specialize (IH _ Hmono). lia.
Qed.

(** In a monotone layout every field starts before the end. *)
Lemma monotone_offsets (l : list (string * Signal)) :
  forall base, monotone base l = true ->
    Forall (fun f => sig_offset (snd f) <= layout_end base l) l.
Proof.
  induction l as [| [name [o m opt]] rest IH]; intros base Hmono; [constructor |].
  cbn in Hmono |- *.
  destruct (field_width m) as [w |]; [| discriminate].
  rewrite !andb_true_iff, !Z.leb_le in Hmono. destruct Hmono as ((Hbo & Hw0) & Hmono).
  constructor.
  - cbn. pose proof (layout_end_ge rest _ Hmono). lia.
  - apply IH, Hmono.
Qed.

(** X1: a record of fitting values, one per field of a message class whose
    scalar fields lie in increasing non-overlapping windows inside the
    frame, is encoded by [to_wrapper] to a frame that [from_wrapper]
    decodes back to the same record. *)
Theorem message_roundtrip (cls : MessageClass) (vals : list (string * Value))
    (dev_id : Z) (dev_type : option Z) :
  monotone 0 (hints cls) = true ->
  map fst vals = map fst (hints cls) -> List.NoDup (map fst vals) ->
  Forall2 (fun f nv => fits (sig_meta (snd f)) (snd nv) = true) (hints cls) vals ->
  Forall (fun f => sig_offset (snd f) <= 8 * min_length (meta__ cls)
                   /\ sig_offset (snd f) <= 8 * max_length (meta__ cls)) (hints cls) ->
  exists w,
    to_wrapper cls (VObj vals) dev_id dev_type = Ok w
    /\ data w = packed (hints cls) (map snd vals)
    /\ from_wrapper cls w = Ok (VObj vals).
Proof.
  intros Hmono Hnames Hnd Hfit Hin.
  destruct (record_fields (hints cls) vals Hnames Hnd) as (Hget & Hzip).
  apply Forall2_snd in Hfit.
  destruct (to_wrapper_fields_packed (VObj vals) (max_length (meta__ cls)) (hints cls)
              (map snd vals) 0 (min_length (meta__ cls)) 0
              ltac:(lia) ltac:(cbn; lia) Hmono Hget Hfit) as (dlc1 & Hrun & _ & _).
  pose proof (Frames.to_wrapper_fields_dlc _ _ _ _ _ _ Hrun) as Hdlc. cbn [fst] in Hdlc.
  unfold to_wrapper. rewrite Hrun. cbn [bind fst snd].
  eexists. split; [reflexivity |]. cbn [data]. split; [apply Z.add_0_l |].
  unfold from_wrapper. cbn [data dlc].
  assert (Hlim : Forall (fun f => sig_offset (snd f) <= dlc1 * 8) (hints cls)).
  { eapply List.Forall_impl; [| exact Hin]. cbn. intros f [H1 H2].
    rewrite Hdlc. destruct (existsb _ _); lia. }
  rewrite (from_wrapper_fields_packed (dlc1 * 8) (hints cls) (map snd vals) 0 0
             ltac:(lia) ltac:(cbn; lia) Hmono Hfit Hlim).
  cbn [bind]. now rewrite Hzip.
Qed.

(** Scenario S2: [PositionOutput] with [(-1, 0, 8192)]. *)
Lemma message_roundtrip_witness :
  exists w,
    to_wrapper Schemas2.PositionOutput
      (VObj [("relative_position"%string, VInt (-1));
             ("magnet_status"%string, VInt 0);
             ("absolute_position"%string, VInt 8192)]) 3 None = Ok w
    /\ data w = 0x8000FFFFFFFF
    /\ from_wrapper Schemas2.PositionOutput w
       = Ok (VObj [("relative_position"%string, VInt (-1));
                   ("magnet_status"%string, VInt 0);
                   ("absolute_position"%string, VInt 8192)]).
Proof.
  apply (message_roundtrip Schemas2.PositionOutput
           [("relative_position"%string, VInt (-1));
            ("magnet_status"%string, VInt 0);
            ("absolute_position"%string, VInt 8192)] 3 None).
  - reflexivity.
  - reflexivity.
  - repeat constructor; cbn; intuition discriminate.
  - repeat constructor.
  - repeat constructor; cbn; lia.
Defined.

(** Without a null optional field, [BaseSetting.encode] accumulates the
    payload that [to_wrapper] accumulates. *)
Lemma setting_encode_fields_as_wrapper (self : Value) (max_len : Z)
    (l : list (string * Signal)) :
  forall dlc0 acc r,
    to_wrapper_fields self max_len l dlc0 acc = Ok r ->
    Forall (fun f => null_optional self f = false) l ->
    setting_encode_fields self l acc = Ok (snd r).
Proof.
  induction l as [| [name sig] rest IH]; intros dlc0 acc r Hrun Hnn.
  - cbn in Hrun. injection Hrun as <-. reflexivity.
  - inversion Hnn as [| ? ? Hn Hnrest]; subst.
    unfold null_optional in Hn. cbn [fst snd] in Hn.
    cbn [to_wrapper_fields setting_encode_fields] in *.
    destruct (getattr self name) as [value |]; [| discriminate].
    cbn [bind] in *. rewrite Hn in Hrun.
    destruct (encode sig name value) as [e |]; [| discriminate].
    cbn [bind] in *. eapply IH; eassumption.
Qed.

Lemma fits_not_null (self : Value) (l : list (string * Signal)) (vs : list Value) :
  Forall2 (fun f v => getattr self (fst f) = Ok v) l vs ->
  Forall2 (fun f v => fits (sig_meta (snd f)) v = true) l vs ->
  Forall (fun f => null_optional self f = false) l.
Proof.
  intros Hget. induction Hget as [| f v l vs Hg _ IH]; intros Hfit; constructor.
  - inversion Hfit; subst. unfold null_optional. rewrite Hg.
    erewrite fits_not_None by eassumption. apply andb_false_r.
  - inversion Hfit; subst. now apply IH.
Qed.

(** X2: a record of fitting values for a setting class whose scalar fields
    lie in increasing non-overlapping windows within 48 bits is encoded by
    [BaseSetting.encode] to exactly 6 bytes, which [BaseSetting.decode]
    turns back into the same record. *)
Theorem setting_roundtrip (hints : list (string * Signal))
    (vals : list (string * Value)) :
  monotone 0 hints = true -> layout_end 0 hints <= 48 ->
  map fst vals = map fst hints -> List.NoDup (map fst vals) ->
  Forall2 (fun f nv => fits (sig_meta (snd f)) (snd nv) = true) hints vals ->
  exists b,
    setting_encode hints (VObj vals) = Ok b
    /\ length b = 6%nat
    /\ setting_decode hints b = Ok (VObj vals).
Proof.
  intros Hmono Hend Hnames Hnd Hfit.
  destruct (record_fields hints vals Hnames Hnd) as (Hget & Hzip).
  apply Forall2_snd in Hfit.
  destruct (to_wrapper_fields_packed (VObj vals) 0 hints (map snd vals) 0 0 0
              ltac:(lia) ltac:(cbn; lia) Hmono Hget Hfit) as (dlc1 & Hrun & Hbound & _).
  pose proof (setting_encode_fields_as_wrapper _ _ _ _ _ _ Hrun
                (fits_not_null _ _ _ Hget Hfit)) as Henc.
  cbn [snd] in Henc. rewrite Z.add_0_l in *.
  assert (Hlt : 0 <= packed hints (map snd vals) < 2 ^ 48).
  { split; [lia |]. apply Z.lt_le_trans with (2 ^ layout_end 0 hints); [lia |].
    apply Z.pow_le_mono_r; lia. }
  change (2 ^ 48) with 281474976710656 in Hlt.
  exists (le_bytes 6 (packed hints (map snd vals))). split; [| split].
  - unfold setting_encode. rewrite Henc. cbn [bind]. unfold to_bytes.
    change (2 ^ (8 * 6)) with 281474976710656.
    destruct (Z.ltb_spec 6 0); [lia |].
    destruct (Z.ltb_spec (packed hints (map snd vals)) 0); [lia |].
    destruct (Z.leb_spec 281474976710656 (packed hints (map snd vals))); [lia |].
    reflexivity.
  - apply length_le_bytes.
  - unfold setting_decode.
    rewrite firstn_all2 by (rewrite length_le_bytes; lia).
    rewrite FloatSignals.le_int_le_bytes.
    change (2 ^ (8 * Z.of_nat 6)) with 281474976710656.
    rewrite Z.mod_small by lia.
    assert (Hlim : Forall (fun f => sig_offset (snd f) <= 48) hints).
    { eapply List.Forall_impl; [| exact (monotone_offsets hints 0 Hmono)].
      cbn. intros. lia. }
    pose proof (from_wrapper_fields_packed 48 hints (map snd vals) 0 0
                  ltac:(lia) ltac:(cbn; lia) Hmono Hfit Hlim) as Hdec.
    rewrite Z.add_0_l in Hdec. rewrite Hdec. cbn [bind]. now rewrite Hzip.
Qed.

(** The [CanId] setting of [canandmag]. *)
Lemma setting_roundtrip_witness :
  exists b,
    setting_encode Schemas2.CanId (VObj [("value"%string, VInt 17)]) = Ok b
    /\ length b = 6%nat
    /\ setting_decode Schemas2.CanId b = Ok (VObj [("value"%string, VInt 17)]).
Proof.
  apply (setting_roundtrip Schemas2.CanId [("value"%string, VInt 17)]).
  - reflexivity.
  - cbn. lia.
  - reflexivity.
  - repeat constructor. cbn. tauto.
  - repeat constructor.
Defined.

(** X3: every scalar signal returns a fitting value unchanged:
    [decode] of the payload emitted by [encode], with the signal inside
    the frame limit, is the value. *)
Theorem scalar_roundtrip (o : Z) (m : Meta) (opt : bool) (name : string)
    (v : Value) (max_idx : Z) :
  fits m v = true -> 0 <= o -> o <= max_idx ->
  exists p,
    encode (mkSignal o m opt) name v = Ok p
    /\ decode (mkSignal o m opt) p max_idx = Ok v.
Proof.
  intros Hfit Ho Hm. destruct (fits_scalar m v Hfit) as (w & Hw).
  destruct (encode_fits o m opt name v w Hw Hfit Ho) as (Henc & Hraw).
  exists (Z.shiftl (raw m v) o). split; [assumption |].
  apply (decode_fits o m opt v w); try assumption.
  rewrite shiftr_shiftl_same by assumption.
  rewrite land_mask_mod by (eapply pow2_bound_width; eassumption).
  apply Z.mod_small. assumption.
Qed.

(** The [absolute_position] field of [PositionOutput]. *)
Lemma scalar_roundtrip_witness :
  exists p,
    encode (mkSignal 34 (UInt 14 (Some 0) (Some 16383) 0 1 16384 0) false)
           "absolute_position" (VInt 8192) = Ok p
    /\ decode (mkSignal 34 (UInt 14 (Some 0) (Some 16383) 0 1 16384 0) false) p 48
       = Ok (VInt 8192).
Proof.
  apply (scalar_roundtrip 34 (UInt 14 (Some 0) (Some 16383) 0 1 16384 0) false
           "absolute_position" (VInt 8192) 48); [reflexivity | lia | lia].
Defined.

End RoundTrips.

(** ** Signals at the edges: unchecked indices, truthiness, windows, limits *)

Module SignalEdges.
Import Py Utils Model Wire Layout BitFacts IntSignals BufSignals ScalarFields.

(** X4: an [Enum] signal accepts every integer index without a membership
    or range check and emits it unmasked; [decode] keeps the low [w] bits,
    so the index comes back reduced modulo [2^w]. *)
Theorem enum_index_unchecked (w d o : Z) (opt : bool) (name : string) (v max_idx : Z) :
  0 <= w -> 0 <= o -> o <= max_idx ->
  encode (mkSignal o (Enum w d) opt) name (VInt v) = Ok (Z.shiftl v o)
  /\ decode (mkSignal o (Enum w d) opt) (Z.shiftl v o) max_idx = Ok (VInt (v mod 2 ^ w)).
Proof.
  intros Hw Ho Hm. split.
  - cbn. rewrite andb_false_r. cbn. now rewrite lshift_ok.
  - cbn. destruct (Z.ltb_spec max_idx o); [lia |].
    rewrite rshift_ok by lia. cbn. rewrite mask_ok by lia. cbn.
    now rewrite shiftr_shiftl_same, land_mask_mod by lia.
Qed.

(** Index 0x106 in the 8-bit [setting_index] of [SettingCommand] comes
    back as 0x06. *)
Lemma enum_index_unchecked_witness :
  decode (mkSignal 8 (Enum 8 0) true) (Z.shiftl 0x106 8) 64 = Ok (VInt (0x106 mod 2 ^ 8)).
Proof.
  refine (proj2 (enum_index_unchecked 8 0 8 true "setting_index" 0x106 64 _ _ _)); lia.
Defined.

(** X5: a [Boolean] signal never refuses a value: whatever is passed
    (except [None] in an optional field) is sent as its truth value, and
    comes back as that [bool]. *)
Theorem boolean_truthiness (d : bool) (o : Z) (opt : bool) (name : string)
    (v : Value) (max_idx : Z) :
  0 <= o -> o <= max_idx -> opt && is_None v = false ->
  encode (mkSignal o (Boolean d) opt) name v = Ok (Z.shiftl (Z.b2z (truthy v)) o)
  /\ decode (mkSignal o (Boolean d) opt) (Z.shiftl (Z.b2z (truthy v)) o) max_idx
     = Ok (VBool (truthy v)).
Proof.
  intros Ho Hm Hopt. split.
  - cbn. rewrite Hopt. cbn. now rewrite lshift_ok.
  - cbn. destruct (Z.ltb_spec max_idx o); [lia |].
    rewrite rshift_ok by lia. cbn. rewrite shiftr_shiftl_same by lia.
    now destruct (truthy v).
Qed.

(** The integer 3 in the [synch_hold] flag is sent as [True]. *)
Lemma boolean_truthiness_witness :
  decode (mkSignal 1 (Boolean false) false) (Z.shiftl (Z.b2z (truthy (VInt 3))) 1) 8
  = Ok (VBool (truthy (VInt 3))).
Proof.
  refine (proj2 (boolean_truthiness false 1 false "synch_hold" (VInt 3) 8 _ _ _));
    (lia || reflexivity).
Defined.

(** X6: whatever its bounds, a [UInt] or [SInt] signal only writes inside
    its window: the contribution of an accepted integer, OR-ed into a
    payload, leaves every bit outside [offset, offset + w) unchanged. *)
Theorem int_field_window (signed : bool) (w : Z) (mn mx : option Z)
    (d fn fd off o : Z) (opt : bool) (name : string) (v e : Z) :
  (if signed then 1 <= w else 0 <= w) -> 0 <= o ->
  encode (mkSignal o (if signed then SInt w mn mx d fn fd off
                      else UInt w mn mx d fn fd off) opt) name (VInt v) = Ok e ->
  forall payload i, ~ (o <= i < o + w) ->
    Z.testbit (Z.lor payload e) i = Z.testbit payload i.
Proof.
  intros Hw Ho Henc payload i Hi.
  assert (He : e = Z.shiftl (Z.land v (2 ^ w - 1)) o).
  { destruct signed; [rewrite encode_SInt in Henc by assumption
                     | rewrite encode_UInt in Henc by assumption];
      match type of Henc with (if ?c then _ else _) = _ => destruct c end;
      congruence. }
  assert (Hw0 : 0 <= w) by (destruct signed; lia).
  subst e. rewrite land_mask_mod by assumption.
  pose proof (Z.mod_pos_bound v (2 ^ w) (pow2_pos w Hw0)) as Hb.
  destruct (Z.lt_ge_cases i 0) as [Hneg | Hnn].
  { now rewrite !Z.testbit_neg_r by assumption. }
  rewrite Z.lor_spec.
  destruct (Z.lt_ge_cases i o).
  - rewrite Z.shiftl_spec_low by assumption. apply orb_false_r.
  - rewrite Z.shiftl_spec by assumption.
    rewrite (testbit_above (v mod 2 ^ w) w (i - o)) by (try assumption; lia).
    apply orb_false_r.
Qed.

(** [-1] in an 8-bit signed field at offset 16 leaves bit 24 alone. *)
Lemma int_field_window_witness :
  Z.testbit (Z.lor 0 (Z.shiftl (Z.land (-1) (2 ^ 8 - 1)) 16)) 24 = Z.testbit 0 24.
Proof.
  refine (int_field_window true 8 (Some (-128)) (Some 127) 0 1 1 0 16 false
            "temperature" (-1) _ _ _ _ 0 24 _); (lia || reflexivity).
Defined.

(** X7: the frame limit is inclusive.  A scalar field that starts exactly
    at [max_idx], one bit past the last bit of the payload, is still
    decoded: from the zero bits above the payload it yields a zero value,
    not [None]. *)
Theorem decode_at_limit (o : Z) (m : Meta) (opt : bool) (w D : Z) :
  field_width m = Some w ->
  match m with SInt _ _ _ _ _ _ _ => 1 <= w | _ => 0 <= w end ->
  0 <= o -> 0 <= D < 2 ^ o ->
  exists v, decode (mkSignal o m opt) D o = Ok v /\ v <> VNone /\ raw m v = 0.
Proof.
  intros Hw Hpos Ho HD.
  assert (Hsh : Z.shiftr D o = 0)
    by (rewrite Z.shiftr_div_pow2 by assumption; now apply Z.div_small).
  destruct m; cbn in Hw; try discriminate; injection Hw as <-.
  - exists (VInt 0). cbn. destruct (Z.ltb_spec o o); [lia |].
    rewrite rshift_ok by lia. cbn. rewrite mask_ok by lia. cbn.
    rewrite Hsh, Z.land_0_l. repeat split; discriminate.
  - exists (VInt 0). rewrite decode_SInt by lia. cbv zeta.
    rewrite Hsh, Z.land_0_l.
    pose proof (pow2_pos (width - 1) ltac:(lia)).
    destruct (Z.leb_spec (2 ^ (width - 1)) 0); [lia |].
    repeat split; discriminate.
  - exists (VBytes (le_bytes (Z.to_nat ((width + 7) / 8)) 0)).
    rewrite decode_Buffer by lia. rewrite Hsh, Z.land_0_l.
    repeat split; try discriminate. cbn [raw].
    rewrite FloatSignals.le_int_le_bytes. apply Z.mod_0_l.
    pose proof (pow2_pos (8 * Z.of_nat (Z.to_nat ((width + 7) / 8)))). lia.
  - exists (VBool false). cbn. destruct (Z.ltb_spec o o); [lia |].
    rewrite rshift_ok by lia. cbn. rewrite Hsh. cbn. repeat split; discriminate.
  - exists (VInt 0). cbn. destruct (Z.ltb_spec o o); [lia |].
    rewrite rshift_ok by lia. cbn. rewrite mask_ok by lia. cbn.
    rewrite Hsh, Z.land_0_l. repeat split; discriminate.
  - exists (VInt 0). cbn. destruct (Z.ltb_spec o o); [lia |].
    rewrite rshift_ok by lia. cbn. rewrite mask_ok by lia. cbn.
    rewrite Hsh, Z.land_0_l. repeat split; discriminate.
Qed.

(** [SettingCommand] sent without a [setting_index] has DLC 1; its
    [setting_index], at offset 8 = 8 * DLC, is decoded. *)
Lemma decode_at_limit_witness :
  exists v, decode (mkSignal 8 (Enum 8 0) true) 0x02 8 = Ok v
            /\ v <> VNone /\ raw (Enum 8 0) v = 0.
Proof.
  apply (decode_at_limit 8 (Enum 8 0) true 8 0x02); [reflexivity | lia | lia |].
  change (2 ^ 8) with 256. lia.
Defined.

(** The record that went out with [setting_index = None] comes back with
    [setting_index = 0]. *)
Example setting_command_none_comes_back_zero :
  (let! w := to_wrapper Schemas.SettingCommand
               (VObj [("control_flag"%string, VInt 0x02);
                      ("setting_index"%string, VNone)]) 3 None in
   from_wrapper Schemas.SettingCommand w)
  = Ok (VObj [("control_flag"%string, VInt 0x02); ("setting_index"%string, VInt 0)]).
Proof. reflexivity. Qed.

(** Beyond the limit every signal decodes to [None]. *)
Lemma decode_beyond_limit (o : Z) (m : Meta) (opt : bool) (D max_idx : Z) :
  max_idx < o -> decode (mkSignal o m opt) D max_idx = Ok VNone.
Proof.
  intros H. destruct m; cbn; destruct (Z.ltb_spec max_idx o); (reflexivity || lia).
Qed.

(** X8: a short frame is no error to [from_wrapper].  Whenever it
    returns, the record has one attribute per field of the class, in
    order, and every field that starts beyond [8 * dlc] -- mandatory or
    optional -- is [None]. *)
Theorem from_wrapper_short_frame (cls : MessageClass) (msg : MessageWrapper)
    (attrs : list (string * Value)) :
  from_wrapper cls msg = Ok (VObj attrs) ->
  Forall2 (fun f nv => fst nv = fst f
                       /\ (8 * dlc msg < sig_offset (snd f) -> snd nv = VNone))
          (hints cls) attrs.
Proof.
  unfold from_wrapper. generalize (data msg) as D. generalize (hints cls) as l.
  intros l D H.
  destruct (from_wrapper_fields l D (dlc msg * 8)) as [out |] eqn:Hrun; [| discriminate].
  cbn [bind] in H. injection H as <-.
  revert out Hrun. induction l as [| [name [o m opt]] rest IH]; intros out Hrun.
  - cbn in Hrun. injection Hrun as <-. constructor.
  - cbn [from_wrapper_fields] in Hrun.
    destruct (decode (mkSignal o m opt) D (dlc msg * 8)) as [v |] eqn:Hdec; [| discriminate].
    cbn [bind] in Hrun.
    destruct (from_wrapper_fields rest D (dlc msg * 8)) as [more |]; [| discriminate].
    cbn [bind] in Hrun. injection Hrun as <-.
    constructor; [| now apply IH].
    cbn. split; [reflexivity |]. intros Hbeyond.
    rewrite decode_beyond_limit in Hdec by lia. congruence.
Qed.

(** A [Status] frame cut to one byte: [sticky_faults], at offset 8, is
    decoded from the zero bits above the payload (the limit is inclusive);
    [temperature], at offset 16, is [None]. *)
Lemma from_wrapper_short_frame_witness :
  Forall2 (fun f nv => fst nv = fst f
                       /\ (8 * 1 < sig_offset (snd f) -> snd nv = VNone))
          (hints Schemas2.Status)
          [("faults"%string, VInt 5); ("sticky_faults"%string, VInt 0);
           ("temperature"%string, VNone)].
Proof.
  exact (from_wrapper_short_frame Schemas2.Status (mkMessageWrapper 0x05 1 0x070E0183 0)
           _ eq_refl).
Defined.

End SignalEdges.

(** ** Structs and floats *)

Module Composite.
Import Py Utils Model Wire Layout BitFacts IntSignals BufSignals ScalarFields RoundTrips.

(** [decode] on a struct field: the sub-signals are decoded like the
    fields of a message, on the payload shifted down to the struct and
    with the limit counted from the struct's offset. *)
Lemma decode_Struct (dtype : list (string * Signal)) (o : Z) (opt : bool)
    (D max_idx : Z) :
  0 <= o -> o <= max_idx ->
  decode (mkSignal o (Struct dtype) opt) D max_idx
  = let! sub := from_wrapper_fields dtype (Z.shiftr D o) (max_idx - o) in
    Ok (VObj sub).
Proof.
  intros Ho Hm. cbn [decode].
  destruct (Z.ltb_spec max_idx o); [lia |].
  rewrite rshift_ok by assumption. cbn [bind].
  f_equal. induction dtype as [| [n s] rest IH]; [reflexivity |].
  cbn [from_wrapper_fields]. now rewrite IH.
Qed.

(** [encode] on a struct field holding fitting values: the sub-signals
    are packed like the fields of a message, then shifted to the struct's
    offset. *)
Lemma encode_Struct_packed (dtype : list (string * Signal)) (o : Z) (opt : bool)
    (name : string) (vals : list (string * Value)) :
  0 <= o -> monotone 0 dtype = true ->
  map fst vals = map fst dtype -> List.NoDup (map fst vals) ->
  Forall2 (fun f nv => fits (sig_meta (snd f)) (snd nv) = true) dtype vals ->
  encode (mkSignal o (Struct dtype) opt) name (VObj vals)
  = Ok (Z.shiftl (packed dtype (map snd vals)) o).
Proof.
  intros Ho Hmono Hnames Hnd Hfit.
  destruct (record_fields dtype vals Hnames Hnd) as (Hget & _).
  apply Forall2_snd in Hfit.
  cbn [encode]. rewrite andb_false_r.
  remember (VObj vals) as self eqn:Hself. clear Hself Hnames Hnd.
  assert (Hloop : forall l vs base acc,
    0 <= base -> 0 <= acc < 2 ^ base -> monotone base l = true ->
    Forall2 (fun f v => getattr self (fst f) = Ok v) l vs ->
    Forall2 (fun f v => fits (sig_meta (snd f)) v = true) l vs ->
    (fix fields (ivalue : Z) (l0 : list (string * Signal)) {struct l0} : result Z :=
       match l0 with
       | [] => Ok ivalue
       | (subsig_name, subsig) :: rest =>
           let! subsig_value := getattr self subsig_name in
           let! e := encode subsig (name +:+ "." +:+ subsig_name) subsig_value in
           fields (Z.lor ivalue e) rest
       end) acc l = Ok (acc + packed l vs)).
  { induction l as [| [n [o' m opt']] rest IH]; intros vs base acc Hb Hacc Hm Hg Hf.
    - inversion Hg; subst. cbn. now rewrite Z.add_0_r.
    - inversion Hg as [| ? v ? vr Hgv Hgrest]; subst.
      inversion Hf as [| ? ? ? ? Hv Hfrest]; subst.
      cbn [fst snd sig_meta] in *. cbn [monotone] in Hm.
      destruct (field_width m) as [w |] eqn:Hw; [| discriminate].
      rewrite !andb_true_iff, !Z.leb_le in Hm. destruct Hm as ((Hbo & Hw0) & Hm).
      destruct (encode_fits o' m opt' (name +:+ "." +:+ n) v w Hw Hv ltac:(lia))
        as (Henc & Hraw).
      assert (Hacc' : 0 <= acc < 2 ^ o').
      { split; [lia |]. apply Z.lt_le_trans with (2 ^ base); [lia |].
        apply Z.pow_le_mono_r; lia. }
      assert (Hnext : 0 <= acc + raw m v * 2 ^ o' < 2 ^ (o' + w)).
      { rewrite Z.pow_add_r by lia. pose proof (pow2_pos o' ltac:(lia)). nia. }
      rewrite Hgv. cbn [bind]. rewrite Henc. cbn [bind].
      rewrite Z.lor_comm, lor_shiftl_add by lia.
      replace (raw m v * 2 ^ o' + acc) with (acc + raw m v * 2 ^ o') by ring.
      rewrite (IH vr (o' + w)) by (assumption || lia).
      cbn [packed]. now rewrite Z.add_assoc. }
  rewrite (Hloop dtype (map snd vals) 0 0) by (assumption || cbn; lia).
  cbn [bind]. rewrite Z.add_0_l. now apply lshift_ok.
Qed.

(** X9: a struct signal is coded as if its sub-signals were inlined at the
    struct's offset.  For a struct of scalar sub-signals in increasing
    non-overlapping windows and a record of fitting values, [encode]
    emits the packed sub-signals shifted to the struct's offset, and
    [decode], with every sub-signal inside the limit, returns the record. *)
Theorem struct_roundtrip (dtype : list (string * Signal)) (o : Z) (opt : bool)
    (name : string) (vals : list (string * Value)) (max_idx : Z) :
  0 <= o -> monotone 0 dtype = true ->
  map fst vals = map fst dtype -> List.NoDup (map fst vals) ->
  Forall2 (fun f nv => fits (sig_meta (snd f)) (snd nv) = true) dtype vals ->
  Forall (fun f => o + sig_offset (snd f) <= max_idx) dtype -> o <= max_idx ->
  encode (mkSignal o (Struct dtype) opt) name (VObj vals)
  = Ok (Z.shiftl (packed dtype (map snd vals)) o)
  /\ decode (mkSignal o (Struct dtype) opt)
            (Z.shiftl (packed dtype (map snd vals)) o) max_idx
     = Ok (VObj vals).
Proof.
  intros Ho Hmono Hnames Hnd Hfit Hlim Hm.
  split; [now apply encode_Struct_packed |].
  destruct (record_fields dtype vals Hnames Hnd) as (_ & Hzip).
  apply Forall2_snd in Hfit.
  rewrite decode_Struct by assumption.
  rewrite shiftr_shiftl_same by assumption.
  assert (Hlim' : Forall (fun f => sig_offset (snd f) <= max_idx - o) dtype).
  { eapply List.Forall_impl; [| exact Hlim]. cbn. intros. lia. }
  pose proof (from_wrapper_fields_packed (max_idx - o) dtype (map snd vals) 0 0
                ltac:(lia) ltac:(cbn; lia) Hmono Hfit Hlim') as Hdec.
  rewrite Z.add_0_l in Hdec. rewrite Hdec. cbn [bind]. now rewrite Hzip.
Qed.

(** The [flags] struct of [SetSetting], at offset 56. *)
Lemma struct_roundtrip_witness :
  decode (mkSignal 56 (Struct Schemas2.SettingFlags) false)
         (Z.shiftl (packed Schemas2.SettingFlags
                      (map snd [("ephemeral"%string, VBool false);
                                ("synch_hold"%string, VBool true);
                                ("synch_msg_count"%string, VInt 3)])) 56) 64
  = Ok (VObj [("ephemeral"%string, VBool false);
              ("synch_hold"%string, VBool true);
              ("synch_msg_count"%string, VInt 3)]).
Proof.
  refine (proj2 (struct_roundtrip Schemas2.SettingFlags 56 false "flags"
                   [("ephemeral"%string, VBool false);
                    ("synch_hold"%string, VBool true);
                    ("synch_msg_count"%string, VInt 3)] 64 _ _ _ _ _ _ _)).
  - lia.
  - reflexivity.
  - reflexivity.
  - repeat constructor; cbn; intuition discriminate.
  - repeat constructor.
  - repeat constructor; cbn; lia.
  - lia.
Defined.

(** X10: decoding a 32- or 64-bit float field never fails: the masked bits
    always fit the 4 or 8 bytes that are reinterpreted.  A float field of
    any other width than 24, 32 or 64 is an invalid-size [ValueError]. *)
Theorem float_decode_widths (w : Z) (mn mx : option float) (dv : float) (nan : bool)
    (fn fd : Z) (off : float) (o : Z) (opt : bool) (D max_idx : Z) :
  0 <= w -> 0 <= o -> o <= max_idx ->
  (w = 32 ->
   decode (mkSignal o (Float w mn mx dv nan fn fd off) opt) D max_idx
   = Ok (VFloat (single_of_bits (Z.land (Z.shiftr D o) (2 ^ 32 - 1)))))
  /\ (w = 64 ->
      decode (mkSignal o (Float w mn mx dv nan fn fd off) opt) D max_idx
      = Ok (VFloat (double_of_bits (Z.land (Z.shiftr D o) (2 ^ 64 - 1)))))
  /\ (w <> 24 -> w <> 32 -> w <> 64 ->
      decode (mkSignal o (Float w mn mx dv nan fn fd off) opt) D max_idx
      = Raise InvalidWidth).
Proof.
  intros Hw Ho Hm.
  assert (Hgen : forall n k, (k = 4 \/ k = 8)%nat -> n = 8 * Z.of_nat k ->
            to_bytes (Z.land (Z.shiftr D o) (2 ^ n - 1)) (Z.of_nat k)
            = Ok (le_bytes k (Z.land (Z.shiftr D o) (2 ^ n - 1)))
            /\ le_int (le_bytes k (Z.land (Z.shiftr D o) (2 ^ n - 1)))
               = Z.land (Z.shiftr D o) (2 ^ n - 1)).
  { intros n k Hk ->.
    assert (Hb : 0 <= Z.land (Z.shiftr D o) (2 ^ (8 * Z.of_nat k) - 1)
                 < 2 ^ (8 * Z.of_nat k)).
    { rewrite land_mask_mod by lia. apply Z.mod_pos_bound, pow2_pos. lia. }
    split.
    - unfold to_bytes.
      destruct (Z.ltb_spec (Z.of_nat k) 0); [lia |].
      destruct (Z.ltb_spec (Z.land (Z.shiftr D o) (2 ^ (8 * Z.of_nat k) - 1)) 0); [lia |].
      destruct (Z.leb_spec (2 ^ (8 * Z.of_nat k))
                  (Z.land (Z.shiftr D o) (2 ^ (8 * Z.of_nat k) - 1))); [lia |].
      now rewrite Nat2Z.id.
    - rewrite FloatSignals.le_int_le_bytes. now apply Z.mod_small. }
  split; [| split].
  - intros ->. cbn [decode].
    destruct (Z.ltb_spec max_idx o); [lia |].
    rewrite rshift_ok by assumption. cbn [bind].
    rewrite mask_ok by lia. cbn [bind]. cbn [Z.eqb Pos.eqb].
    destruct (Hgen 32 4%nat ltac:(auto) eq_refl) as (Htb & Hle).
    change (Z.of_nat 4) with 4 in Htb. rewrite Htb. cbn [bind].
    unfold unpack_f. rewrite length_le_bytes. cbn [Nat.eqb bind].
    now rewrite Hle.
  - intros ->. cbn [decode].
    destruct (Z.ltb_spec max_idx o); [lia |].
    rewrite rshift_ok by assumption. cbn [bind].
    rewrite mask_ok by lia. cbn [bind]. cbn [Z.eqb Pos.eqb].
    destruct (Hgen 64 8%nat ltac:(auto) eq_refl) as (Htb & Hle).
    change (Z.of_nat 8) with 8 in Htb. rewrite Htb. cbn [bind].
    unfold unpack_d. rewrite length_le_bytes. cbn [Nat.eqb bind].
    now rewrite Hle.
  - intros H24 H32 H64. cbn [decode].
    destruct (Z.ltb_spec max_idx o); [lia |].
    rewrite rshift_ok by assumption. cbn [bind].
    rewrite mask_ok by lia. cbn [bind].
    destruct (Z.eqb_spec w 24); [contradiction |].
    destruct (Z.eqb_spec w 32); [contradiction |].
    destruct (Z.eqb_spec w 64); [contradiction | reflexivity].
Qed.

(** The [position] field of the virtual device's float frame. *)
Lemma float_decode_widths_witness :
  decode (mkSignal 0 (Float 32 None None (float_of_Z 0) false 1 1 (float_of_Z 0)) false)
         0x40A00000 64
  = Ok (VFloat (single_of_bits (Z.land (Z.shiftr 0x40A00000 0) (2 ^ 32 - 1)))).
Proof.
  refine (proj1 (float_decode_widths 32 None None (float_of_Z 0) false 1 1
                   (float_of_Z 0) 0 false 0x40A00000 64 _ _ _) _); (lia || reflexivity).
Defined.

(** X11: a float field declared with a maximum but no minimum refuses every
    value: the maximum check compares against the missing minimum, which
    is a [TypeError]. *)
Theorem float_max_without_min (w : Z) (hi dv : float) (nan : bool) (fn fd : Z)
    (off : float) (o : Z) (opt : bool) (name : string) (v : float) :
  nan || isfinite v = true ->
  encode (mkSignal o (Float w None (Some hi) dv nan fn fd off) opt) name (VFloat v)
  = Raise TypeError.
Proof.
  intros Hfin. cbn. rewrite andb_false_r. cbn. now rewrite Hfin.
Qed.

Lemma float_max_without_min_witness :
  encode (mkSignal 0 (Float 32 None (Some (float_of_Z 10)) (float_of_Z 0) false 1 1
                            (float_of_Z 0)) false) "value" (VFloat (float_of_Z 5))
  = Raise TypeError.
Proof.
  apply (float_max_without_min 32 (float_of_Z 10) (float_of_Z 0) false 1 1
           (float_of_Z 0) 0 false "value" (float_of_Z 5)). reflexivity.
Defined.

End Composite.

(** ** Frames to and from the bus *)

Module WireFacts.
Import Py Utils Model Wire Bus BitFacts BufSignals.

(** Evaluate the closed powers of two of a goal. *)
Ltac pow2_consts :=
  repeat match goal with
         | |- context [2 ^ Zpos ?n] =>
             let v := eval vm_compute in (2 ^ Zpos n) in
             change (2 ^ Zpos n) with v
         end.

(** X12: [as_bytes] returns exactly [dlc] bytes holding the payload in
    little-endian order when the payload fits in [dlc] bytes, and raises
    [OverflowError] when it does not. *)
Theorem as_bytes_length (self : MessageWrapper) :
  0 <= dlc self ->
  (0 <= data self < 2 ^ (8 * dlc self) ->
   exists b, as_bytes self = Ok b
             /\ Z.of_nat (length b) = dlc self /\ le_int b = data self)
  /\ (data self < 0 \/ 2 ^ (8 * dlc self) <= data self ->
      as_bytes self = Raise OverflowError).
Proof.
  intros Hd. unfold as_bytes, to_bytes.
  destruct (Z.ltb_spec (dlc self) 0); [lia |]. split.
  - intros Hfit.
    destruct (Z.ltb_spec (data self) 0); [lia |].
    destruct (Z.leb_spec (2 ^ (8 * dlc self)) (data self)); [lia |].
    cbn [bind]. eexists. split; [reflexivity |].
    rewrite firstn_all2 by (rewrite length_le_bytes; lia).
    rewrite length_le_bytes, FloatSignals.le_int_le_bytes, Z2Nat.id by assumption.
    split; [reflexivity | now apply Z.mod_small].
  - intros [Hneg | Hbig].
    + destruct (Z.ltb_spec (data self) 0); [reflexivity | lia].
    + destruct (Z.ltb_spec (data self) 0); [reflexivity |].
      destruct (Z.leb_spec (2 ^ (8 * dlc self)) (data self)); [reflexivity | lia].
Qed.

Lemma as_bytes_length_witness :
  exists b, as_bytes (mkMessageWrapper 0x0602 8 0x070E0083 0) = Ok b
            /\ Z.of_nat (length b) = 8 /\ le_int b = 0x0602.
Proof.
  refine (proj1 (as_bytes_length (mkMessageWrapper 0x0602 8 0x070E0083 0) _) _);
    cbn; [lia |]. pow2_consts. lia.
Defined.

(** X13: a wrapper whose payload fits its DLC survives the trip to a
    [can.Message] and back unchanged. *)
Theorem wrapper_can_roundtrip (self : MessageWrapper) :
  0 <= dlc self -> 0 <= data self < 2 ^ (8 * dlc self) ->
  exists msg, to_can self = Ok msg /\ from_can msg = self.
Proof.
  intros Hd Hfit.
  destruct (proj1 (as_bytes_length self Hd) Hfit) as (b & Hb & Hlen & Hint).
  unfold to_can. rewrite Hb. cbn [bind]. eexists. split; [reflexivity |].
  unfold from_can. cbn. rewrite Hlen, Hint.
  destruct self as [d l a t]. cbn. f_equal.
  now destruct (Z.eqb_spec t 0).
Qed.

Lemma wrapper_can_roundtrip_witness :
  exists msg, to_can (mkMessageWrapper 0x0602 8 0x070E0083 0) = Ok msg
              /\ from_can msg = mkMessageWrapper 0x0602 8 0x070E0083 0.
Proof.
  apply (wrapper_can_roundtrip (mkMessageWrapper 0x0602 8 0x070E0083 0));
    cbn; [lia |]. pow2_consts. lia.
Defined.

(** X14: the bytes of a received [can.Message] whose DLC is the length of
    its data come out of [from_can] then [as_bytes] unchanged. *)
Theorem can_payload_preserved (msg : CanMessage) :
  can_dlc msg = Z.of_nat (length (can_data msg)) ->
  as_bytes (from_can msg) = Ok (can_data msg).
Proof.
  intros Hlen. unfold as_bytes, from_can, to_bytes. cbn [data dlc]. rewrite Hlen.
  pose proof (le_int_bound (can_data msg)) as Hb.
  destruct (Z.ltb_spec (Z.of_nat (length (can_data msg))) 0); [lia |].
  destruct (Z.ltb_spec (le_int (can_data msg)) 0); [lia |].
  destruct (Z.leb_spec (2 ^ (8 * Z.of_nat (length (can_data msg))))
              (le_int (can_data msg))); [lia |].
  cbn [bind]. rewrite Nat2Z.id, le_bytes_le_int by lia.
  rewrite Nat.sub_diag, app_nil_r. now rewrite firstn_all.
Qed.

Lemma can_payload_preserved_witness :
  as_bytes (from_can (mkCanMessage 0 0x070E0083 2 [Byte.x02; Byte.x06]))
  = Ok [Byte.x02; Byte.x06].
Proof.
  apply (can_payload_preserved (mkCanMessage 0 0x070E0083 2 [Byte.x02; Byte.x06])).
  reflexivity.
Defined.

(** The other order of [lor_shiftl_add]. *)
Lemma lor_low_add (a b k : Z) :
  0 <= k -> 0 <= a < 2 ^ k -> Z.lor a (Z.shiftl b k) = a + b * 2 ^ k.
Proof. intros. rewrite Z.lor_comm, lor_shiftl_add by assumption. ring. Qed.

Lemma b2z_range (b : bool) : 0 <= Z.b2z b < 2.
Proof. destruct b; cbn; lia. Qed.

(** Turn the innermost [a | (b << k)] of the goal into a sum. *)
Ltac lor_to_add :=
  match goal with
  | |- context [Z.lor ?a (Z.shiftl ?b ?k)] =>
      lazymatch a with
      | context [Z.lor] => fail
      | _ => rewrite (lor_low_add a b k) by (pow2_consts; lia)
      end
  end.

(** The heartbeat payload as a sum of its fields. *)
Lemma rio_hb_data_sum
    (match_time_seconds match_number replay_number : Z)
    (red_alliance enabled autonomous test_mode system_watchdog : bool)
    (tournament_type time_of_day_yr time_of_day_month time_of_day_day
     time_of_day_sec time_of_day_min time_of_day_hr : Z) :
  rio_hb_data match_time_seconds match_number replay_number
              red_alliance enabled autonomous test_mode system_watchdog
              tournament_type time_of_day_yr time_of_day_month time_of_day_day
              time_of_day_sec time_of_day_min time_of_day_hr
  = match_time_seconds mod 256
    + (match_number mod 1024) * 256
    + (replay_number mod 64) * 262144
    + Z.b2z red_alliance * 16777216
    + Z.b2z enabled * 33554432
    + Z.b2z autonomous * 67108864
    + Z.b2z test_mode * 134217728
    + Z.b2z system_watchdog * 268435456
    + (tournament_type mod 8) * 536870912
    + (time_of_day_yr mod 64) * 4294967296
    + (time_of_day_month mod 16) * 274877906944
    + (time_of_day_day mod 32) * 4398046511104
    + (time_of_day_sec mod 64) * 140737488355328
    + (time_of_day_min mod 64) * 9007199254740992
    + (time_of_day_hr mod 32) * 576460752303423488.
Proof.
  unfold rio_hb_data.
  change 0xff with (2 ^ 8 - 1). change 0x3ff with (2 ^ 10 - 1).
  change 0x3f with (2 ^ 6 - 1). change 0x7 with (2 ^ 3 - 1).
  change 0xf with (2 ^ 4 - 1). change 0x1f with (2 ^ 5 - 1).
  rewrite !land_mask_mod by lia. pow2_consts.
  pose proof (Z.mod_pos_bound match_time_seconds 256 ltac:(lia)).
  pose proof (Z.mod_pos_bound match_number 1024 ltac:(lia)).
  pose proof (Z.mod_pos_bound replay_number 64 ltac:(lia)).
  pose proof (Z.mod_pos_bound tournament_type 8 ltac:(lia)).
  pose proof (Z.mod_pos_bound time_of_day_yr 64 ltac:(lia)).
  pose proof (Z.mod_pos_bound time_of_day_month 16 ltac:(lia)).
  pose proof (Z.mod_pos_bound time_of_day_day 32 ltac:(lia)).
  pose proof (Z.mod_pos_bound time_of_day_sec 64 ltac:(lia)).
  pose proof (Z.mod_pos_bound time_of_day_min 64 ltac:(lia)).
  pose proof (Z.mod_pos_bound time_of_day_hr 32 ltac:(lia)).
  pose proof (b2z_range red_alliance). pose proof (b2z_range enabled).
  pose proof (b2z_range autonomous). pose proof (b2z_range test_mode).
  pose proof (b2z_range system_watchdog).
  generalize dependent (match_time_seconds mod 256).
  generalize dependent (match_number mod 1024).
  generalize dependent (replay_number mod 64).
  generalize dependent (tournament_type mod 8).
  generalize dependent (time_of_day_yr mod 64).
  generalize dependent (time_of_day_month mod 16).
  generalize dependent (time_of_day_day mod 32).
  generalize dependent (time_of_day_sec mod 64).
  generalize dependent (time_of_day_min mod 64).
  generalize dependent (time_of_day_hr mod 32).
  generalize dependent (Z.b2z red_alliance). generalize dependent (Z.b2z enabled).
  generalize dependent (Z.b2z autonomous). generalize dependent (Z.b2z test_mode).
  generalize dependent (Z.b2z system_watchdog).
  intros. do 14 lor_to_add. pow2_consts. reflexivity.
Qed.

(** The low [w] bits of [x + 2^w * q]. *)
Lemma extract_low (x q w : Z) :
  0 <= w -> 0 <= x < 2 ^ w -> Z.land (x + 2 ^ w * q) (2 ^ w - 1) = x.
Proof.
  intros Hw Hx. rewrite land_mask_mod by assumption.
  rewrite (Z.mul_comm (2 ^ w) q), Z.mod_add by lia. now apply Z.mod_small.
Qed.

(** Read the field [x] of width [w] at bit [o] of a sum written as
    [low + x * 2^o + 2^(o+w) * q]. *)
Ltac field low x q o w :=
  match goal with
  | |- Z.land (Z.shiftr ?t _) _ = _ =>
      replace t with (low + x * 2 ^ o + 2 ^ (o + w) * q) by (pow2_consts; lia)
  end;
  exact (ScalarFields.extract_window low x q o w ltac:(lia) ltac:(lia)
           ltac:(pow2_consts; lia) ltac:(pow2_consts; lia)).

(** X15: [rio_hb] never fails: whatever integers and flags it is given,
    the packed heartbeat fits 8 bytes, and every field can be read back
    from its bit position -- the integers truncated to their field width,
    the flags exactly. *)
Theorem rio_hb_fields
    (match_time_seconds match_number replay_number : Z)
    (red_alliance enabled autonomous test_mode system_watchdog : bool)
    (tournament_type time_of_day_yr time_of_day_month time_of_day_day
     time_of_day_sec time_of_day_min time_of_day_hr : Z) :
  exists b,
    rio_hb match_time_seconds match_number replay_number
           red_alliance enabled autonomous test_mode system_watchdog
           tournament_type time_of_day_yr time_of_day_month time_of_day_day
           time_of_day_sec time_of_day_min time_of_day_hr
    = Ok (mkCanMessage 0 0x01011840 8 b)
    /\ length b = 8%nat
    /\ Z.land (le_int b) 0xff = Z.land match_time_seconds 0xff
    /\ Z.land (Z.shiftr (le_int b) 8) 0x3ff = Z.land match_number 0x3ff
    /\ Z.land (Z.shiftr (le_int b) 18) 0x3f = Z.land replay_number 0x3f
    /\ Z.land (Z.shiftr (le_int b) 24) 1 = Z.b2z red_alliance
    /\ Z.land (Z.shiftr (le_int b) 25) 1 = Z.b2z enabled
    /\ Z.land (Z.shiftr (le_int b) 26) 1 = Z.b2z autonomous
    /\ Z.land (Z.shiftr (le_int b) 27) 1 = Z.b2z test_mode
    /\ Z.land (Z.shiftr (le_int b) 28) 1 = Z.b2z system_watchdog
    /\ Z.land (Z.shiftr (le_int b) 29) 0x7 = Z.land tournament_type 0x7
    /\ Z.land (Z.shiftr (le_int b) 32) 0x3f = Z.land time_of_day_yr 0x3f
    /\ Z.land (Z.shiftr (le_int b) 38) 0xf = Z.land time_of_day_month 0xf
    /\ Z.land (Z.shiftr (le_int b) 42) 0x1f = Z.land time_of_day_day 0x1f
    /\ Z.land (Z.shiftr (le_int b) 47) 0x3f = Z.land time_of_day_sec 0x3f
    /\ Z.land (Z.shiftr (le_int b) 53) 0x3f = Z.land time_of_day_min 0x3f
    /\ Z.land (Z.shiftr (le_int b) 59) 0x1f = Z.land time_of_day_hr 0x1f.
Proof.
  unfold rio_hb. cbv zeta. rewrite rio_hb_data_sum.
  assert (E1 : forall x, Z.land x 1 = x mod 2)
    by (intros; exact (land_mask_mod x 1 ltac:(lia))).
  assert (E3 : forall x, Z.land x 0x7 = x mod 8)
    by (intros; exact (land_mask_mod x 3 ltac:(lia))).
  assert (E4 : forall x, Z.land x 0xf = x mod 16)
    by (intros; exact (land_mask_mod x 4 ltac:(lia))).
  assert (E5 : forall x, Z.land x 0x1f = x mod 32)
    by (intros; exact (land_mask_mod x 5 ltac:(lia))).
  assert (E6 : forall x, Z.land x 0x3f = x mod 64)
    by (intros; exact (land_mask_mod x 6 ltac:(lia))).
  assert (E8 : forall x, Z.land x 0xff = x mod 256)
    by (intros; exact (land_mask_mod x 8 ltac:(lia))).
  assert (E10 : forall x, Z.land x 0x3ff = x mod 1024)
    by (intros; exact (land_mask_mod x 10 ltac:(lia))).
  pose proof (Z.mod_pos_bound match_time_seconds 256 ltac:(lia)).
  pose proof (Z.mod_pos_bound match_number 1024 ltac:(lia)).
  pose proof (Z.mod_pos_bound replay_number 64 ltac:(lia)).
  pose proof (Z.mod_pos_bound tournament_type 8 ltac:(lia)).
  pose proof (Z.mod_pos_bound time_of_day_yr 64 ltac:(lia)).
  pose proof (Z.mod_pos_bound time_of_day_month 16 ltac:(lia)).
  pose proof (Z.mod_pos_bound time_of_day_day 32 ltac:(lia)).
  pose proof (Z.mod_pos_bound time_of_day_sec 64 ltac:(lia)).
  pose proof (Z.mod_pos_bound time_of_day_min 64 ltac:(lia)).
  pose proof (Z.mod_pos_bound time_of_day_hr 32 ltac:(lia)).
  pose proof (b2z_range red_alliance). pose proof (b2z_range enabled).
  pose proof (b2z_range autonomous). pose proof (b2z_range test_mode).
  pose proof (b2z_range system_watchdog).
  match goal with |- context [to_bytes ?S 8] => set (total := S) end.
  assert (Htotal : 0 <= total < 18446744073709551616) by (unfold total; lia).
  exists (le_bytes 8 total).
  assert (Hb : to_bytes total 8 = Ok (le_bytes 8 total)).
  { unfold to_bytes. change (2 ^ (8 * 8)) with 18446744073709551616.
    destruct (Z.ltb_spec 8 0); [lia |].
    destruct (Z.ltb_spec total 0); [lia |].
    destruct (Z.leb_spec 18446744073709551616 total); [lia | reflexivity]. }
  rewrite Hb. cbn [bind]. split; [reflexivity |]. split; [apply length_le_bytes |].
  rewrite FloatSignals.le_int_le_bytes.
  change (2 ^ (8 * Z.of_nat 8)) with 18446744073709551616.
  rewrite (Z.mod_small total) by assumption.
  rewrite (E8 match_time_seconds), (E10 match_number), (E6 replay_number),
    (E3 tournament_type), (E6 time_of_day_yr), (E4 time_of_day_month),
    (E5 time_of_day_day), (E6 time_of_day_sec), (E6 time_of_day_min),
    (E5 time_of_day_hr).
  clear E1 E3 E4 E5 E6 E8 E10.
  unfold total in *. clear total Hb.
  generalize dependent (match_time_seconds mod 256). intros f0 ?.
  generalize dependent (match_number mod 1024). intros f1 ?.
  generalize dependent (replay_number mod 64). intros f2 ?.
  generalize dependent (tournament_type mod 8). intros f8 ?.
  generalize dependent (time_of_day_yr mod 64). intros f9 ?.
  generalize dependent (time_of_day_month mod 16). intros f10 ?.
  generalize dependent (time_of_day_day mod 32). intros f11 ?.
  generalize dependent (time_of_day_sec mod 64). intros f12 ?.
  generalize dependent (time_of_day_min mod 64). intros f13 ?.
  generalize dependent (time_of_day_hr mod 32). intros f14 ?.
  generalize dependent (Z.b2z red_alliance). intros f3 ?.
  generalize dependent (Z.b2z enabled). intros f4 ?.
  generalize dependent (Z.b2z autonomous). intros f5 ?.
  generalize dependent (Z.b2z test_mode). intros f6 ?.
  generalize dependent (Z.b2z system_watchdog). intros f7 ?.
  intros. repeat split.
  - match goal with
    | |- Z.land ?t _ = _ => replace t with (f0 + 2 ^ 8 * (f1 * 1 + f2 * 1024 + f3 * 65536 + f4 * 131072 + f5 * 262144 + f6 * 524288 + f7 * 1048576 + f8 * 2097152 + f9 * 16777216 + f10 * 1073741824 + f11 * 17179869184 + f12 * 549755813888 + f13 * 35184372088832 + f14 * 2251799813685248)) by (pow2_consts; lia)
    end.
    exact (extract_low f0 (f1 * 1 + f2 * 1024 + f3 * 65536 + f4 * 131072 + f5 * 262144 + f6 * 524288 + f7 * 1048576 + f8 * 2097152 + f9 * 16777216 + f10 * 1073741824 + f11 * 17179869184 + f12 * 549755813888 + f13 * 35184372088832 + f14 * 2251799813685248) 8 ltac:(lia) ltac:(pow2_consts; lia)).
  - field (f0 * 1) f1 (f2 * 1 + f3 * 64 + f4 * 128 + f5 * 256 + f6 * 512 + f7 * 1024 + f8 * 2048 + f9 * 16384 + f10 * 1048576 + f11 * 16777216 + f12 * 536870912 + f13 * 34359738368 + f14 * 2199023255552) 8 10.
  - field (f0 * 1 + f1 * 256) f2 (f3 * 1 + f4 * 2 + f5 * 4 + f6 * 8 + f7 * 16 + f8 * 32 + f9 * 256 + f10 * 16384 + f11 * 262144 + f12 * 8388608 + f13 * 536870912 + f14 * 34359738368) 18 6.
  - field (f0 * 1 + f1 * 256 + f2 * 262144) f3 (f4 * 1 + f5 * 2 + f6 * 4 + f7 * 8 + f8 * 16 + f9 * 128 + f10 * 8192 + f11 * 131072 + f12 * 4194304 + f13 * 268435456 + f14 * 17179869184) 24 1.
  - field (f0 * 1 + f1 * 256 + f2 * 262144 + f3 * 16777216) f4 (f5 * 1 + f6 * 2 + f7 * 4 + f8 * 8 + f9 * 64 + f10 * 4096 + f11 * 65536 + f12 * 2097152 + f13 * 134217728 + f14 * 8589934592) 25 1.
  - field (f0 * 1 + f1 * 256 + f2 * 262144 + f3 * 16777216 + f4 * 33554432) f5 (f6 * 1 + f7 * 2 + f8 * 4 + f9 * 32 + f10 * 2048 + f11 * 32768 + f12 * 1048576 + f13 * 67108864 + f14 * 4294967296) 26 1.
  - field (f0 * 1 + f1 * 256 + f2 * 262144 + f3 * 16777216 + f4 * 33554432 + f5 * 67108864) f6 (f7 * 1 + f8 * 2 + f9 * 16 + f10 * 1024 + f11 * 16384 + f12 * 524288 + f13 * 33554432 + f14 * 2147483648) 27 1.
  - field (f0 * 1 + f1 * 256 + f2 * 262144 + f3 * 16777216 + f4 * 33554432 + f5 * 67108864 + f6 * 134217728) f7 (f8 * 1 + f9 * 8 + f10 * 512 + f11 * 8192 + f12 * 262144 + f13 * 16777216 + f14 * 1073741824) 28 1.
  - field (f0 * 1 + f1 * 256 + f2 * 262144 + f3 * 16777216 + f4 * 33554432 + f5 * 67108864 + f6 * 134217728 + f7 * 268435456) f8 (f9 * 1 + f10 * 64 + f11 * 1024 + f12 * 32768 + f13 * 2097152 + f14 * 134217728) 29 3.
  - field (f0 * 1 + f1 * 256 + f2 * 262144 + f3 * 16777216 + f4 * 33554432 + f5 * 67108864 + f6 * 134217728 + f7 * 268435456 + f8 * 536870912) f9 (f10 * 1 + f11 * 16 + f12 * 512 + f13 * 32768 + f14 * 2097152) 32 6.
  - field (f0 * 1 + f1 * 256 + f2 * 262144 + f3 * 16777216 + f4 * 33554432 + f5 * 67108864 + f6 * 134217728 + f7 * 268435456 + f8 * 536870912 + f9 * 4294967296) f10 (f11 * 1 + f12 * 32 + f13 * 2048 + f14 * 131072) 38 4.
  - field (f0 * 1 + f1 * 256 + f2 * 262144 + f3 * 16777216 + f4 * 33554432 + f5 * 67108864 + f6 * 134217728 + f7 * 268435456 + f8 * 536870912 + f9 * 4294967296 + f10 * 274877906944) f11 (f12 * 1 + f13 * 64 + f14 * 4096) 42 5.
  - field (f0 * 1 + f1 * 256 + f2 * 262144 + f3 * 16777216 + f4 * 33554432 + f5 * 67108864 + f6 * 134217728 + f7 * 268435456 + f8 * 536870912 + f9 * 4294967296 + f10 * 274877906944 + f11 * 4398046511104) f12 (f13 * 1 + f14 * 64) 47 6.
  - field (f0 * 1 + f1 * 256 + f2 * 262144 + f3 * 16777216 + f4 * 33554432 + f5 * 67108864 + f6 * 134217728 + f7 * 268435456 + f8 * 536870912 + f9 * 4294967296 + f10 * 274877906944 + f11 * 4398046511104 + f12 * 140737488355328) f13 (f14 * 1) 53 6.
  - field (f0 * 1 + f1 * 256 + f2 * 262144 + f3 * 16777216 + f4 * 33554432 + f5 * 67108864 + f6 * 134217728 + f7 * 268435456 + f8 * 536870912 + f9 * 4294967296 + f10 * 274877906944 + f11 * 4398046511104 + f12 * 140737488355328 + f13 * 9007199254740992) f14 (0) 59 5.
Qed.

End WireFacts.

(** ** Routing frames to device classes *)

Module BusFacts.
Import Py Utils Model Wire Bus BitFacts Addressing.

(** The vendor and device-type part of an identifier, as
    [decode_msg_generic] compares it. *)
Lemma owner_bits (dt : Z) :
  0 <= dt <= 31 ->
  Z.lor (Z.shiftl dt 24) (Z.shiftl 0xe 16) = dt * 16777216 + 917504.
Proof.
  intros. rewrite (lor_shiftl_add dt (Z.shiftl 0xe 16) 24)
    by (vm_compute; intuition discriminate).
  reflexivity.
Qed.




(** A frame no class of the list owns is decoded by none of them. *)
Lemma first_decoded_no_owner (devclasses : list BaseDevice) (msg : CanMessage) :
  Forall (fun cls => Z.land (can_arbitration_id msg) 0x1fff0000
                     <> Z.lor (Z.shiftl (bd_device_type cls) 24) (Z.shiftl 0xe 16))
         devclasses ->
  first_decoded devclasses msg = Ok VNone.
Proof.
  induction 1 as [| cls rest Hne _ IH]; [reflexivity |].
  cbn [first_decoded]. unfold decode_msg_generic. cbn [from_can arb_id].
  destruct (Z.eqb_spec (Z.land (can_arbitration_id msg) 0x1fff0000)
              (Z.lor (Z.shiftl (bd_device_type cls) 24) (Z.shiftl 0xe 16)));
    [contradiction |].
  cbn. exact IH.
Qed.

(** A frame owned by a class of the list is decoded by that class,
    wherever it stands in the list. *)
Lemma first_decoded_owner (devclasses : list BaseDevice) (cls : BaseDevice)
    (msg : CanMessage) :
  List.NoDup (map bd_device_type devclasses) ->
  Forall (fun c => 0 <= bd_device_type c <= 31) devclasses ->
  In cls devclasses ->
  Z.land (can_arbitration_id msg) 0x1fff0000
  = Z.lor (Z.shiftl (bd_device_type cls) 24) (Z.shiftl 0xe 16) ->
  first_decoded devclasses msg
  = decode_msg_generic (bd_device_type cls) (bd_messages cls) (from_can msg).
Proof.
  intros Hnd Hrange Hin Hown.
  assert (Hothers : forall c, In c devclasses ->
            bd_device_type c <> bd_device_type cls ->
            Z.land (can_arbitration_id msg) 0x1fff0000
            <> Z.lor (Z.shiftl (bd_device_type c) 24) (Z.shiftl 0xe 16)).
  { intros c Hc Hne. rewrite Hown.
    rewrite List.Forall_forall in Hrange.
    rewrite !owner_bits by (apply Hrange; assumption). lia. }
  clear Hrange.
  induction devclasses as [| c rest IH]; [contradiction |].
  cbn [map] in Hnd. inversion Hnd as [| ? ? Hnotin Hnd']; subst.
  cbn [first_decoded]. destruct Hin as [-> | Hin].
  - destruct (decode_msg_generic (bd_device_type cls) (bd_messages cls) (from_can msg))
      as [decoded |] eqn:Hdec; [| reflexivity].
    cbn [bind]. destruct (is_None decoded) eqn:Hnone; [| reflexivity].
    cbn [negb]. destruct decoded; try discriminate.
    apply first_decoded_no_owner. rewrite List.Forall_forall. intros c Hc.
    apply Hothers; [now right |].
    intros Heq. apply Hnotin. rewrite <- Heq. now apply List.in_map.
  - assert (Hne : bd_device_type c <> bd_device_type cls).
    { intros Heq. apply Hnotin. rewrite Heq. now apply List.in_map. }
    pose proof (Hothers c (or_introl eq_refl) Hne) as Hc.
    unfold decode_msg_generic at 1. cbn [from_can arb_id].
    destruct (Z.eqb_spec (Z.land (can_arbitration_id msg) 0x1fff0000)
                (Z.lor (Z.shiftl (bd_device_type c) 24) (Z.shiftl 0xe 16)));
      [contradiction |].
    cbn. apply IH; try assumption.
    intros c' Hc' Hne'. apply Hothers; [now right | assumption].
Qed.

(** [parse_msgs] treats every frame on its own. *)
Lemma parse_msgs_pointwise (devclasses : list BaseDevice) (msgs : list CanMessage)
    (parsed : list (CanMessage * Value)) :
  parse_msgs devclasses msgs = Ok parsed
  <-> Forall2 (fun msg p => fst p = msg /\ first_decoded devclasses msg = Ok (snd p))
              msgs parsed.
Proof.
  revert parsed. induction msgs as [| msg rest IH]; intros parsed; cbn [parse_msgs].
  - split.
    + intros [= <-]. constructor.
    + intros H. inversion H. reflexivity.
  - split.
    + intros H.
      destruct (first_decoded devclasses msg) as [r |] eqn:Hr; [| discriminate].
      cbn [bind] in H.
      destruct (parse_msgs devclasses rest) as [more |] eqn:Hmore; [| discriminate].
      cbn [bind] in H. injection H as <-.
      constructor; [split; [reflexivity | exact Hr] |]. now apply IH.
    + intros H. inversion H as [| ? [m r] ? more [Hm Hr] Hrest]; subst.
      cbn [fst snd] in *. rewrite Hr. cbn [bind].
      apply IH in Hrest. rewrite Hrest. reflexivity.
Qed.

Lemma first_decoded_class_order (devclasses devclasses' : list BaseDevice)
    (msg : CanMessage) :
  List.NoDup (map bd_device_type devclasses) ->
  Forall (fun c => 0 <= bd_device_type c <= 31) devclasses ->
  Permutation devclasses devclasses' ->
  first_decoded devclasses msg = first_decoded devclasses' msg.
Proof.
  intros Hnd Hrange Hperm.
  destruct (List.Forall_Exists_dec
              (fun c => Z.land (can_arbitration_id msg) 0x1fff0000
                        <> Z.lor (Z.shiftl (bd_device_type c) 24) (Z.shiftl 0xe 16))
              (fun c => match Z.eq_dec (Z.land (can_arbitration_id msg) 0x1fff0000)
                                (Z.lor (Z.shiftl (bd_device_type c) 24)
                                       (Z.shiftl 0xe 16)) with
                        | left e => right (fun n => n e)
                        | right n => left n
                        end)
              devclasses) as [Hnone | Hsome].
  - rewrite (first_decoded_no_owner devclasses msg Hnone).
    symmetry. apply first_decoded_no_owner.
    exact (Permutation_Forall Hperm Hnone).
  - apply List.Exists_exists in Hsome. destruct Hsome as (cls & Hin & Hown).
    assert (Hown' : Z.land (can_arbitration_id msg) 0x1fff0000
                    = Z.lor (Z.shiftl (bd_device_type cls) 24) (Z.shiftl 0xe 16)).
    { destruct (Z.eq_dec (Z.land (can_arbitration_id msg) 0x1fff0000)
                  (Z.lor (Z.shiftl (bd_device_type cls) 24) (Z.shiftl 0xe 16)));
        [assumption | contradiction]. }
    rewrite (first_decoded_owner devclasses cls msg Hnd Hrange Hin Hown').
    symmetry. apply first_decoded_owner; try assumption.
    + eapply Permutation_NoDup; [| exact Hnd]. now apply Permutation_map.
    + exact (Permutation_Forall Hperm Hrange).
    + eapply Permutation_in; eassumption.
Qed.

(** X17: with device classes of pairwise different device types, each in
    0..31, the order in which the classes are tried does not matter to
    [parse_msgs]: any reordering of the classes gives the same result,
    errors included. *)
Theorem parse_msgs_class_order (devclasses devclasses' : list BaseDevice)
    (msgs : list CanMessage) :
  List.NoDup (map bd_device_type devclasses) ->
  Forall (fun c => 0 <= bd_device_type c <= 31) devclasses ->
  Permutation devclasses devclasses' ->
  parse_msgs devclasses msgs = parse_msgs devclasses' msgs.
Proof.
  intros Hnd Hrange Hperm.
  induction msgs as [| msg rest IH]; [reflexivity |].
  cbn [parse_msgs].
  rewrite (first_decoded_class_order devclasses devclasses' msg Hnd Hrange Hperm).
  now rewrite IH.
Qed.

Lemma parse_msgs_class_order_witness :
  parse_msgs [Bus.mkBaseDevice 6 "Other" []; Schemas2.Canandmag]
    [mkCanMessage 0 (Device.addr 7 3 2) 1 [Byte.x02]]
  = parse_msgs [Schemas2.Canandmag; Bus.mkBaseDevice 6 "Other" []]
      [mkCanMessage 0 (Device.addr 7 3 2) 1 [Byte.x02]].
Proof.
  apply (parse_msgs_class_order [Bus.mkBaseDevice 6 "Other" []; Schemas2.Canandmag]
           [Schemas2.Canandmag; Bus.mkBaseDevice 6 "Other" []]
           [mkCanMessage 0 (Device.addr 7 3 2) 1 [Byte.x02]]).
  - repeat constructor; cbn; intuition discriminate.
  - repeat constructor; cbn; lia.
  - apply perm_swap.
Defined.

(** X18: [parse_msgs] drops no frame: whenever it returns, its list pairs
    the input frames, in order, with what was decoded, [None] standing
    for a frame no class decodes. *)
Theorem parse_msgs_keeps_frames (devclasses : list BaseDevice)
    (msgs : list CanMessage) (parsed : list (CanMessage * Value)) :
  parse_msgs devclasses msgs = Ok parsed ->
  map fst parsed = msgs
  /\ forall msg r, In (msg, r) parsed ->
       Forall (fun cls => Z.land (can_arbitration_id msg) 0x1fff0000
                          <> Z.lor (Z.shiftl (bd_device_type cls) 24)
                                   (Z.shiftl 0xe 16)) devclasses ->
       r = VNone.
Proof.
  intros H. apply parse_msgs_pointwise in H. split.
  - induction H as [| msg p rest parsed' [Hp _] _ IH]; [reflexivity |].
    cbn [map]. now rewrite Hp, IH.
  - intros msg r Hin Hnone.
    induction H as [| msg0 p rest parsed' [Hp Hr] _ IH]; [contradiction |].
    destruct Hin as [-> | Hin]; [| now apply IH].
    cbn [fst snd] in Hp, Hr. subst msg0.
    rewrite (first_decoded_no_owner devclasses msg Hnone) in Hr.
    now injection Hr.
Qed.

(** A frame of device type 9 stays in the list, paired with [None]. *)
Lemma parse_msgs_keeps_frames_witness :
  map fst [(mkCanMessage 0 (Device.addr 9 1 2) 1 [Byte.x02], VNone)]
  = [mkCanMessage 0 (Device.addr 9 1 2) 1 [Byte.x02]].
Proof.
  exact (proj1 (parse_msgs_keeps_frames [Schemas2.Canandmag]
                  [mkCanMessage 0 (Device.addr 9 1 2) 1 [Byte.x02]]
                  [(mkCanMessage 0 (Device.addr 9 1 2) 1 [Byte.x02], VNone)]
                  eq_refl)).
Defined.

(** X19: [count_matching] does not filter: [from_wrapper] never returns
    [None], so whenever the count returns it is the number of frames,
    whatever their identifiers. *)
Theorem count_matching_counts_all (msgs : list CanMessage) (msg_type : MessageClass)
    (n : Z) :
  count_matching msgs msg_type = Ok n -> n = Z.of_nat (length msgs).
Proof.
  unfold count_matching.
  assert (H : forall cnt, count_matching_from msgs msg_type cnt = Ok n ->
                          n = cnt + Z.of_nat (length msgs)).
  { induction msgs as [| msg rest IH]; intros cnt Hrun.
    - cbn in Hrun. injection Hrun as <-. cbn. lia.
    - cbn [count_matching_from] in Hrun. unfold from_wrapper in Hrun.
      destruct (from_wrapper_fields (hints msg_type) (data (from_can msg))
                  (dlc (from_can msg) * 8)) as [fields |]; [| discriminate].
      cbn [bind is_None negb Z.b2z] in Hrun. apply IH in Hrun.
      cbn [length]. lia. }
  intros Hrun. apply H in Hrun. lia.
Qed.

(** Two frames of other messages are both counted as [PositionOutput]. *)
Lemma count_matching_counts_all_witness :
  2 = Z.of_nat (length [mkCanMessage 0 (Device.addr 7 3 6) 8 [Byte.x05];
                        mkCanMessage 0 (Device.addr 9 1 2) 1 [Byte.x02]]).
Proof.
  apply (count_matching_counts_all
           [mkCanMessage 0 (Device.addr 7 3 6) 8 [Byte.x05];
            mkCanMessage 0 (Device.addr 9 1 2) 1 [Byte.x02]]
           Schemas2.PositionOutput 2).
  reflexivity.
Defined.

End BusFacts.

(** ** The spec loader: inheritance *)

Module LoaderFacts.
Import Py Utils Parser Inheritance Loader.

Lemma find_app {A : Type} (p : A -> bool) (l1 l2 : list A) :
  List.find p (l1 ++ l2)
  = match List.find p l1 with
    | Some x => Some x
    | None => List.find p l2
    end.
Proof.
  induction l1 as [| x l1 IH]; cbn; [reflexivity |].
  now destruct (p x).
Qed.

Section DictUpdate.
Context {K V : Type} `{EqDecision K}.

Lemma dict_get_notin (k : K) (d : list (K * V)) :
  ~ In k (map fst d) -> dict_get k d = None.
Proof.
  induction d as [| [k' v] d IH]; cbn; [reflexivity |].
  intros Hnot. destruct (decide (k' = k)) as [-> | Hne].
  - exfalso. apply Hnot. now left.
  - apply IH. intros Hin. apply Hnot. now right.
Qed.

Lemma dict_set_keys (k k0 : K) (v : V) (d : list (K * V)) :
  In k0 (map fst (dict_set k v d)) <-> k0 = k \/ In k0 (map fst d).
Proof.
  induction d as [| [k' v'] d IH]; cbn.
  - intuition.
  - destruct (decide (k' = k)) as [-> | Hne]; cbn.
    + intuition.
    + rewrite IH. intuition.
Qed.

Lemma dict_set_keys_unique (k : K) (v : V) (d : list (K * V)) :
  List.NoDup (map fst d) -> List.NoDup (map fst (dict_set k v d)).
Proof.
  induction d as [| [k' v'] d IH]; cbn; intros Hnd.
  - constructor; [intros [] | constructor].
  - inversion Hnd as [| ? ? Hnotin Hnd']; subst.
    destruct (decide (k' = k)) as [-> | Hne]; cbn.
    + now constructor.
    + constructor; [| now apply IH].
      rewrite dict_set_keys. intros [-> | Hin]; [now apply Hne | now apply Hnotin].
Qed.

Lemma dict_update_keys_unique (d other : list (K * V)) :
  List.NoDup (map fst d) -> List.NoDup (map fst (dict_update d other)).
Proof.
  unfold dict_update. revert d.
  induction other as [| [k v] other IH]; intros d Hnd; cbn; [assumption |].
  apply IH. now apply dict_set_keys_unique.
Qed.

(** [d.update(other)]: the entries of [other] win. *)
Lemma dict_get_update (k : K) (d other : list (K * V)) :
  List.NoDup (map fst other) ->
  dict_get k (dict_update d other)
  = match dict_get k other with
    | Some v => Some v
    | None => dict_get k d
    end.
Proof.
  unfold dict_update. revert d.
  induction other as [| [k1 v1] other IH]; intros d Hnd; cbn; [reflexivity |].
  inversion Hnd as [| ? ? Hnotin Hnd']; subst.
  rewrite IH by assumption.
  destruct (decide (k1 = k)) as [-> | Hne].
  - rewrite (dict_get_notin k other Hnotin). apply dict_get_set_eq.
  - now rewrite dict_get_set_ne.
Qed.

(** A dict filled by assignments in a loop holds, under each key, the
    value of the last item with that key. *)
Lemma dict_get_fold_set {A : Type} (key : A -> K) (val : A -> V) (i : K)
    (xs : list A) (d : list (K * V)) :
  dict_get i (fold_left (fun acc x => dict_set (key x) (val x) acc) xs d)
  = match List.find (fun x => bool_decide (key x = i)) (rev xs) with
    | Some x => Some (val x)
    | None => dict_get i d
    end.
Proof.
  revert d. induction xs as [| x xs IH]; intros d; cbn [fold_left rev];
    [reflexivity |].
  rewrite IH. rewrite find_app.
  destruct (List.find (fun x0 => bool_decide (key x0 = i)) (rev xs)); [reflexivity |].
  cbn [List.find]. destruct (decide (key x = i)) as [<- | Hne].
  - rewrite bool_decide_eq_true_2 by reflexivity. apply dict_get_set_eq.
  - rewrite bool_decide_eq_false_2 by assumption. now apply dict_get_set_ne.
Qed.

End DictUpdate.

Lemma extend_base_keeps (n : string) (upper_base base_spec_base : list string) :
  In n base_spec_base \/ In n upper_base ->
  In n (extend_base base_spec_base upper_base).
Proof.
  unfold extend_base. revert base_spec_base.
  induction upper_base as [| u rest IH]; intros acc H; cbn [fold_left].
  - destruct H as [H | []]. exact H.
  - apply IH. destruct H as [H | [<- | H]].
    + left. destruct (existsb (String.eqb u) acc); [exact H |].
      apply List.in_or_app. now left.
    + left. destruct (existsb (String.eqb u) acc) eqn:E.
      * apply List.existsb_exists in E. destruct E as (x & Hx & Heq).
        apply String.eqb_eq in Heq. now subst.
      * apply List.in_or_app. right. now left.
    + now right.
Qed.

(** What every iteration of the loop copies from the spec above. *)
Lemma resolve_bases_identity (fs : string -> result DeviceSpec) (bases : list string)
    (upper_dev dev : DeviceSpec) :
  resolve_bases fs bases upper_dev = Ok dev ->
  name dev = name upper_dev /\ arch dev = arch upper_dev
  /\ dev_type dev = dev_type upper_dev /\ dev_class dev = dev_class upper_dev
  /\ vendordep dev = vendordep upper_dev
  /\ (forall n, In n (base upper_dev) -> In n (base dev)).
Proof.
  revert upper_dev. induction bases as [| b rest IH]; intros upper_dev H.
  - cbn in H. injection H as <-. repeat split; auto.
  - cbn [resolve_bases] in H.
    destruct (fs (lower b +:+ ".toml")) as [base_spec |]; [| discriminate].
    cbn [bind] in H. apply IH in H.
    destruct H as (Hn & Ha & Ht & Hc & Hv & Hb). cbn in Hn, Ha, Ht, Hc, Hv, Hb.
    repeat split; auto.
    intros n Hin. apply Hb. apply extend_base_keeps. now right.
Qed.

(** The loop runs to its end exactly when every file it opens loads. *)
Lemma resolve_bases_loads (fs : string -> result DeviceSpec) (bases : list string)
    (upper_dev : DeviceSpec) :
  (exists dev, resolve_bases fs bases upper_dev = Ok dev)
  <-> Forall (fun b => exists s, fs (base_file b) = Ok s) bases.
Proof.
  revert upper_dev. induction bases as [| b rest IH]; intros upper_dev.
  - split; [constructor | now exists upper_dev].
  - cbn [resolve_bases]. fold (base_file b). split.
    + intros [dev H]. destruct (fs (base_file b)) as [s |] eqn:E; [| discriminate].
      constructor; [now exists s |]. apply (IH (merge_into_base s upper_dev)).
      now exists dev.
    + intros H. inversion H as [| ? ? [s E] Hrest]; subst. rewrite E. cbn [bind].
      now apply IH.
Qed.

Lemma last_nonempty {A : Type} (x : A) (l : list A) (d d' : A) :
  List.last (x :: l) d = List.last (x :: l) d'.
Proof.
  revert x. induction l as [| y l IH]; intros x; [reflexivity |].
  change (List.last (y :: l) d = List.last (y :: l) d'). apply IH.
Qed.

(** The flag the loop never copies. *)
Lemma resolve_bases_is_public (fs : string -> result DeviceSpec) (bases : list string)
    (loaded : list DeviceSpec) (upper_dev dev : DeviceSpec) :
  Forall2 (fun b s => fs (base_file b) = Ok s) bases loaded ->
  resolve_bases fs bases upper_dev = Ok dev ->
  is_public dev = is_public (List.last loaded upper_dev).
Proof.
  intros Hload. revert upper_dev.
  induction Hload as [| b s rest loaded E _ IH]; intros upper_dev H.
  - cbn in H. now injection H as <-.
  - cbn [resolve_bases] in H. fold (base_file b) in H. rewrite E in H.
    cbn [bind] in H. apply IH in H. rewrite H.
    destruct loaded as [| s' loaded']; [reflexivity |].
    change (List.last (s :: s' :: loaded') upper_dev)
      with (List.last (s' :: loaded') upper_dev).
    f_equal. apply last_nonempty.
Qed.

(** Looking a name up in a table of the resolved spec. *)
Lemma resolve_bases_lookup {V : Type} (table : DeviceSpec -> list (string * V))
    (fs : string -> result DeviceSpec) (bases : list string)
    (loaded : list DeviceSpec) (upper_dev dev : DeviceSpec) (k : string) :
  (forall b u, table (merge_into_base b u) = dict_update (table b) (table u)) ->
  List.NoDup (map fst (table upper_dev)) ->
  Forall (fun s => List.NoDup (map fst (table s))) loaded ->
  Forall2 (fun b s => fs (base_file b) = Ok s) bases loaded ->
  resolve_bases fs bases upper_dev = Ok dev ->
  dict_get k (table dev) = first_defined table k (upper_dev :: loaded).
Proof.
  intros Htable Hupper Hloaded Hload. revert upper_dev Hupper Hloaded.
  induction Hload as [| b s rest loaded E _ IH]; intros upper_dev Hupper Hloaded H.
  - cbn in H. injection H as <-. cbn. now destruct (dict_get k (table upper_dev)).
  - cbn [resolve_bases] in H. fold (base_file b) in H. rewrite E in H.
    cbn [bind] in H. inversion Hloaded as [| ? ? Hs Hrest]; subst.
    apply IH in H; [| rewrite Htable; now apply dict_update_keys_unique | assumption].
    rewrite H. cbn [first_defined]. rewrite Htable.
    rewrite dict_get_update by assumption.
    now destruct (dict_get k (table upper_dev)).
Qed.

(** X20: [parse_spec] opens one file for each name of the root file's
    [base] list and no other: it returns exactly when each of these
    loads.  The [base] lists of the base files themselves are never
    followed. *)
Theorem parse_spec_opens_direct_bases (fs : string -> result DeviceSpec)
    (dev_spec : DeviceSpec) :
  (exists dev, parse_spec fs dev_spec = Ok dev)
  <-> Forall (fun b => exists s, fs (base_file b) = Ok s) (base dev_spec).
Proof.
  rewrite <- (resolve_bases_loads fs (base dev_spec) dev_spec).
  unfold parse_spec. split.
  - intros [dev H].
    destruct (resolve_bases fs (base dev_spec) dev_spec) as [r |]; [| discriminate].
    now exists r.
  - intros [r H]. rewrite H. cbn [bind]. eauto.
Qed.

(** [Legacy] names a base [Ancient] that has no file, and the spec still
    loads. *)
Lemma parse_spec_opens_direct_bases_witness :
  exists dev, parse_spec two_base_files two_base_spec = Ok dev.
Proof.
  apply (proj2 (parse_spec_opens_direct_bases two_base_files two_base_spec)).
  repeat constructor; eexists; reflexivity.
Defined.

(** X21: the spec [parse_spec] returns keeps the root file's [name],
    [arch], [dev_type], [dev_class] and [vendordep], and its [base] list
    holds every name of the root's; its [is_public] flag, which the loop
    does not copy, is that of the last base file when there is one. *)
Theorem parse_spec_identity (fs : string -> result DeviceSpec)
    (dev_spec dev : DeviceSpec) (loaded : list DeviceSpec) :
  Forall2 (fun b s => fs (base_file b) = Ok s) (base dev_spec) loaded ->
  parse_spec fs dev_spec = Ok dev ->
  name dev = name dev_spec /\ arch dev = arch dev_spec
  /\ dev_type dev = dev_type dev_spec /\ dev_class dev = dev_class dev_spec
  /\ vendordep dev = vendordep dev_spec
  /\ (forall n, In n (base dev_spec) -> In n (base dev))
  /\ is_public dev = is_public (List.last loaded dev_spec).
Proof.
  intros Hload H. apply parse_spec_inv in H. destruct H as (r & Hr & ->).
  cbn [name arch dev_type dev_class vendordep base is_public with_enums].
  pose proof (resolve_bases_identity _ _ _ _ Hr) as (Hn & Ha & Ht & Hc & Hv & Hb).
  pose proof (resolve_bases_is_public _ _ _ _ _ Hload Hr) as Hp.
  repeat split; assumption.
Qed.

(** The public root [Canandmag] over the non-public base [Legacy] comes
    out non-public. *)
Lemma parse_spec_identity_witness :
  exists dev, parse_spec two_base_files two_base_spec = Ok dev
              /\ name dev = "Canandmag"%string /\ is_public dev = false.
Proof.
  eexists. split; [reflexivity |].
  pose proof (parse_spec_identity two_base_files two_base_spec _
                [Schemas.cananddevice_spec; legacy_spec]
                ltac:(repeat constructor) eq_refl) as H.
  split; [exact (proj1 H) | exact (proj2 (proj2 (proj2 (proj2 (proj2 (proj2 H))))))].
Defined.

(** X22: inheritance is by name and the nearest definition wins.  For
    well-formed tables, the entry of a name in the [msg], [settings],
    [types] or [setting_commands] table of the result is the root file's
    if it has one, and else that of the first base file, in the order of
    the root's [base] list, that has one. *)
Theorem parse_spec_precedence (fs : string -> result DeviceSpec)
    (dev_spec dev : DeviceSpec) (loaded : list DeviceSpec) (k : string) :
  keys_unique dev_spec -> Forall keys_unique loaded ->
  Forall2 (fun b s => fs (base_file b) = Ok s) (base dev_spec) loaded ->
  parse_spec fs dev_spec = Ok dev ->
  dict_get k (msg dev) = first_defined msg k (dev_spec :: loaded)
  /\ dict_get k (settings dev) = first_defined settings k (dev_spec :: loaded)
  /\ dict_get k (types dev) = first_defined types k (dev_spec :: loaded)
  /\ dict_get k (setting_commands dev)
     = first_defined setting_commands k (dev_spec :: loaded).
Proof.
  intros (Hm & Hs & Ht & Hc) Hloaded Hload H.
  apply parse_spec_inv in H. destruct H as (r & Hr & ->).
  cbn [msg settings types setting_commands with_enums].
  repeat split.
  - apply (resolve_bases_lookup msg fs (base dev_spec) loaded dev_spec r k);
      try assumption; [reflexivity |].
    eapply List.Forall_impl; [| exact Hloaded]. intros s Hk. apply Hk.
  - apply (resolve_bases_lookup settings fs (base dev_spec) loaded dev_spec r k);
      try assumption; [reflexivity |].
    eapply List.Forall_impl; [| exact Hloaded]. intros s Hk. apply Hk.
  - apply (resolve_bases_lookup types fs (base dev_spec) loaded dev_spec r k);
      try assumption; [reflexivity |].
    eapply List.Forall_impl; [| exact Hloaded]. intros s Hk. apply Hk.
  - apply (resolve_bases_lookup setting_commands fs (base dev_spec) loaded dev_spec r k);
      try assumption; [reflexivity |].
    eapply List.Forall_impl; [| exact Hloaded]. intros s Hk. apply Hk.
Qed.

Lemma keys_unique_examples :
  keys_unique two_base_spec /\ keys_unique Schemas.cananddevice_spec
  /\ keys_unique legacy_spec.
Proof.
  repeat split; repeat constructor; cbn; intuition discriminate.
Defined.

(** [CAN_ID] is defined by both bases and comes from the first. *)
Lemma parse_spec_precedence_witness :
  exists dev, parse_spec two_base_files two_base_spec = Ok dev
              /\ dict_get "CAN_ID"%string (settings dev)
                 = Some (Schemas.setting_spec 0x0 "CAN Device ID").
Proof.
  eexists. split; [reflexivity |].
  destruct keys_unique_examples as (H0 & H1 & H2).
  exact (proj1 (proj2 (parse_spec_precedence two_base_files two_base_spec _
                  [Schemas.cananddevice_spec; legacy_spec] "CAN_ID"
                  H0 ltac:(apply List.Forall_cons; [exact H1 | apply List.Forall_cons; [exact H2 | apply List.Forall_nil]])
                  ltac:(repeat constructor) eq_refl))).
Defined.

(** X23: [impl_EnumMeta_from] keys the lowered values by id, so names that
    share an id collapse into one entry, the last of them; an id no value
    has gets no entry. *)
Theorem enum_values_last_id_wins (name : string) (entry : EnumSpec)
    (default_value : option string) (meta : EnumMeta) (i : Z) :
  impl_EnumMeta_from name entry default_value = Ok meta ->
  dict_get i (em_values meta)
  = match last_with_id i (es_values entry) with
    | Some kv => Some (mkEnumEntry (fst kv) (ees_comment (snd kv)) i)
    | None => None
    end.
Proof.
  intros H.
  assert (Hv : em_values meta
               = fold_left (fun acc kv =>
                    dict_set (ees_id (snd kv))
                      (mkEnumEntry (fst kv) (ees_comment (snd kv)) (ees_id (snd kv)))
                      acc) (es_values entry) []).
  { unfold impl_EnumMeta_from in H.
    destruct (dict_get _ (es_values entry)).
    - now injection H as <-.
    - destruct (_ || _)%bool; [now injection H as <- | discriminate]. }
  rewrite Hv.
  rewrite (dict_get_fold_set (fun kv => ees_id (snd kv))
             (fun kv => mkEnumEntry (fst kv) (ees_comment (snd kv)) (ees_id (snd kv)))).
  unfold last_with_id.
  induction (rev (es_values entry)) as [| kv l IH]; cbn [List.find]; [reflexivity |].
  destruct (Z.eqb_spec (ees_id (snd kv)) i) as [E | E].
  - rewrite bool_decide_eq_true_2 by assumption. now rewrite E.
  - rewrite bool_decide_eq_false_2 by assumption. exact IH.
Qed.

Lemma enum_values_last_id_wins_witness :
  dict_get 1
    (em_values (mkEnumMeta "MODE" 8 "A" 1 true [(1, mkEnumEntry "B" "second" 1)]))
  = Some (mkEnumEntry "B" "second" 1).
Proof.
  exact (enum_values_last_id_wins "MODE"
           (mkEnumSpec "modes" "uint" 8 true "A"
              [ ("A"%string, mkEnumEntrySpec 1 "first");
                ("B"%string, mkEnumEntrySpec 1 "second") ])
           None _ 1 eq_refl).
Defined.

End LoaderFacts.

(** ** Bit set defaults *)

Module BitsetDefaults.
Import Py Utils IR BitFacts.

Lemma default_u64_from_bits (flags : list BitsetFlag) (v0 : Z) :
  Forall (fun ent => 0 <= bit_idx ent) flags ->
  exists v, default_u64_from flags v0 = Ok v
            /\ forall i, 0 <= i ->
                 Z.testbit v i
                 = (Z.testbit v0 i
                    || existsb (fun ent => flag_default_value ent && (bit_idx ent =? i))
                         flags)%bool.
Proof.
  intros H. revert v0. induction H as [| ent rest Hent _ IH]; intros v0.
  - exists v0. split; [reflexivity |]. intros i _. cbn. now rewrite orb_false_r.
  - cbn [default_u64_from]. rewrite lshift_ok by assumption. cbn [bind].
    destruct (IH (Z.lor v0 (Z.shiftl (Z.b2z (flag_default_value ent)) (bit_idx ent))))
      as (v & Hv & Hbits).
    exists v. split; [exact Hv |]. intros i Hi. rewrite Hbits by assumption.
    rewrite Z.lor_spec, Z.shiftl_spec by assumption. cbn [existsb].
    rewrite <- orb_assoc. f_equal. f_equal.
    destruct (Z.eqb_spec (bit_idx ent) i) as [-> | Hne].
    + rewrite Z.sub_diag. destruct (flag_default_value ent); reflexivity.
    + rewrite andb_false_r.
      destruct (flag_default_value ent); cbn [Z.b2z].
      * destruct (Z.ltb_spec i (bit_idx ent)).
        -- apply Z.testbit_neg_r. lia.
        -- change 1 with (2 ^ 0). rewrite Z.pow2_bits_eqb by lia.
           apply Z.eqb_neq. lia.
      * apply Z.testbit_0_l.
Qed.

(** X24: with bit indexes that are not negative, [default_u64] returns the
    integer whose set bits are exactly the indexes of the flags that
    default to true; two flags on one index merge, and the bit set's
    declared width plays no part. *)
Theorem default_u64_bits (self : BitsetMeta) :
  Forall (fun ent => 0 <= bit_idx ent) (bs_flags self) ->
  exists v, default_u64 self = Ok v
            /\ forall i, 0 <= i ->
                 Z.testbit v i
                 = existsb (fun ent => flag_default_value ent && (bit_idx ent =? i))
                     (bs_flags self).
Proof.
  intros H. destruct (default_u64_from_bits (bs_flags self) 0 H) as (v & Hv & Hbits).
  exists v. split; [exact Hv |]. intros i Hi. rewrite Hbits by assumption.
  now rewrite Z.testbit_0_l.
Qed.

(** A flag on bit 9 of a bit set declared 8 wide. *)
Lemma default_u64_bits_witness :
  exists v, default_u64 (mkBitsetMeta "faults" 8
                           [ mkBitsetFlag 0 true "power_cycle" "c";
                             mkBitsetFlag 9 true "beyond" "c";
                             mkBitsetFlag 3 false "hot" "c" ]) = Ok v
            /\ Z.testbit v 9 = true.
Proof.
  destruct (default_u64_bits (mkBitsetMeta "faults" 8
                           [ mkBitsetFlag 0 true "power_cycle" "c";
                             mkBitsetFlag 9 true "beyond" "c";
                             mkBitsetFlag 3 false "hot" "c" ])
              ltac:(repeat constructor; cbn; lia)) as (v & Hv & Hbits).
  exists v. split; [exact Hv |]. rewrite Hbits by lia. reflexivity.
Defined.

Lemma default_u64_from_negative (flags : list BitsetFlag) (v0 : Z) :
  Exists (fun ent => bit_idx ent < 0) flags ->
  default_u64_from flags v0 = Raise NegativeShift.
Proof.
  revert v0. induction flags as [| ent rest IH]; intros v0 H.
  - inversion H.
  - cbn [default_u64_from]. unfold lshift.
    destruct (Z.ltb_spec (bit_idx ent) 0) as [Hneg | Hpos]; [reflexivity |].
    cbn [bind]. apply IH.
    inversion H as [? ? Hhere | ? ? Hlater]; subst; [lia | exact Hlater].
Qed.

(** X25: a flag with a negative bit index makes [default_u64] raise the
    interpreter's [ValueError] for a negative shift count, whatever the
    flag's default. *)
Theorem default_u64_negative_index (self : BitsetMeta) :
  Exists (fun ent => bit_idx ent < 0) (bs_flags self) ->
  default_u64 self = Raise NegativeShift.
Proof.
  intros H. unfold default_u64. now apply default_u64_from_negative.
Qed.

Lemma default_u64_negative_index_witness :
  default_u64 (mkBitsetMeta "faults" 8
                 [ mkBitsetFlag 0 true "power_cycle" "c";
                   mkBitsetFlag (-1) false "odd" "c" ]) = Raise NegativeShift.
Proof.
  apply (default_u64_negative_index (mkBitsetMeta "faults" 8
                 [ mkBitsetFlag 0 true "power_cycle" "c";
                   mkBitsetFlag (-1) false "odd" "c" ])).
  right. left. cbn. lia.
Defined.

End BitsetDefaults.
